(** * sql-db-utils: connection-engine cache, postcreate hooks and
      declarative-binding cache

    A shallow embedding of [sql_db_utils/session_management.py] and
    [sql_db_utils/asyncio/declarative_utils.py].  Python objects that are
    mutated in place (the manager, the module-level cache of declarative
    utilities, the server, the file system) are threaded as explicit state;
    a raised exception is a value of [outcome]. *)

From Stdlib Require Import Ascii String.
From stdpp Require Import gmap strings list.

Open Scope string_scope.

(** ** Python strings *)

Module PyStr.

(** [needle in hay] on [str]. *)
Fixpoint contains (needle hay : string) : bool :=
  if String.prefix needle hay then true
  else match hay with
       | EmptyString => false
       | String _ rest => contains needle rest
       end.

(** [s.replace(c, "")] for a one-character [c]. *)
Fixpoint remove_char (c : ascii) (s : string) : string :=
  match s with
  | EmptyString => EmptyString
  | String a rest =>
      if Ascii.eqb a c then remove_char c rest
      else String a (remove_char c rest)
  end.

(** Truthiness of an [Optional[str]]: [None] and [""] are falsy. *)
Definition truthy (o : option string) : bool :=
  match o with
  | Some (String _ _) => true
  | _ => false
  end.

End PyStr.

(** ** Exceptions and outcomes *)

Inductive exn : Type :=
| OperationalError (msg : string)   (* sqlalchemy.exc.OperationalError *)
| ImportError (msg : string)        (* includes ModuleNotFoundError *)
| AttributeError (msg : string)
| Exception (msg : string)          (* any other subclass of Exception *)
| SystemExit (code : nat).          (* a BaseException: not an Exception *)

(** [str(e)] *)
Definition str_of (e : exn) : string :=
  match e with
  | OperationalError m | ImportError m | AttributeError m | Exception m => m
  | SystemExit _ => ""
  end.

(** [isinstance(e, Exception)] *)
Definition is_Exception (e : exn) : bool :=
  match e with SystemExit _ => false | _ => true end.

Inductive outcome (A : Type) : Type :=
| Return (a : A)
| Raise (e : exn).
Arguments Return {A} a.
Arguments Raise {A} e.

#[global] Instance exn_eq_dec : EqDecision exn.
Proof. solve_decision. Defined.

(** ** A state-and-exception monad

    [M S A] is a Python call that runs in state [S] and either returns an
    [A] or raises; the state reached when the exception leaves the call is
    kept, since effects made before a [raise] are not undone. *)

Definition M (S A : Type) : Type := S -> outcome A * S.

#[global] Instance M_ret {S} : MRet (M S) := λ A a st, (Return a, st).

#[global] Instance M_bind {S} : MBind (M S) := λ A B f m st,
  match m st with
  | (Return a, st') => f a st'
  | (Raise e, st') => (Raise e, st')
  end.

Definition raise {S A} (e : exn) : M S A := λ st, (Raise e, st).
Definition get {S} : M S S := λ st, (Return st, st).
Definition modify {S} (f : S -> S) : M S unit := λ st, (Return tt, f st).

(** ** [sql_db_utils/session_management.py] *)

Module SessionManagement.

(** The fields of [PostgresConfig] that steer control flow. *)
Record PostgresConfig : Type := {
  PG_MAX_RETRY : nat;
  PG_ENABLE_POOLING : bool;
  PG_ANTI_PERSISTENT : bool;
}.

Definition Statement : Type := string.

Inductive isolation_level : Type := AUTOCOMMIT | DRIVER_DEFAULT.
Inductive poolclass : Type := QueuePool | NullPool.

(** An [Engine] object.  [engine_id] is the object's identity: two
    engines are the same Python object iff their ids agree. *)
Record Engine : Type := {
  engine_id : nat;
  engine_database : string;      (* last path segment of the url *)
  engine_poolclass : poolclass;
  engine_isolation : isolation_level;
}.

#[global] Instance isolation_eq_dec : EqDecision isolation_level.
Proof. solve_decision. Defined.
#[global] Instance poolclass_eq_dec : EqDecision poolclass.
Proof. solve_decision. Defined.
#[global] Instance Engine_eq_dec : EqDecision Engine.
Proof. solve_decision. Defined.

(** What a registered action hands back.  An [auto] action is called
    with the tenant id and returns one statement or a list of them; a
    [manual] action is called with the session and the tenant id, and is
    modelled by the statements it executes on that session and the
    exception, if any, that it raises afterwards. *)
Inductive AutoResult : Type :=
| Single (s : Statement)
| Sequence (l : list Statement).

Record AutoAction : Type := {
  auto_name : string;
  auto_call : option string -> outcome AutoResult;
}.

Record ManualAction : Type := {
  manual_name : string;
  manual_call : option string -> list Statement * option exn;
}.

(** The database server as seen from this process: [fault db i] is the
    exception met by the [i]-th pass through the bootstrap's [try] body
    for database [db]; [dependencies_fault] that of
    [create_default_psql_dependencies]; [rejects db s] that of executing
    statement [s] on [db]. *)
Record Server : Type := {
  fault : string -> nat -> option exn;
  dependencies_fault : string -> option exn;
  rejects : string -> Statement -> option exn;
}.

Inductive event : Type :=
| Probe (db : string) (attempt : nat)
| CreateDatabase (db : string)
| LogRetry (attempt : nat)
| LogConnectionFailed
| DefaultDependencies (engine : Engine)
| CallAuto (engine : Engine) (name : string) (tenant : option string)
| CallManual (engine : Engine) (name : string) (tenant : option string)
| Execute (engine : Engine) (s : Statement)
| Commit (engine : Engine)
| Close (engine : Engine).

(** Everything outside the manager that a call can change. *)
Record World : Type := {
  next_object : nat;                        (* next fresh object identity *)
  databases : list string;                  (* databases that exist *)
  persisted : list (string * Statement);    (* durable effects, oldest first *)
  log : list event;                         (* oldest first *)
}.

Record SQLSessionManager : Type := {
  _db_engines : gmap string Engine;
  database_uri : string;
  _postcreate_auto : gmap string (list AutoAction);
  _postcreate_manual : gmap string (list ManualAction);
}.

Record State : Type := { self : SQLSessionManager; world : World }.

Definition __init__ (uri : string) : SQLSessionManager :=
  {| _db_engines := ∅; database_uri := uri;
     _postcreate_auto := ∅; _postcreate_manual := ∅ |}.

(** *** World primitives *)

Definition emit (ev : event) : M World unit :=
  modify (λ w, {| next_object := next_object w; databases := databases w;
                  persisted := persisted w; log := log w ++ [ev] |}).

Definition persist (db : string) (l : list Statement) : M World unit :=
  modify (λ w, {| next_object := next_object w; databases := databases w;
                  persisted := persisted w ++ ((λ s, (db, s)) <$> l);
                  log := log w |}).

Definition add_database (db : string) : M World unit :=
  modify (λ w, {| next_object := next_object w;
                  databases := databases w ++ [db];
                  persisted := persisted w; log := log w |}).

Definition fresh_object : M World nat := λ w,
  (Return (next_object w),
   {| next_object := S (next_object w); databases := databases w;
      persisted := persisted w; log := log w |}).

(** [create_engine(url, ..., isolation_level="AUTOCOMMIT")]: both
    branches of [_get_engine] pass the same isolation level and differ
    in the pool class. *)
Definition create_engine (db : string) (pc : poolclass)
    (iso : isolation_level) : M World Engine :=
  id ← fresh_object;
  mret {| engine_id := id; engine_database := db;
          engine_poolclass := pc; engine_isolation := iso |}.

(** *** SQLAlchemy sessions

    A [Session] bound to an engine.  On an engine whose isolation level
    is [AUTOCOMMIT] the driver commits every statement as it is executed,
    and the session's [begin], [commit] and [rollback] do not reach the
    database; otherwise executed statements stay [pending] until
    [commit], and are dropped when the session is rolled back or
    abandoned. *)
Record Session : Type := { bind : Engine; pending : list Statement }.

Definition new_session (e : Engine) : Session :=
  {| bind := e; pending := [] |}.

Definition execute (srv : Server) (sess : Session) (s : Statement)
    : M World Session :=
  emit (Execute (bind sess) s) ;;
  match rejects srv (engine_database (bind sess)) s with
  | Some e => raise e
  | None =>
      match engine_isolation (bind sess) with
      | AUTOCOMMIT =>
          persist (engine_database (bind sess)) [s] ;; mret sess
      | DRIVER_DEFAULT =>
          mret {| bind := bind sess; pending := pending sess ++ [s] |}
      end
  end.

Definition commit (sess : Session) : M World Session :=
  emit (Commit (bind sess)) ;;
  persist (engine_database (bind sess)) (pending sess) ;;
  mret {| bind := bind sess; pending := [] |}.

Fixpoint execute_all (srv : Server) (sess : Session) (l : list Statement)
    : M World Session :=
  match l with
  | [] => mret sess
  | s :: rest => sess' ← execute srv sess s; execute_all srv sess' rest
  end.

(** *** Methods of [SQLSessionManager] *)

Definition _get_fully_qualified_db (database : string)
    (tenant_id : option string) : string :=
  match tenant_id with
  | Some t => if PyStr.truthy tenant_id then t ++ "__" ++ database
              else database
  | None => database
  end.

(** One pass through the [try] body of [_ensure_engine_connection]. *)
Definition attempt_connection (srv : Server) (e : Engine) (i : nat)
    : M World unit :=
  let db := engine_database e in
  emit (Probe db i) ;;
  match fault srv db i with
  | Some err => raise err
  | None =>
      w ← get;
      (if bool_decide (db ∈ databases w) then mret tt
       else emit (CreateDatabase db) ;; add_database db)
  end.

(** The [for _ in range(PG_MAX_RETRY)] loop, with [remaining] iterations
    left and [i] the loop variable.  A normal pass [break]s.  An
    [OperationalError] whose text lacks the login-failure marker logs and
    [continue]s; one that has it logs an error, after which the [except]
    body ends and the loop goes on to its next iteration.  Any other
    exception leaves the function. *)
Fixpoint retry_loop (srv : Server) (e : Engine) (remaining i : nat)
    : M World unit :=
  match remaining with
  | 0 => mret tt
  | S k =>
      λ w,
        match attempt_connection srv e i w with
        | (Return _, w') => (Return tt, w')
        | (Raise (OperationalError msg), w') =>
            if negb (PyStr.contains "server login has been failing" msg)
            then (emit (LogRetry i) ;; retry_loop srv e k (S i)) w'
            else (emit LogConnectionFailed ;; retry_loop srv e k (S i)) w'
        | (Raise other, w') => (Raise other, w')
        end
  end.

Definition _ensure_engine_connection (cfg : PostgresConfig) (srv : Server)
    (e : Engine) : M World unit :=
  retry_loop srv e (PG_MAX_RETRY cfg) 0.

Definition run_auto (srv : Server) (tenant_id : option string)
    (sess : Session) (f : AutoAction) : M World Session :=
  emit (CallAuto (bind sess) (auto_name f) tenant_id) ;;
  match auto_call f tenant_id with
  | Raise e => raise e
  | Return (Sequence l) => execute_all srv sess l
  | Return (Single s) => execute srv sess s
  end.

Fixpoint run_autos (srv : Server) (tenant_id : option string)
    (sess : Session) (fs : list AutoAction) : M World Session :=
  match fs with
  | [] => mret sess
  | f :: rest =>
      sess' ← run_auto srv tenant_id sess f;
      run_autos srv tenant_id sess' rest
  end.

Definition run_manual (srv : Server) (tenant_id : option string)
    (sess : Session) (f : ManualAction) : M World Session :=
  emit (CallManual (bind sess) (manual_name f) tenant_id) ;;
  sess' ← execute_all srv sess (manual_call f tenant_id).1;
  match (manual_call f tenant_id).2 with
  | Some e => raise e
  | None => mret sess'
  end.

Fixpoint run_manuals (srv : Server) (tenant_id : option string)
    (sess : Session) (fs : list ManualAction) : M World Session :=
  match fs with
  | [] => mret sess
  | f :: rest =>
      sess' ← run_manual srv tenant_id sess f;
      run_manuals srv tenant_id sess' rest
  end.

(** [run_postcreate].  The [with session.begin():] block commits when its
    body ends normally; when the body raises, the session is rolled back
    (its pending statements are dropped with it) and the exception goes
    on. *)
Definition run_postcreate (srv : Server) (mgr : SQLSessionManager)
    (engine : Engine) (raw_db : string) (tenant_id : option string)
    : M World unit :=
  let session := new_session engine in
  session ← (s ← run_autos srv tenant_id session
                   (default [] (_postcreate_auto mgr !! raw_db));
             commit s);
  session ← run_manuals srv tenant_id session
              (default [] (_postcreate_manual mgr !! raw_db));
  session ← commit session;
  emit (Close (bind session)).

(** [create_default_psql_dependencies] lives in
    [sql_db_utils.sql_creations]; here it is a step that the server may
    fail. *)
Definition create_default_psql_dependencies (srv : Server) (e : Engine)
    : M World unit :=
  emit (DefaultDependencies e) ;;
  match dependencies_fault srv (engine_database e) with
  | Some err => raise err
  | None => mret tt
  end.

Definition lift {A} (m : M World A) : M State A := λ st,
  let '(r, w) := m (world st) in (r, {| self := self st; world := w |}).

Definition cache_engine (key : string) (e : Engine) : M State unit :=
  modify (λ st,
    {| self := {| _db_engines := <[key := e]> (_db_engines (self st));
                  database_uri := database_uri (self st);
                  _postcreate_auto := _postcreate_auto (self st);
                  _postcreate_manual := _postcreate_manual (self st) |};
       world := world st |}).

(** [_get_engine].  Its [metadata] argument is only handed on to
    [create_default_psql_dependencies] and is left out. *)
Definition _get_engine (cfg : PostgresConfig) (srv : Server)
    (database : string) (tenant_id : option string) : M State Engine :=
  let qualified_db_name := _get_fully_qualified_db database tenant_id in
  st ← get;
  match _db_engines (self st) !! qualified_db_name with
  | Some engine => mret engine
  | None =>
      engine ← lift (create_engine qualified_db_name
                       (if PG_ENABLE_POOLING cfg then QueuePool
                        else NullPool)
                       AUTOCOMMIT);
      lift (_ensure_engine_connection cfg srv engine) ;;
      (if negb (PG_ANTI_PERSISTENT cfg)
       then cache_engine qualified_db_name engine
       else mret tt) ;;
      lift (create_default_psql_dependencies srv engine) ;;
      st' ← get;
      lift (run_postcreate srv (self st') engine database tenant_id) ;;
      mret engine
  end.

Definition get_engine_obj := _get_engine.

(** *** Registration of postcreate actions

    [raw_db: str | List[str]]. *)
Inductive raw_db_arg : Type :=
| Name (db : string)
| Names (dbs : list string).

(** [l = store.get(db, []); l.append(func); store[db] = l] *)
Definition append_action {A} (func : A) (store : gmap string (list A))
    (db : string) : gmap string (list A) :=
  <[db := (default [] (store !! db) ++ [func])%list]> store.

(** The inner [decorator(func)] of [postcreate_decorator], acting on the
    store it closed over.  It has no [return] statement, so what the
    [@decorator] line binds to the decorated name is [None]. *)
Definition decorator {A} (raw_db : raw_db_arg) (func : A)
    : M (gmap string (list A)) (option A) :=
  match raw_db with
  | Names dbs =>
      modify (λ store, foldl (append_action func) store dbs) ;; mret None
  | Name db =>
      modify (λ store, append_action func store db) ;; mret None
  end.

(** [getattr(self, "_postcreate_auto")] and
    [getattr(self, "_postcreate_manual")]: the decorator runs on the
    named attribute of the manager. *)
Definition on_auto {B} (m : M (gmap string (list AutoAction)) B)
    : M SQLSessionManager B := λ mgr,
  let '(r, store) := m (_postcreate_auto mgr) in
  (r, {| _db_engines := _db_engines mgr;
         database_uri := database_uri mgr;
         _postcreate_auto := store;
         _postcreate_manual := _postcreate_manual mgr |}).

Definition on_manual {B} (m : M (gmap string (list ManualAction)) B)
    : M SQLSessionManager B := λ mgr,
  let '(r, store) := m (_postcreate_manual mgr) in
  (r, {| _db_engines := _db_engines mgr;
         database_uri := database_uri mgr;
         _postcreate_auto := _postcreate_auto mgr;
         _postcreate_manual := store |}).

Definition register_postcreate (raw_db : raw_db_arg) (func : AutoAction)
    : M SQLSessionManager (option AutoAction) :=
  on_auto (decorator raw_db func).

Definition register_postcreate_manual (raw_db : raw_db_arg)
    (func : ManualAction) : M SQLSessionManager (option ManualAction) :=
  on_manual (decorator raw_db func).

(** The names a registration call mentions, one entry per mention. *)
Definition names_of (raw_db : raw_db_arg) : list string :=
  match raw_db with
  | Name db => [db]
  | Names dbs => dbs
  end.

(** How often [db] is mentioned. *)
Definition mentions (db : string) (raw_db : raw_db_arg) : nat :=
  length (filter (λ d, d = db) (names_of raw_db)).

(** The actions registered under [db], in registration order. *)
Definition registered {A} (store : gmap string (list A)) (db : string)
    : list A :=
  default [] (store !! db).

End SessionManagement.

(** ** [pydantic.alias_generators.to_pascal], on ASCII text

    [snake.title()] followed by
    [re.sub("([0-9A-Za-z])_(?=[0-9A-Z])", lambda m: m.group(1), camel)]. *)

Module Pydantic.

Definition is_lower (c : ascii) : bool :=
  ((97 <=? nat_of_ascii c) && (nat_of_ascii c <=? 122))%nat.
Definition is_upper (c : ascii) : bool :=
  ((65 <=? nat_of_ascii c) && (nat_of_ascii c <=? 90))%nat.
Definition is_digit (c : ascii) : bool :=
  ((48 <=? nat_of_ascii c) && (nat_of_ascii c <=? 57))%nat.

Definition upper (c : ascii) : ascii :=
  if is_lower c then ascii_of_nat (nat_of_ascii c - 32)%nat else c.
Definition lower (c : ascii) : ascii :=
  if is_upper c then ascii_of_nat (nat_of_ascii c + 32)%nat else c.

(** [str.title]: a letter that follows a letter is lowered, any other
    letter is raised. *)
Fixpoint title_from (after_letter : bool) (s : string) : string :=
  match s with
  | EmptyString => EmptyString
  | String c rest =>
      if is_lower c || is_upper c
      then String (if after_letter then lower c else upper c)
                  (title_from true rest)
      else String c (title_from false rest)
  end.

Definition title : string -> string := title_from false.

Definition starts_upper_or_digit (s : string) : bool :=
  match s with
  | EmptyString => false
  | String d _ => is_digit d || is_upper d
  end.

(** The substitution: an underscore that follows a letter or digit and
    precedes a digit or capital is dropped. *)
Fixpoint squeeze (after_alnum : bool) (s : string) : string :=
  match s with
  | EmptyString => EmptyString
  | String c rest =>
      if Ascii.eqb c "_" && after_alnum && starts_upper_or_digit rest
      then squeeze false rest
      else String c (squeeze (is_digit c || is_lower c || is_upper c) rest)
  end.

Definition to_pascal (snake : string) : string :=
  squeeze false (title snake).

End Pydantic.

(** ** [sql_db_utils/asyncio/declarative_utils.py] *)

Module DeclarativeUtils.

(** [ModuleConfig.DEFER_GEN_REFRESH]. *)
Record ModuleConfig : Type := { DEFER_GEN_REFRESH : bool }.

Definition PyObject : Type := string.   (* an attribute value, by its repr *)
Definition Metadata : Type := list string.
Definition Registry : Type := list (string * string).

(** A loaded module: its identity, its name in [sys.modules], the text it
    was last executed from and its attribute dictionary. *)
Record PyModule : Type := {
  module_id : nat;
  module_name : string;
  module_text : string;
  namespace : gmap string PyObject;
}.

(** [self.declarative_module]: [None], the logical path (a [str]) or the
    module. *)
Inductive declarative_module_value : Type :=
| NoModule
| ModulePath (path : string)
| Loaded (m : PyModule).

Record DeclarativeUtils : Type := {
  raw_database : string;
  tenant_id : string;
  schema : string;
  raw_db : bool;
  declarative_module : declarative_module_value;
}.

(** What lies outside the repository's sources: whether the optional
    [codegen] module can be imported, the asynchronous session manager,
    reflection, the generator, the execution of a module's text by the
    interpreter, and the attribute names of [str]. *)
Record Host : Type := {
  codegen_installed : bool;
  get_session_fault : string -> option string -> option exn;
  reflect : string -> option string -> string -> outcome Metadata;
  generate : string -> string -> Metadata -> outcome string;
  execute_text :
    string -> string -> Registry -> outcome (gmap string PyObject * Registry);
  str_attributes : list string;
}.

Inductive event : Type :=
| MkDir (dir : string)
| WriteFile (file text : string)
| GetSession (database : string) (tenant : option string)
| Reflect (schema : string)
| Generate (database schema : string)
| ImportModule (name : string)
| ReloadModule (name : string)
| RemoveBaseClass (database schema : string)
| CancelTasks
| LogError (msg : string).

(** The process and the file system under [PathConfig.DECLARATIVES_PATH].
    [declarative_utils] is the module-level dictionary of that name. *)
Record World : Type := {
  dirs : gset string;
  files : gmap string string;
  sys_modules : gmap string PyModule;
  base_classes : Registry;
  declarative_utils : gmap string DeclarativeUtils;
  next_object : nat;
  trace : list event;                       (* oldest first *)
}.

Record State : Type := { self : DeclarativeUtils; world : World }.

(** *** World primitives *)

Definition emit (ev : event) : M World unit :=
  modify (λ w, {| dirs := dirs w; files := files w;
                  sys_modules := sys_modules w;
                  base_classes := base_classes w;
                  declarative_utils := declarative_utils w;
                  next_object := next_object w;
                  trace := trace w ++ [ev] |}).

Definition mkdir (d : string) : M World unit :=
  emit (MkDir d) ;;
  modify (λ w, {| dirs := {[d]} ∪ dirs w; files := files w;
                  sys_modules := sys_modules w;
                  base_classes := base_classes w;
                  declarative_utils := declarative_utils w;
                  next_object := next_object w; trace := trace w |}).

(** [open(file, "w")] followed by a write of [text]; opening alone is a
    write of the empty text. *)
Definition write_file (file text : string) : M World unit :=
  emit (WriteFile file text) ;;
  modify (λ w, {| dirs := dirs w; files := <[file := text]> (files w);
                  sys_modules := sys_modules w;
                  base_classes := base_classes w;
                  declarative_utils := declarative_utils w;
                  next_object := next_object w; trace := trace w |}).

Definition set_sys_module (name : string) (m : option PyModule)
    : M World unit :=
  modify (λ w, {| dirs := dirs w; files := files w;
                  sys_modules :=
                    match m with
                    | Some m => <[name := m]> (sys_modules w)
                    | None => delete name (sys_modules w)
                    end;
                  base_classes := base_classes w;
                  declarative_utils := declarative_utils w;
                  next_object := next_object w; trace := trace w |}).

Definition set_base_classes (r : Registry) : M World unit :=
  modify (λ w, {| dirs := dirs w; files := files w;
                  sys_modules := sys_modules w;
                  base_classes := r;
                  declarative_utils := declarative_utils w;
                  next_object := next_object w; trace := trace w |}).

Definition store_util (key : string) (u : DeclarativeUtils) : M World unit :=
  modify (λ w, {| dirs := dirs w; files := files w;
                  sys_modules := sys_modules w;
                  base_classes := base_classes w;
                  declarative_utils := <[key := u]> (declarative_utils w);
                  next_object := next_object w; trace := trace w |}).

Definition fresh_object : M World nat := λ w,
  (Return (next_object w),
   {| dirs := dirs w; files := files w; sys_modules := sys_modules w;
      base_classes := base_classes w;
      declarative_utils := declarative_utils w;
      next_object := S (next_object w); trace := trace w |}).

Definition of_outcome {S A} (r : outcome A) : M S A := λ st, (r, st).

Definition of_fault {S} (f : option exn) : M S unit :=
  match f with Some e => raise e | None => mret tt end.

(** *** The import system *)

Fixpoint dots_to_slashes (s : string) : string :=
  match s with
  | EmptyString => EmptyString
  | String c rest =>
      String (if Ascii.eqb c "." then "/"%char else c) (dots_to_slashes rest)
  end.

(** The file that holds module [name]. *)
Definition module_file (name : string) : string :=
  dots_to_slashes name ++ ".py".

(** Running the text of [file] as module [name]. *)
Definition run_text (host : Host) (name text : string)
    : M World (gmap string PyObject) :=
  w ← get;
  '(ns, bases) ← of_outcome (execute_text host name text (base_classes w));
  set_base_classes bases ;; mret ns.

(** [importlib.import_module(name)]: a module already in [sys.modules]
    is returned as it is; otherwise its file is looked up and executed,
    and the new module object is entered in [sys.modules] only when the
    execution ends normally. *)
Definition import_module (host : Host) (name : string) : M World PyModule :=
  emit (ImportModule name) ;;
  w ← get;
  match sys_modules w !! name with
  | Some m => mret m
  | None =>
      match files w !! module_file name with
      | None => raise (ImportError ("No module named '" ++ name ++ "'"))
      | Some text =>
          id ← fresh_object;
          ns ← run_text host name text;
          let m := {| module_id := id; module_name := name;
                      module_text := text; namespace := ns |} in
          set_sys_module name (Some m) ;; mret m
      end
  end.

(** [importlib.reload(module)]: the module must be the one registered
    under its name; its file is executed again in the same object, whose
    dictionary keeps the names the new text does not rebind. *)
Definition reload (host : Host) (m : PyModule) : M World PyModule :=
  emit (ReloadModule (module_name m)) ;;
  w ← get;
  match sys_modules w !! module_name m with
  | None =>
      raise (ImportError ("module " ++ module_name m ++ " not in sys.modules"))
  | Some _ =>
      match files w !! module_file (module_name m) with
      | None =>
          raise (ImportError ("No module named '" ++ module_name m ++ "'"))
      | Some text =>
          ns ← run_text host (module_name m) text;
          let m' := {| module_id := module_id m;
                       module_name := module_name m;
                       module_text := text;
                       namespace := ns ∪ namespace m |} in
          set_sys_module (module_name m) (Some m') ;; mret m'
      end
  end.

(** Modelled from the spec: [base_class_generator.remove_base_class] of
    [sql_db_utils.asyncio.declaratives], which is not among the sources;
    it removes any previously registered declarative base for the
    [(database, schema)] pair. *)
Definition remove_base_class (database schema : string) : M World unit :=
  emit (RemoveBaseClass database schema) ;;
  w ← get;
  set_base_classes
    (filter (λ p, p ≠ (database, schema)) (base_classes w)).

(** *** Methods of [DeclarativeUtils] *)

Definition __init__ (raw_database tenant_id schema : string) (raw_db : bool)
    : DeclarativeUtils :=
  {| raw_database := raw_database; tenant_id := tenant_id;
     schema := schema; raw_db := raw_db; declarative_module := NoModule |}.

Definition lift {A} (m : M World A) : M State A := λ st,
  let '(r, w) := m (world st) in (r, {| self := self st; world := w |}).

Definition get_self : M State DeclarativeUtils := λ st, (Return (self st), st).

Definition set_declarative_module (v : declarative_module_value)
    : M State unit :=
  modify (λ st,
    {| self := {| raw_database := raw_database (self st);
                  tenant_id := tenant_id (self st);
                  schema := schema (self st);
                  raw_db := raw_db (self st);
                  declarative_module := v |};
       world := world st |}).

(** [try: body  except Exception as e: handler(e)]; a [SystemExit] is not
    an [Exception] and passes through. *)
Definition try_except {S A} (body : M S A) (handler : exn -> M S A)
    : M S A := λ st,
  match body st with
  | (Raise e, st') =>
      if is_Exception e then handler e st' else (Raise e, st')
  | r => r
  end.

(** [f"{self.tenant_id}.async_{self.raw_database}_{self.schema}"] *)
Definition logical_path (u : DeclarativeUtils) : string :=
  tenant_id u ++ ".async_" ++ raw_database u ++ "_" ++ schema u.

(** [declarative_tenant_directory / f"async_{raw_database}_{schema}.py"],
    relative to [PathConfig.DECLARATIVES_PATH]. *)
Definition declarative_file (u : DeclarativeUtils) : string :=
  tenant_id u ++ "/async_" ++ raw_database u ++ "_" ++ schema u ++ ".py".

Definition tenant_init_file (u : DeclarativeUtils) : string :=
  tenant_id u ++ "/__init__.py".

(** What [_prepare_declarative_file] returns: the logical path or
    [False]. *)
Inductive prepared : Type :=
| Path (p : string)
| PyFalse.

(** The body of the [try] in [_prepare_declarative_file]: import of the
    generator, session, reflection, and the write of the generated text
    into the file opened (and thereby emptied) beforehand. *)
Definition generate_declarative_file (host : Host) (u : DeclarativeUtils)
    : M World unit :=
  (if codegen_installed host then mret tt
   else raise (ImportError "No module named 'sql_db_utils.asyncio.codegen'")) ;;
  let tenant := if raw_db u then None else Some (tenant_id u) in
  emit (GetSession (raw_database u) tenant) ;;
  of_fault (get_session_fault host (raw_database u) tenant) ;;
  emit (Reflect (schema u)) ;;
  meta ← of_outcome (reflect host (raw_database u) tenant (schema u));
  write_file (declarative_file u) "" ;;
  let name := if raw_db u then raw_database u
              else tenant_id u ++ "__" ++ raw_database u in
  emit (Generate name (schema u)) ;;
  text ← of_outcome (generate host name (schema u) meta);
  write_file (declarative_file u) text.

(** The first lines of [_prepare_declarative_file]: the tenant's
    directory and its [__init__.py] are created when they are missing. *)
Definition ensure_tenant_package (u : DeclarativeUtils) : M World unit :=
  w ← get;
  (if bool_decide (tenant_id u ∈ dirs w) then mret tt
   else mkdir (tenant_id u)) ;;
  w ← get;
  (if bool_decide (is_Some (files w !! tenant_init_file u)) then mret tt
   else write_file (tenant_init_file u) "").

Definition _prepare_declarative_file (cfg : ModuleConfig) (host : Host)
    (u : DeclarativeUtils) (refresh : bool) : M World prepared :=
  ensure_tenant_package u ;;
  w ← get;
  if bool_decide (is_Some (files w !! declarative_file u))
     && DEFER_GEN_REFRESH cfg && negb refresh
  then mret (Path (logical_path u))
  else λ w,
    match generate_declarative_file host u w with
    | (Return _, w') => (Return (Path (logical_path u)), w')
    | (Raise (ImportError _), w') => (Return (Path (logical_path u)), w')
    | (Raise e, w') =>
        if is_Exception e
        then (emit (LogError "Error creating declarative file") ;;
              mret PyFalse) w'
        else (Raise e, w')
    end.

(** [importlib.import_module(self.declarative_module)]: only a [str] has
    the [startswith] the function begins with. *)
Definition import_module_of (host : Host) (v : declarative_module_value)
    : M World PyModule :=
  match v with
  | ModulePath p => import_module host p
  | _ => raise (AttributeError "object has no attribute 'startswith'")
  end.

(** [importlib.reload(self.declarative_module)]. *)
Definition reload_of (host : Host) (v : declarative_module_value)
    : M World PyModule :=
  match v with
  | Loaded m => reload host m
  | _ => raise (Exception "reload() argument must be a module")
  end.

Definition refresh_module (cfg : ModuleConfig) (host : Host)
    (non_refresh : bool) : M State unit :=
  u ← get_self;
  lift (remove_base_class (raw_database u) (schema u)) ;;
  lift (_prepare_declarative_file cfg host u true) ;;
  u ← get_self;
  m ← lift (if non_refresh then import_module_of host (declarative_module u)
            else reload_of host (declarative_module u));
  set_declarative_module (Loaded m).

(** [weakref.proxy(self.declarative_module)] *)
Definition weakref_proxy {S} (v : declarative_module_value)
    : M S (option PyModule) :=
  match v with
  | Loaded m => mret (Some m)
  | _ => raise (Exception "cannot create weak reference")
  end.

(** The emergency branch: the other tasks are cancelled and
    [sys.exit(1)] is called. *)
Definition emergency_exit {A} : M State A :=
  lift (emit CancelTasks) ;; raise (SystemExit 1).

Definition log_import_error : M State (option PyModule) :=
  lift (emit (LogError "Error importing declarative module")) ;; mret None.

(** The [try] body of [_get_declarative_module]. *)
Definition load_declarative_module (host : Host)
    (declarative_module_path : string) : M State (option PyModule) :=
  set_declarative_module (ModulePath declarative_module_path) ;;
  m ← lift (import_module host declarative_module_path);
  set_declarative_module (Loaded m) ;;
  mret (Some m).

(** Its [except Exception as e] body. *)
Definition on_load_error (cfg : ModuleConfig) (host : Host) (e : exn)
    : M State (option PyModule) :=
  if PyStr.contains "No module named" (str_of e)
  then emergency_exit
  else if PyStr.contains "is already defined" (str_of e)
  then try_except
         (refresh_module cfg host true ;;
          u' ← get_self;
          weakref_proxy (declarative_module u'))
         (λ _, log_import_error)
  else log_import_error.

Definition _get_declarative_module (cfg : ModuleConfig) (host : Host)
    : M State (option PyModule) :=
  u ← get_self;
  p ← lift (_prepare_declarative_file cfg host u false);
  match p with
  | PyFalse => mret None
  | Path declarative_module_path =>
      try_except (load_declarative_module host declarative_module_path)
                 (on_load_error cfg host)
  end.

Definition _pre_check (cfg : ModuleConfig) (host : Host) : M State unit :=
  u ← get_self;
  match declarative_module u with
  | Loaded _ => mret tt
  | _ => _get_declarative_module cfg host ;; mret tt
  end.

(** [async def __new__]: the object is built, initialised, asked for its
    module and returned. *)
Definition __new__ (cfg : ModuleConfig) (host : Host)
    (raw_database tenant_id schema : string) (raw_db : bool)
    : M World DeclarativeUtils := λ w,
  let '(r, st) :=
    _get_declarative_module cfg host
      {| self := __init__ raw_database tenant_id schema raw_db;
         world := w |} in
  (match r with Return _ => Return (self st) | Raise e => Raise e end,
   world st).

(** *** Name lookup *)

Inductive attribute : Type :=
| ModuleAttribute (v : PyObject)
| StrAttribute (name : string).

(** [getattr(self.declarative_module, name)]; [None] stands for the
    [AttributeError]. *)
Definition getattr (host : Host) (v : declarative_module_value)
    (name : string) : option attribute :=
  match v with
  | NoModule => None
  | ModulePath _ =>
      if bool_decide (name ∈ str_attributes host)
      then Some (StrAttribute name) else None
  | Loaded m => ModuleAttribute <$> namespace m !! name
  end.

(** [if self.declarative_module:] *)
Definition truthy (v : declarative_module_value) : bool :=
  match v with
  | NoModule => false
  | ModulePath p => negb (String.eqb p "")
  | Loaded _ => true
  end.

(** [get_declarative_class]: the nested [try]/[except AttributeError]
    blocks.  The result [None] is Python's [None]. *)
Definition get_declarative_class (host : Host) (u : DeclarativeUtils)
    (table_name : string) : option attribute :=
  let module := declarative_module u in
  if truthy module then
    match getattr host module (Pydantic.to_pascal table_name) with
    | Some a => Some a
    | None =>
        match getattr host module ("t_" ++ table_name) with
        | Some a => Some a
        | None =>
            match getattr host module table_name with
            | Some a => Some a
            | None =>
                match getattr host module
                        (PyStr.remove_char "_" table_name) with
                | Some a => Some a
                | None => None
                end
            end
        end
    end
  else None.

(** *** [_DeclarativeUtilsFactory] *)

(** [f"{raw_database}_{tenant_id}_{schema}"] *)
Definition cache_key (raw_database tenant_id schema : string) : string :=
  raw_database ++ "_" ++ tenant_id ++ "_" ++ schema.

(** A method call on the object cached under [key]: the object is
    changed in place, so the entry shows the change whether or not the
    call raises. *)
Definition on_cached {A} (key : string) (u : DeclarativeUtils)
    (m : M State A) : M World DeclarativeUtils := λ w,
  let '(r, st) := m {| self := u; world := w |} in
  let '(_, w') := store_util key (self st) (world st) in
  (match r with Return _ => Return (self st) | Raise e => Raise e end, w').

Definition get_declarative_utils (cfg : ModuleConfig) (host : Host)
    (raw_database tenant_id schema : string) (raw_db : bool)
    : M World DeclarativeUtils :=
  let key := cache_key raw_database tenant_id schema in
  w ← get;
  match declarative_utils w !! key with
  | Some declarative_util =>
      on_cached key declarative_util (_pre_check cfg host)
  | None =>
      declarative_util ← __new__ cfg host raw_database tenant_id schema raw_db;
      store_util key declarative_util ;;
      mret declarative_util
  end.

(** The closures handed out by [get_declarative_utils_factory] and
    [get_schema_mandated_declarative_utils_factory] build the object
    without [raw_db]. *)
Definition get_declarative_utils_factory (cfg : ModuleConfig) (host : Host)
    (raw_database tenant_id schema : string) : M World DeclarativeUtils :=
  get_declarative_utils cfg host raw_database tenant_id schema false.

End DeclarativeUtils.

(** ** Observations on logs, and the concrete situations used below *)

Module Observations.
Import SessionManagement.

Definition is_probe (ev : event) : bool :=
  match ev with Probe _ _ => true | _ => false end.

(** Passes through the bootstrap's [try] body recorded in a log. *)
Definition attempts (l : list event) : nat :=
  length (List.filter is_probe l).

(** The hook calls recorded in a log: identity of the pool, kind and
    name of the action, tenant passed. *)
Inductive hook_kind : Type := Auto | Manual.

Definition hook_call (ev : event)
    : option (nat * hook_kind * string * option string) :=
  match ev with
  | CallAuto e n t => Some (engine_id e, Auto, n, t)
  | CallManual e n t => Some (engine_id e, Manual, n, t)
  | _ => None
  end.

Definition hook_calls (l : list event)
    : list (nat * hook_kind * string * option string) :=
  omap hook_call l.

(** The calls one run of the hooks of [raw_db] owes to pool [e]. *)
Definition hooks_due (mgr : SQLSessionManager) (e : Engine)
    (raw_db : string) (tenant : option string)
    : list (nat * hook_kind * string * option string) :=
  ((λ f, (engine_id e, Auto, auto_name f, tenant))
     <$> registered (_postcreate_auto mgr) raw_db)
  ++ ((λ f, (engine_id e, Manual, manual_name f, tenant))
     <$> registered (_postcreate_manual mgr) raw_db).

(** How many calls of the action [name] a log holds. *)
Definition executions (name : string) (l : list event) : nat :=
  length (List.filter (λ c, String.eqb c.1.2 name) (hook_calls l)).

(** [n] successive calls of [_get_engine] for one identity, with the
    pools they return; a call that raises ends the series. *)
Fixpoint get_engine_times (cfg : PostgresConfig) (srv : Server)
    (database : string) (tenant_id : option string) (n : nat)
    : M State (list Engine) :=
  match n with
  | 0 => mret []
  | S k =>
      e ← _get_engine cfg srv database tenant_id;
      es ← get_engine_times cfg srv database tenant_id k;
      mret (e :: es)
  end.

(** No object is created. *)
Definition same_objects (w w' : World) : Prop :=
  next_object w' = next_object w.

(** No object is created and no hook is called. *)
Definition quiet (w w' : World) : Prop :=
  next_object w' = next_object w
  ∧ hook_calls (log w') = hook_calls (log w).

Definition empty_world : World :=
  {| next_object := 0; databases := []; persisted := []; log := [] |}.

Definition fresh_state (mgr : SQLSessionManager) : State :=
  {| self := mgr; world := empty_world |}.

(** A server that answers every connection attempt with the pooler's
    login-failure message. *)
Definition login_failure : exn :=
  OperationalError
    "(psycopg2.OperationalError) server login has been failing, try again later (server_login_retry)".

Definition refusing_server : Server :=
  {| fault := λ _ _, Some login_failure;
     dependencies_fault := λ _, None;
     rejects := λ _ _, None |}.

(** A server without faults, and one that rejects a single statement. *)
Definition healthy_server : Server :=
  {| fault := λ _ _, None;
     dependencies_fault := λ _, None;
     rejects := λ _ _, None |}.

Definition strict_server (bad : Statement) : Server :=
  {| fault := λ _ _, None;
     dependencies_fault := λ _, None;
     rejects := λ _ s,
       if String.eqb s bad
       then Some (Exception "(psycopg2.errors.SyntaxError) syntax error")
       else None |}.

Definition caching : PostgresConfig :=
  {| PG_MAX_RETRY := 3; PG_ENABLE_POOLING := true;
     PG_ANTI_PERSISTENT := false |}.

Definition anti_persistent : PostgresConfig :=
  {| PG_MAX_RETRY := 3; PG_ENABLE_POOLING := true;
     PG_ANTI_PERSISTENT := true |}.

Definition create_extension : AutoAction :=
  {| auto_name := "create_extension";
     auto_call := λ _, Return (Single "CREATE EXTENSION IF NOT EXISTS pgcrypto") |}.

Definition create_tables : AutoAction :=
  {| auto_name := "create_tables";
     auto_call := λ _,
       Return (Sequence ["CREATE TABLE invoice (id int)"; "CREATE TABEL line (id int)"]) |}.

Definition seed : ManualAction :=
  {| manual_name := "seed";
     manual_call := λ _, (["INSERT INTO invoice VALUES (1)"], None) |}.

(** A manager on which [create_extension] was registered for ["billing"]
    and [seed], as a manual action, for ["billing"] and ["audit"]. *)
Definition billing_manager : SQLSessionManager :=
  (register_postcreate_manual (Names ["billing"; "audit"]) seed
     (register_postcreate (Name "billing") create_extension
        (__init__ "postgresql://pg")).2).2.

(** The same with [create_tables] registered after it. *)
Definition billing_manager2 : SQLSessionManager :=
  (register_postcreate (Name "billing") create_tables billing_manager).2.

End Observations.

Module Situations.
Import DeclarativeUtils.

Definition is_reload (ev : event) : bool :=
  match ev with ReloadModule _ => true | _ => false end.

Definition is_reflect (ev : event) : bool :=
  match ev with Reflect _ | GetSession _ _ | Generate _ _ => true
  | _ => false end.

Definition is_write_of (file : string) (ev : event) : bool :=
  match ev with WriteFile f _ => String.eqb f file | _ => false end.

(** Calls of [importlib.reload], steps of reflection and generation, and
    writes to [file] recorded in a trace. *)
Definition reloads (l : list event) : nat :=
  length (List.filter is_reload l).
Definition reflections (l : list event) : nat :=
  length (List.filter is_reflect l).
Definition writes_of (file : string) (l : list event) : nat :=
  length (List.filter (is_write_of file) l).

(** The names of the modules asked of [importlib.import_module]. *)
Definition imports (l : list event) : list string :=
  omap (λ ev, match ev with ImportModule n => Some n | _ => None end) l.

(** The world [w'] was reached from [w] without a call of
    [importlib.reload]: the trace was only extended, by events other than
    [ReloadModule], and no object identity was handed out twice. *)
Definition grows (w w' : World) : Prop :=
  (next_object w <= next_object w')%nat
  ∧ ∃ evs, trace w' = (trace w ++ evs)%list
           ∧ Forall (λ ev, is_reload ev = false) evs.

(** The table of loaded modules is the same. *)
Definition same_modules (w w' : World) : Prop :=
  sys_modules w' = sys_modules w.

(** The file [f] is as it was, and nothing was reflected, generated or
    written to [f]. *)
Definition untouched (f : string) (w w' : World) : Prop :=
  files w' !! f = files w !! f
  ∧ reflections (trace w') = reflections (trace w)
  ∧ writes_of f (trace w') = writes_of f (trace w).

(** No call of [importlib.import_module] was made. *)
Definition same_imports (w w' : World) : Prop :=
  imports (trace w') = imports (trace w).

(** The object is the one it was: only [declarative_module] may have
    been reassigned. *)
Definition same_object (u u' : DeclarativeUtils) : Prop :=
  raw_database u' = raw_database u ∧ tenant_id u' = tenant_id u
  ∧ schema u' = schema u ∧ raw_db u' = raw_db u.

Definition advances (st st' : State) : Prop :=
  same_object (self st) (self st') ∧ grows (world st) (world st').

(** The first thing that happened between [st] and [st'] was a call of
    [importlib.import_module] for [p]. *)
Definition loads_first (p : string) (st st' : State) : Prop :=
  ∃ evs, trace (world st') = (trace (world st) ++ ImportModule p :: evs)%list.

(** The name resolution of [get_declarative_class] in the words of its
    description: the four spellings in their order, and the first of
    them that the module binds. *)
Definition candidates (table_name : string) : list string :=
  [Pydantic.to_pascal table_name; "t_" ++ table_name; table_name;
   PyStr.remove_char "_" table_name].

Fixpoint first_binding (ns : gmap string PyObject) (names : list string)
    : option PyObject :=
  match names with
  | [] => None
  | n :: rest =>
      match ns !! n with
      | Some v => Some v
      | None => first_binding ns rest
      end
  end.

Definition deferring : ModuleConfig := {| DEFER_GEN_REFRESH := true |}.
Definition regenerating : ModuleConfig := {| DEFER_GEN_REFRESH := false |}.

Definition billing_namespace : gmap string PyObject :=
  {[ "Base" := "<class 'Base'>";
     "UserProfile" := "<class 'UserProfile'>";
     "t_audit_log" := "Table('audit_log')";
     "user_profile" := "<function user_profile>" ]}.

(** A host on which everything works. *)
Definition plain_host : Host :=
  {| codegen_installed := true;
     get_session_fault := λ _ _, None;
     reflect := λ _ _ _, Return ["user_profile"; "audit_log"];
     generate := λ db sch _, Return ("# bindings of " ++ db ++ "." ++ sch);
     execute_text := λ _ _ reg, Return (billing_namespace, reg);
     str_attributes := ["title"; "lower"; "upper"; "strip"] |}.

(** The same host without the optional [codegen] module. *)
Definition host_without_codegen : Host :=
  {| codegen_installed := false;
     get_session_fault := get_session_fault plain_host;
     reflect := reflect plain_host;
     generate := generate plain_host;
     execute_text := execute_text plain_host;
     str_attributes := str_attributes plain_host |}.

(** A host on which a module's text cannot be executed while a base is
    registered for [("billing", "public")], and registers that base when
    it can. *)
Definition conflicting_host : Host :=
  {| codegen_installed := true;
     get_session_fault := λ _ _, None;
     reflect := reflect plain_host;
     generate := generate plain_host;
     execute_text := λ _ _ reg,
       if bool_decide (("billing", "public") ∈ reg)
       then Raise (Exception
         "Table 'user_profile' is already defined for this MetaData instance.")
       else Return (billing_namespace, ("billing", "public") :: reg);
     str_attributes := str_attributes plain_host |}.

(** A host whose database cannot be reached when the schema is to be
    reflected. *)
Definition host_database_down : Host :=
  {| codegen_installed := true;
     get_session_fault := λ _ _, None;
     reflect := λ _ _ _,
       Raise (OperationalError "connection to server failed");
     generate := generate plain_host;
     execute_text := execute_text plain_host;
     str_attributes := str_attributes plain_host |}.

(** The process right after [_DeclarativeUtilsFactory()] on an empty
    declaratives directory. *)
Definition boot : World :=
  {| dirs := ∅; files := ∅; sys_modules := ∅; base_classes := [];
     declarative_utils := ∅; next_object := 0; trace := [] |}.

(** A process that finds the artifact of ["acme"], ["billing"],
    ["public"] on disk. *)
Definition with_artifact : World :=
  {| dirs := {["acme"]};
     files := {[ "acme/__init__.py" := "";
                 "acme/async_billing_public.py" := "# shipped bindings" ]};
     sys_modules := ∅; base_classes := [];
     declarative_utils := ∅; next_object := 0; trace := [] |}.

(** The same, with a base already registered for the pair by an earlier
    generation. *)
Definition with_stale_base : World :=
  {| dirs := dirs with_artifact; files := files with_artifact;
     sys_modules := ∅; base_classes := [("billing", "public")];
     declarative_utils := ∅; next_object := 0; trace := [] |}.

(** The world after a first lookup of the artifact's triple with
    deferral on. *)
Definition after_first_lookup : World :=
  (get_declarative_utils deferring plain_host "billing" "acme" "public"
     false with_artifact).2.

Definition pending_billing : DeclarativeUtils :=
  __init__ "billing" "acme" "public" false.

Definition loaded_billing : DeclarativeUtils :=
  {| raw_database := "billing"; tenant_id := "acme"; schema := "public";
     raw_db := false;
     declarative_module :=
       Loaded {| module_id := 0; module_name := "acme.async_billing_public";
                 module_text := "# shipped bindings";
                 namespace := billing_namespace |} |}.

(** A host on which the text of a module never executes: each attempt
    meets a table that is already defined. *)
Definition host_conflict_persists : Host :=
  {| codegen_installed := true;
     get_session_fault := λ _ _, None;
     reflect := reflect plain_host;
     generate := generate plain_host;
     execute_text := λ _ _ _,
       Raise (Exception
         "Table 'user_profile' is already defined for this MetaData instance.");
     str_attributes := str_attributes plain_host |}.

(** The object of the artifact's triple when only the logical path has
    been assigned to it. *)
Definition path_billing : DeclarativeUtils :=
  {| raw_database := "billing"; tenant_id := "acme"; schema := "public";
     raw_db := false;
     declarative_module := ModulePath "acme.async_billing_public" |}.

(** The world after a first lookup of the artifact's triple on that
    host, with deferral on. *)
Definition after_conflicting_lookup : World :=
  (get_declarative_utils deferring host_conflict_persists "billing" "acme"
     "public" false with_artifact).2.

End Situations.

(** ** The rest of [SQLSessionManager] *)

Module SessionExtensions.
Import SessionManagement Observations.

(** [__del__]: the engines on which [dispose()] is called, one entry per
    cached engine (the order of the calls is not modelled). *)
Definition __del__ (mgr : SQLSessionManager) : list Engine :=
  (map_to_list (_db_engines mgr)).*2.

Inductive query_class : Type := Query | RetryingQuery.

(** The ORM session built by [get_session]: the engine it is bound to and
    the two constructor arguments that differ between the branches
    ([expire_on_commit] is [True] unless it is passed). *)
Record OrmSession : Type := {
  session_bind : Engine;
  query_cls : query_class;
  expire_on_commit : bool;
}.

(** [get_session]; [pg_retry_query] is [PostgresConfig.PG_RETRY_QUERY]. *)
Definition get_session (cfg : PostgresConfig) (pg_retry_query : bool)
    (srv : Server) (database : string) (tenant_id : option string)
    (retrying : bool) : M State OrmSession :=
  if pg_retry_query || retrying
  then
    engine ← _get_engine cfg srv database tenant_id;
    mret {| session_bind := engine; query_cls := RetryingQuery;
            expire_on_commit := true |}
  else
    engine ← _get_engine cfg srv database tenant_id;
    mret {| session_bind := engine; query_cls := Query;
            expire_on_commit := false |}.

(** The generator [get_db] made by [get_db_factory(database, retrying)]:
    the one session it yields for a tenant cookie. *)
Definition get_db_factory (cfg : PostgresConfig) (pg_retry_query : bool)
    (srv : Server) (database : string) (retrying : bool)
    (tenant_id : string) : M State OrmSession :=
  get_session cfg pg_retry_query srv database (Some tenant_id) retrying.

(** Calls of [_get_engine] one after the other, whatever they return or
    raise. *)
Fixpoint get_engines (cfg : PostgresConfig) (srv : Server)
    (calls : list (string * option string)) (st : State) : State :=
  match calls with
  | [] => st
  | (database, tenant_id) :: rest =>
      get_engines cfg srv rest (_get_engine cfg srv database tenant_id st).2
  end.

(** The statements an auto action hands to the session, and those of a
    list of actions in their order. *)
Definition statements_of (r : AutoResult) : list Statement :=
  match r with
  | Single s => [s]
  | Sequence l => l
  end.

Definition auto_statements (tenant_id : option string)
    (fs : list AutoAction) : list Statement :=
  fs ≫= (λ f, match auto_call f tenant_id with
              | Return r => statements_of r
              | Raise _ => []
              end).

Definition manual_statements (tenant_id : option string)
    (fs : list ManualAction) : list Statement :=
  fs ≫= (λ f, (manual_call f tenant_id).1).

(** What is durable or waiting in the session for the engine's database. *)
Definition effective (w : World) (sess : Session) : list (string * Statement) :=
  (persisted w ++ ((λ s, (engine_database (bind sess), s)) <$> pending sess))%list.

(** The engine a cache miss creates for [qualified_db_name] when [id] is
    the next free object identity, and the manager after the engine was
    (or, in anti-persistent mode, was not) entered in the cache. *)
Definition new_engine (cfg : PostgresConfig) (qualified_db_name : string)
    (id : nat) : Engine :=
  {| engine_id := id; engine_database := qualified_db_name;
     engine_poolclass := if PG_ENABLE_POOLING cfg then QueuePool else NullPool;
     engine_isolation := AUTOCOMMIT |}.

Definition remember (cfg : PostgresConfig) (key : string) (e : Engine)
    (mgr : SQLSessionManager) : SQLSessionManager :=
  if PG_ANTI_PERSISTENT cfg then mgr
  else {| _db_engines := <[key := e]> (_db_engines mgr);
          database_uri := database_uri mgr;
          _postcreate_auto := _postcreate_auto mgr;
          _postcreate_manual := _postcreate_manual mgr |}.

Definition after_create (w : World) : World :=
  {| next_object := S (next_object w); databases := databases w;
     persisted := persisted w; log := log w |}.

(** The server accepts every statement on [db], and the actions neither
    raise nor fail for tenant [t]. *)
Definition accepting (srv : Server) (db : string) : Prop :=
  ∀ s, rejects srv db s = None.

Definition well_behaved (t : option string) (autos : list AutoAction)
    (manuals : list ManualAction) : Prop :=
  Forall (λ f, ∃ r, auto_call f t = Return r) autos
  ∧ Forall (λ f, (manual_call f t).2 = None) manuals.

(** No pass through the bootstrap's [try] body was made. *)
Definition steady (w w' : World) : Prop :=
  attempts (log w') = attempts (log w).

(** On an [AUTOCOMMIT] engine nothing waits in the session. *)
Definition tidy (sess : Session) : Prop :=
  engine_isolation (bind sess) = AUTOCOMMIT -> pending sess = [].

(** The character [c] does not occur in [s]. *)
Fixpoint free_of (c : ascii) (s : string) : bool :=
  match s with
  | EmptyString => true
  | String a rest => negb (Ascii.eqb a c) && free_of c rest
  end.

(** Every exception the bootstrap can meet for [db] is an
    [OperationalError]. *)
Definition only_operational (srv : Server) (db : string) : Prop :=
  ∀ i ex, fault srv db i = Some ex -> ∃ msg, ex = OperationalError msg.

(** A server that is never reachable, with a transient message. *)
Definition unreachable_server : Server :=
  {| fault := λ _ _, Some (OperationalError "connection refused");
     dependencies_fault := λ _, None;
     rejects := λ _ _, None |}.

(** A server whose first attempt meets a programming error. *)
Definition broken_server : Server :=
  {| fault := λ _ i,
       if Nat.eqb i 0 then Some (Exception "permission denied to create database")
       else None;
     dependencies_fault := λ _, None;
     rejects := λ _ _, None |}.

End SessionExtensions.


(** ** The rest of [DeclarativeUtils] *)

Module DeclarativeExtensions.
Import DeclarativeUtils Situations SessionExtensions.

(** The tenant that [_prepare_declarative_file] asks a session for, and
    the database name it hands to the generator. *)
Definition session_tenant (u : DeclarativeUtils) : option string :=
  if raw_db u then None else Some (tenant_id u).

Definition generator_database (u : DeclarativeUtils) : string :=
  if raw_db u then raw_database u else tenant_id u ++ "__" ++ raw_database u.

(** On [host] the generation for [u] goes through: the generator can be
    imported, the session is there, reflection gives [meta] and the
    generator turns it into [text]. *)
Definition generates (host : Host) (u : DeclarativeUtils)
    (meta : Metadata) (text : string) : Prop :=
  codegen_installed host = true
  ∧ get_session_fault host (raw_database u) (session_tenant u) = None
  ∧ reflect host (raw_database u) (session_tenant u) (schema u) = Return meta
  ∧ generate host (generator_database u) (schema u) meta = Return text.

(** [get_declarative_base]: [None] for a falsy [declarative_module],
    else a proxy of its attribute [Base]. *)
Definition get_declarative_base (host : Host) (u : DeclarativeUtils)
    : outcome (option attribute) :=
  if truthy (declarative_module u) then
    match getattr host (declarative_module u) "Base" with
    | Some a => Return (Some a)
    | None => Raise (AttributeError "object has no attribute 'Base'")
    end
  else Return None.

(** The closure made by
    [get_schema_mandated_declarative_utils_factory(raw_database,
    session_manager, schema)]. *)
Definition get_schema_mandated_declarative_utils_factory
    (cfg : ModuleConfig) (host : Host) (raw_database schema : string)
    (tenant_id : string) : M World DeclarativeUtils :=
  get_declarative_utils cfg host raw_database tenant_id schema false.

(** Loaded modules, registry of bases, cache of objects and object
    counter are as they were. *)
Definition same_process (w w' : World) : Prop :=
  sys_modules w' = sys_modules w
  ∧ base_classes w' = base_classes w
  ∧ declarative_utils w' = declarative_utils w
  ∧ next_object w' = next_object w.

(** The test that lets [_prepare_declarative_file] return before its
    [try] block. *)
Definition deferred (cfg : ModuleConfig) (u : DeclarativeUtils)
    (refresh : bool) (w : World) : bool :=
  bool_decide (is_Some (files w !! declarative_file u))
  && DEFER_GEN_REFRESH cfg && negb refresh.

(** [refresh_module(non_refresh)] is asked for the operation that does
    not fit what [declarative_module] holds: an import of a module
    object, a reload of a path, or either of [None]. *)
Definition mismatched (v : declarative_module_value) (non_refresh : bool)
    : Prop :=
  match v with
  | Loaded _ => non_refresh = true
  | ModulePath _ => non_refresh = false
  | NoModule => True
  end.

(** The object [u] after [self.declarative_module = v]. *)
Definition assigned (u : DeclarativeUtils) (v : declarative_module_value)
    : DeclarativeUtils :=
  {| raw_database := raw_database u; tenant_id := tenant_id u;
     schema := schema u; raw_db := raw_db u; declarative_module := v |}.

(** On [host] the reflection for [u] fails with [e], an [Exception]
    other than an [ImportError]. *)
Definition reflection_fails (host : Host) (u : DeclarativeUtils) (e : exn)
    : Prop :=
  codegen_installed host = true
  ∧ get_session_fault host (raw_database u) (session_tenant u) = None
  ∧ reflect host (raw_database u) (session_tenant u) (schema u) = Raise e
  ∧ is_Exception e = true ∧ ∀ msg, e ≠ ImportError msg.

(** On [host] the reflection for [u] gives [meta], and the generator
    fails on it with [e], an [Exception] other than an [ImportError]. *)
Definition generator_fails (host : Host) (u : DeclarativeUtils)
    (meta : Metadata) (e : exn) : Prop :=
  codegen_installed host = true
  ∧ get_session_fault host (raw_database u) (session_tenant u) = None
  ∧ reflect host (raw_database u) (session_tenant u) (schema u) = Return meta
  ∧ generate host (generator_database u) (schema u) meta = Raise e
  ∧ is_Exception e = true ∧ ∀ msg, e ≠ ImportError msg.

(** The process after a first lookup of ["billing"], ["acme"],
    ["public"] made while the database was down. *)
Definition after_failed_lookup : World :=
  (get_declarative_utils regenerating host_database_down "billing" "acme"
     "public" false boot).2.

(** A host whose generator fails. *)
Definition host_generator_fails : Host :=
  {| codegen_installed := true;
     get_session_fault := λ _ _, None;
     reflect := reflect plain_host;
     generate := λ _ _ _, Raise (Exception "unsupported column type");
     execute_text := execute_text plain_host;
     str_attributes := str_attributes plain_host |}.

End DeclarativeExtensions.

(** * Properties *)

(** ** Stepping through monadic code *)

Lemma bind_Return {S A B} (m : M S A) (f : A -> M S B) st a st' :
  m st = (Return a, st') -> (m ≫= f) st = f a st'.
Proof. intros H. unfold mbind, M_bind. by rewrite H. Qed.

Lemma bind_Raise {S A B} (m : M S A) (f : A -> M S B) st e st' :
  m st = (Raise e, st') -> (m ≫= f) st = (Raise e, st').
Proof. intros H. unfold mbind, M_bind. by rewrite H. Qed.

(** A bind that returns went through both of its halves. *)
Lemma bind_inv_Return {S A B} (m : M S A) (f : A -> M S B) st b st2 :
  (m ≫= f) st = (Return b, st2) ->
  ∃ a st1, m st = (Return a, st1) ∧ f a st1 = (Return b, st2).
Proof.
  unfold mbind, M_bind. destruct (m st) as [[a|e] st1]; [eauto | done].
Qed.

(** A relation between the states before and after a call that holds
    whatever the call's outcome. *)
Section Steps.
Context {S : Type} (R : S -> S -> Prop).
Hypothesis R_refl : ∀ s, R s s.
Hypothesis R_trans : ∀ s1 s2 s3, R s1 s2 -> R s2 s3 -> R s1 s3.

Definition keeps {A} (m : M S A) : Prop :=
  ∀ s r s', m s = (r, s') -> R s s'.

Lemma keeps_ret {A} (a : A) : keeps (mret a).
Proof. intros s r s' [= <- <-]. apply R_refl. Qed.

Lemma keeps_raise {A} e : keeps (raise (A := A) e).
Proof. intros s r s' [= <- <-]. apply R_refl. Qed.

Lemma keeps_get : keeps get.
Proof. intros s r s' [= <- <-]. apply R_refl. Qed.

Lemma keeps_bind {A B} (m : M S A) (f : A -> M S B) :
  keeps m -> (∀ a, keeps (f a)) -> keeps (m ≫= f).
Proof.
  intros Hm Hf s r s'. unfold mbind, M_bind.
  destruct (m s) as [[a|e] s1] eqn:E.
  - intros H. eapply R_trans; [eapply Hm, E | eapply Hf, H].
  - intros [= <- <-]. eapply Hm, E.
Qed.

Lemma keeps_if {A} (b : bool) (m1 m2 : M S A) :
  keeps m1 -> keeps m2 -> keeps (if b then m1 else m2).
Proof. by destruct b. Qed.

Lemma keeps_modify (f : S -> S) : (∀ s, R s (f s)) -> keeps (modify f).
Proof. intros Hf s r s' [= <- <-]. apply Hf. Qed.

Lemma keeps_try_except {A} (body : M S A) (handler : exn -> M S A) :
  keeps body -> (∀ e, keeps (handler e)) ->
  keeps (DeclarativeUtils.try_except body handler).
Proof.
  intros Hb Hh s r s'. unfold DeclarativeUtils.try_except.
  destruct (body s) as [[a|e] s1] eqn:E.
  - intros [= <- <-]. eapply Hb, E.
  - destruct (is_Exception e).
    + intros H. eapply R_trans; [eapply Hb, E | eapply Hh, H].
    + intros [= <- <-]. eapply Hb, E.
Qed.
End Steps.

(** Sequencing with different relations for the two halves: [R1] for the
    first, [R2] for the second, [R3] for the whole. *)
Lemma keeps_bind_seq {S A B} (R1 R2 R3 : S -> S -> Prop)
    (m : M S A) (f : A -> M S B) :
  (∀ s1 s2, R1 s1 s2 -> R3 s1 s2) ->
  (∀ s1 s2 s3, R1 s1 s2 -> R2 s2 s3 -> R3 s1 s3) ->
  keeps R1 m -> (∀ a, keeps R2 (f a)) -> keeps R3 (m ≫= f).
Proof.
  intros Hsub Hseq Hm Hf s r s'. unfold mbind, M_bind.
  destruct (m s) as [[a|e] s1] eqn:E.
  - intros H. eapply Hseq; [eapply Hm, E | eapply Hf, H].
  - intros [= <- <-]. eapply Hsub, Hm, E.
Qed.

Lemma keeps_try_except_seq {S A} (R1 R2 R3 : S -> S -> Prop)
    (body : M S A) (handler : exn -> M S A) :
  (∀ s1 s2, R1 s1 s2 -> R3 s1 s2) ->
  (∀ s1 s2 s3, R1 s1 s2 -> R2 s2 s3 -> R3 s1 s3) ->
  keeps R1 body -> (∀ e, keeps R2 (handler e)) ->
  keeps R3 (DeclarativeUtils.try_except body handler).
Proof.
  intros Hsub Hseq Hb Hh s r s'. unfold DeclarativeUtils.try_except.
  destruct (body s) as [[a|e] s1] eqn:E.
  - intros [= <- <-]. eapply Hsub, Hb, E.
  - destruct (is_Exception e).
    + intros H. eapply Hseq; [eapply Hb, E | eapply Hh, H].
    + intros [= <- <-]. eapply Hsub, Hb, E.
Qed.

Module SessionFacts.
Import SessionManagement Observations.
#[local] Open Scope list_scope.

(** *** The bootstrap loop *)

Lemma attempts_app l1 l2 : attempts (l1 ++ l2) = attempts l1 + attempts l2.
Proof. unfold attempts. by rewrite List.filter_app, length_app. Qed.

Lemma retry_loop_refused e n : ∀ i w,
  ∃ w', retry_loop refusing_server e n i w = (Return tt, w')
        ∧ attempts (log w') = attempts (log w) + n
        ∧ last (log w') = (if n is 0 then last (log w)
                           else Some LogConnectionFailed).
Proof.
  induction n as [|n IH]; intros i w.
  - exists w. cbn. split_and!; [done | lia | done].
  - cbn [retry_loop].
    set (w1 := {| next_object := next_object w; databases := databases w;
                  persisted := persisted w;
                  log := (log w ++ [Probe (engine_database e) i])
                           ++ [LogConnectionFailed] |}).
    destruct (IH (S i) w1) as (w' & Hrun & Hatt & Hlast).
    exists w'. split_and!.
    + rewrite <- Hrun. reflexivity.
    + rewrite Hatt. unfold w1. cbn [log]. rewrite !attempts_app. cbn. lia.
    + destruct n; [|done]. rewrite Hlast. unfold w1. cbn [log].
      by rewrite last_snoc.
Qed.

(** C2.  [_ensure_engine_connection] against a server that answers every
    attempt with the login-failure message ("server login has been
    failing"): the loop does not stop at the first such failure.  It
    makes all [PG_MAX_RETRY] attempts and then returns normally, the
    failure being logged and nothing raised. *)
Theorem ensure_engine_connection_login_failure_uses_whole_budget
    (cfg : PostgresConfig) (e : Engine) (w : World) :
  ∃ w', _ensure_engine_connection cfg refusing_server e w = (Return tt, w')
        ∧ attempts (log w') = attempts (log w) + PG_MAX_RETRY cfg.
Proof.
  destruct (retry_loop_refused e (PG_MAX_RETRY cfg) 0 w) as (w' & H & Ha & _).
  exists w'. by split.
Qed.

(** The first pass that meets no exception ends the loop. *)
Lemma retry_loop_first_success srv e n i w :
  fault srv (engine_database e) i = None ->
  ∃ w', retry_loop srv e (S n) i w = (Return tt, w')
        ∧ attempts (log w') = attempts (log w) + 1.
Proof.
  intros Hok. cbn [retry_loop]. unfold attempt_connection.
  unfold mbind, M_bind, emit, modify. cbn. rewrite Hok. cbn.
  case_bool_decide; cbn; eexists; (split; [reflexivity|]); cbn;
    unfold attempts; rewrite !List.filter_app, !length_app; cbn; lia.
Qed.

(** A failure without the marker is retried: one more attempt is spent
    and the loop goes on with what is left of the budget. *)
Lemma retry_loop_transient srv e n i w msg :
  fault srv (engine_database e) i = Some (OperationalError msg) ->
  PyStr.contains "server login has been failing" msg = false ->
  retry_loop srv e (S n) i w =
  retry_loop srv e n (S i)
    {| next_object := next_object w; databases := databases w;
       persisted := persisted w;
       log := (log w ++ [Probe (engine_database e) i]) ++ [LogRetry i] |}.
Proof.
  intros Hf Hc. cbn [retry_loop]. unfold attempt_connection.
  unfold mbind, M_bind, emit, modify, raise. cbn. rewrite Hf. cbn.
  by rewrite Hc.
Qed.

(** With the marker the loop goes on just the same, only the log line
    differs. *)
Lemma retry_loop_login_failure srv e n i w msg :
  fault srv (engine_database e) i = Some (OperationalError msg) ->
  PyStr.contains "server login has been failing" msg = true ->
  retry_loop srv e (S n) i w =
  retry_loop srv e n (S i)
    {| next_object := next_object w; databases := databases w;
       persisted := persisted w;
       log := (log w ++ [Probe (engine_database e) i])
                ++ [LogConnectionFailed] |}.
Proof.
  intros Hf Hc. cbn [retry_loop]. unfold attempt_connection.
  unfold mbind, M_bind, emit, modify, raise. cbn. rewrite Hf. cbn.
  by rewrite Hc.
Qed.

(** *** Registration *)

Lemma registered_append_action {A} (func : A) store d db :
  registered (append_action func store d) db =
  registered store db ++ (if decide (d = db) then [func] else []).
Proof.
  unfold registered, append_action. destruct (decide (d = db)) as [->|Hne].
  - by rewrite lookup_insert_eq.
  - rewrite lookup_insert_ne by done. by rewrite app_nil_r.
Qed.

Lemma registered_foldl {A} (func : A) dbs : ∀ store db,
  registered (foldl (append_action func) store dbs) db =
  registered store db
    ++ replicate (length (filter (λ d, d = db) dbs)) func.
Proof.
  induction dbs as [|d dbs IH]; intros store db; cbn [foldl].
  - by rewrite app_nil_r.
  - rewrite IH, registered_append_action, filter_cons.
    destruct (decide (d = db)); cbn; by rewrite <- ?app_assoc, ?app_nil_r.
Qed.

Lemma decorator_appends {A} (raw_db : raw_db_arg) (func : A) store :
  ∃ store', decorator raw_db func store = (Return None, store')
    ∧ ∀ db, registered store' db =
            registered store db ++ replicate (mentions db raw_db) func.
Proof.
  destruct raw_db as [d|dbs]; eexists; (split; [reflexivity|]); intros db.
  - rewrite registered_append_action. unfold mentions. cbn [names_of].
    rewrite filter_cons, filter_nil. by destruct (decide (d = db)).
  - apply registered_foldl.
Qed.

(** C10.  The decorator handed out by [register_postcreate] and by
    [register_postcreate_manual] returns [None], and under every name the
    call mentions it puts the action behind the actions already
    registered there (once per mention); the other store and the engine
    cache stay as they were. *)
Theorem register_postcreate_appends_and_returns_None
    (raw_db : raw_db_arg) (fa : AutoAction) (fm : ManualAction)
    (mgr : SQLSessionManager) :
  (∃ mgr', register_postcreate raw_db fa mgr = (Return None, mgr')
     ∧ (∀ db, registered (_postcreate_auto mgr') db =
              registered (_postcreate_auto mgr) db
                ++ replicate (mentions db raw_db) fa)
     ∧ _postcreate_manual mgr' = _postcreate_manual mgr
     ∧ _db_engines mgr' = _db_engines mgr)
  ∧ (∃ mgr', register_postcreate_manual raw_db fm mgr = (Return None, mgr')
     ∧ (∀ db, registered (_postcreate_manual mgr') db =
              registered (_postcreate_manual mgr) db
                ++ replicate (mentions db raw_db) fm)
     ∧ _postcreate_auto mgr' = _postcreate_auto mgr
     ∧ _db_engines mgr' = _db_engines mgr).
Proof.
  split.
  - destruct (decorator_appends raw_db fa (_postcreate_auto mgr))
      as (store' & Hrun & Hreg).
    unfold register_postcreate, on_auto. rewrite Hrun.
    eexists. split; [reflexivity|]. by cbn.
  - destruct (decorator_appends raw_db fm (_postcreate_manual mgr))
      as (store' & Hrun & Hreg).
    unfold register_postcreate_manual, on_manual. rewrite Hrun.
    eexists. split; [reflexivity|]. by cbn.
Qed.

(** Two registrations under one name are kept in the order in which they
    were made. *)
Lemma registration_order (db : string) (f g : AutoAction) mgr :
  registered
    (_postcreate_auto
       (register_postcreate (Name db) g
          (register_postcreate (Name db) f mgr).2).2) db =
  registered (_postcreate_auto mgr) db ++ [f; g].
Proof.
  unfold register_postcreate, on_auto, decorator.
  unfold mbind, M_bind, modify, mret, M_ret.
  cbn -[append_action registered].
  rewrite !registered_append_action.
  rewrite !decide_True by done. by rewrite <- app_assoc.
Qed.

(** *** What the parts of [_get_engine] leave alone *)

Lemma quiet_refl w : quiet w w.
Proof. by split. Qed.

Lemma quiet_trans w1 w2 w3 : quiet w1 w2 -> quiet w2 w3 -> quiet w1 w3.
Proof. intros [? ?] [? ?]. split; congruence. Qed.

Lemma same_objects_trans w1 w2 w3 :
  same_objects w1 w2 -> same_objects w2 w3 -> same_objects w1 w3.
Proof. unfold same_objects. congruence. Qed.

#[local] Hint Resolve quiet_refl quiet_trans same_objects_trans : core.

Lemma hook_calls_snoc l ev :
  hook_calls (l ++ [ev]) = hook_calls l ++ option_list (hook_call ev).
Proof.
  unfold hook_calls. rewrite omap_app. cbn.
  by destruct (hook_call ev).
Qed.

Lemma quiet_emit ev : hook_call ev = None -> keeps quiet (emit ev).
Proof.
  intros Hev w r w' [= <- <-]. split; [done|]. cbn [log].
  by rewrite hook_calls_snoc, Hev, app_nil_r.
Qed.

Lemma quiet_persist db l : keeps quiet (persist db l).
Proof. by intros w r w' [= <- <-]. Qed.

Lemma quiet_add_database db : keeps quiet (add_database db).
Proof. by intros w r w' [= <- <-]. Qed.

Ltac quiet_step :=
  repeat first
    [ apply keeps_ret; auto
    | apply keeps_raise; auto
    | apply keeps_get; auto
    | apply quiet_persist
    | apply quiet_add_database
    | apply quiet_emit; reflexivity
    | apply keeps_bind; [eauto | | intros ?]
    | apply keeps_if ].

Lemma quiet_execute srv sess s : keeps quiet (execute srv sess s).
Proof.
  unfold execute. quiet_step.
  destruct (rejects _ _ _); [quiet_step|].
  destruct (engine_isolation _); quiet_step.
Qed.

Lemma quiet_execute_all srv l : ∀ sess, keeps quiet (execute_all srv sess l).
Proof.
  induction l as [|s l IH]; intros sess; cbn [execute_all].
  - quiet_step.
  - apply keeps_bind; [eauto | apply quiet_execute | auto].
Qed.

Lemma quiet_commit sess : keeps quiet (commit sess).
Proof. unfold commit. quiet_step. Qed.

Lemma quiet_attempt_connection srv e i :
  keeps quiet (attempt_connection srv e i).
Proof.
  unfold attempt_connection. quiet_step.
  destruct (fault _ _ _); quiet_step.
Qed.

Lemma quiet_retry_loop srv e n : ∀ i, keeps quiet (retry_loop srv e n i).
Proof.
  induction n as [|n IH]; intros i; cbn [retry_loop].
  - quiet_step.
  - intros w r w'.
    destruct (attempt_connection srv e i w) as [[[]|err] w1] eqn:E.
    + intros [= <- <-]. eapply quiet_attempt_connection, E.
    + pose proof (quiet_attempt_connection _ _ _ _ _ _ E) as H1.
      assert (∀ ev, hook_call ev = None ->
              keeps quiet (emit ev ;; retry_loop srv e n (S i))) as Hgo.
      { intros ev Hev. apply keeps_bind; [eauto | by apply quiet_emit | auto]. }
      destruct err; try (intros [= <- <-]; exact H1).
      destruct (negb _); intros H2; eapply quiet_trans; try exact H1;
        eapply Hgo; try exact H2; reflexivity.
Qed.

Lemma quiet_dependencies srv e :
  keeps quiet (create_default_psql_dependencies srv e).
Proof.
  unfold create_default_psql_dependencies. quiet_step.
  destruct (dependencies_fault _ _); quiet_step.
Qed.

(** *** The calls made by a run of the hooks that returns *)

Lemma execute_bind srv sess s w sess' w' :
  execute srv sess s w = (Return sess', w') -> bind sess' = bind sess.
Proof.
  unfold execute. intros H.
  apply bind_inv_Return in H as (_ & w1 & _ & H).
  destruct (rejects _ _ _); [done|].
  destruct (engine_isolation _).
  - apply bind_inv_Return in H as (_ & w2 & _ & H). by injection H as <- _.
  - by injection H as <- _.
Qed.

Lemma execute_all_bind srv l : ∀ sess w sess' w',
  execute_all srv sess l w = (Return sess', w') -> bind sess' = bind sess.
Proof.
  induction l as [|s l IH]; intros sess w sess' w' H; cbn [execute_all] in H.
  - by injection H as <- _.
  - apply bind_inv_Return in H as (s1 & w1 & H1 & H2).
    apply IH in H2. apply execute_bind in H1. congruence.
Qed.

Lemma run_auto_Return srv t sess f w sess' w' :
  run_auto srv t sess f w = (Return sess', w') ->
  bind sess' = bind sess
  ∧ same_objects w w'
  ∧ hook_calls (log w') =
    hook_calls (log w) ++ [(engine_id (bind sess), Auto, auto_name f, t)].
Proof.
  unfold run_auto. intros H.
  apply bind_inv_Return in H as ([] & w1 & H1 & H).
  injection H1 as <-.
  destruct (auto_call f t) as [[s|l]|err]; [| |done].
  - pose proof (quiet_execute _ _ _ _ _ _ H) as [Ho Hc].
    apply execute_bind in H. split_and!; [done|exact Ho|].
    rewrite Hc. cbn [log]. by rewrite hook_calls_snoc.
  - pose proof (quiet_execute_all _ _ _ _ _ _ H) as [Ho Hc].
    apply execute_all_bind in H. split_and!; [done|exact Ho|].
    rewrite Hc. cbn [log]. by rewrite hook_calls_snoc.
Qed.

Lemma run_autos_Return srv t fs : ∀ sess w sess' w',
  run_autos srv t sess fs w = (Return sess', w') ->
  bind sess' = bind sess
  ∧ same_objects w w'
  ∧ hook_calls (log w') =
    hook_calls (log w)
      ++ ((λ f, (engine_id (bind sess), Auto, auto_name f, t)) <$> fs).
Proof.
  induction fs as [|f fs IH]; intros sess w sess' w' H; cbn [run_autos] in H.
  - injection H as <- <-. by rewrite app_nil_r.
  - apply bind_inv_Return in H as (s1 & w1 & H1 & H2).
    apply run_auto_Return in H1 as (Hb1 & Ho1 & Hc1).
    apply IH in H2 as (Hb2 & Ho2 & Hc2).
    split_and!; [congruence | eauto |].
    rewrite Hc2, Hc1, Hb1, <- app_assoc. reflexivity.
Qed.

Lemma run_manual_Return srv t sess f w sess' w' :
  run_manual srv t sess f w = (Return sess', w') ->
  bind sess' = bind sess
  ∧ same_objects w w'
  ∧ hook_calls (log w') =
    hook_calls (log w) ++ [(engine_id (bind sess), Manual, manual_name f, t)].
Proof.
  unfold run_manual. intros H.
  apply bind_inv_Return in H as ([] & w1 & H1 & H).
  injection H1 as <-.
  apply bind_inv_Return in H as (s1 & w2 & H2 & H).
  destruct (manual_call f t).2; [done|]. injection H as <- <-.
  pose proof (quiet_execute_all _ _ _ _ _ _ H2) as [Ho Hc].
  apply execute_all_bind in H2. split_and!; [done|exact Ho|].
  rewrite Hc. cbn [log]. by rewrite hook_calls_snoc.
Qed.

Lemma run_manuals_Return srv t fs : ∀ sess w sess' w',
  run_manuals srv t sess fs w = (Return sess', w') ->
  bind sess' = bind sess
  ∧ same_objects w w'
  ∧ hook_calls (log w') =
    hook_calls (log w)
      ++ ((λ f, (engine_id (bind sess), Manual, manual_name f, t)) <$> fs).
Proof.
  induction fs as [|f fs IH]; intros sess w sess' w' H;
    cbn [run_manuals] in H.
  - injection H as <- <-. by rewrite app_nil_r.
  - apply bind_inv_Return in H as (s1 & w1 & H1 & H2).
    apply run_manual_Return in H1 as (Hb1 & Ho1 & Hc1).
    apply IH in H2 as (Hb2 & Ho2 & Hc2).
    split_and!; [congruence | eauto |].
    rewrite Hc2, Hc1, Hb1, <- app_assoc. reflexivity.
Qed.

Lemma run_postcreate_Return srv mgr e raw_db t w w' :
  run_postcreate srv mgr e raw_db t w = (Return tt, w') ->
  same_objects w w'
  ∧ hook_calls (log w') = hook_calls (log w) ++ hooks_due mgr e raw_db t.
Proof.
  unfold run_postcreate. intros H.
  apply bind_inv_Return in H as (s2 & w2 & H1 & H).
  apply bind_inv_Return in H1 as (s1 & w1 & H0 & H1).
  apply run_autos_Return in H0 as (Hb0 & Ho0 & Hc0).
  pose proof (quiet_commit _ _ _ _ H1) as [Ho1 Hc1].
  assert (bind s2 = e) as Hb2.
  { unfold commit in H1.
    apply bind_inv_Return in H1 as (? & ? & _ & H1).
    apply bind_inv_Return in H1 as (? & ? & _ & H1).
    injection H1 as <- _. cbn. by rewrite Hb0. }
  apply bind_inv_Return in H as (s3 & w3 & H2 & H).
  apply run_manuals_Return in H2 as (Hb3 & Ho3 & Hc3).
  apply bind_inv_Return in H as (s4 & w4 & H3 & H).
  pose proof (quiet_commit _ _ _ _ H3) as [Ho4 Hc4].
  pose proof (quiet_emit (Close (bind s4)) eq_refl _ _ _ H) as [Ho5 Hc5].
  split.
  - unfold same_objects in *. congruence.
  - rewrite Hc5, Hc4, Hc3, Hc1, Hc0, Hb2. cbn [new_session bind].
    unfold hooks_due, registered. by rewrite <- app_assoc.
Qed.

(** *** [_get_engine] *)

Lemma lift_inv {A} (m : M World A) st r st1 :
  lift m st = (r, st1) ->
  ∃ w1, m (world st) = (r, w1) ∧ st1 = {| self := self st; world := w1 |}.
Proof.
  unfold lift. destruct (m (world st)) as [r0 w1]. intros [= <- <-]. eauto.
Qed.

Lemma get_engine_hit cfg srv db t st e :
  _db_engines (self st) !! _get_fully_qualified_db db t = Some e ->
  _get_engine cfg srv db t st = (Return e, st).
Proof.
  intros H. unfold _get_engine, mbind, M_bind, get. by rewrite H.
Qed.

Lemma hooks_due_stores mgr mgr' e db t :
  _postcreate_auto mgr' = _postcreate_auto mgr ->
  _postcreate_manual mgr' = _postcreate_manual mgr ->
  hooks_due mgr' e db t = hooks_due mgr e db t.
Proof. unfold hooks_due. by intros -> ->. Qed.

(** A call that has to create the pool and returns it. *)
Lemma get_engine_miss cfg srv db t st e st1 :
  _db_engines (self st) !! _get_fully_qualified_db db t = None ->
  _get_engine cfg srv db t st = (Return e, st1) ->
  engine_id e = next_object (world st)
  ∧ engine_database e = _get_fully_qualified_db db t
  ∧ engine_isolation e = AUTOCOMMIT
  ∧ next_object (world st1) = S (next_object (world st))
  ∧ _db_engines (self st1) =
      (if PG_ANTI_PERSISTENT cfg then _db_engines (self st)
       else <[_get_fully_qualified_db db t := e]> (_db_engines (self st)))
  ∧ _postcreate_auto (self st1) = _postcreate_auto (self st)
  ∧ _postcreate_manual (self st1) = _postcreate_manual (self st)
  ∧ hook_calls (log (world st1)) =
      hook_calls (log (world st)) ++ hooks_due (self st) e db t.
Proof.
  intros Hmiss H. unfold _get_engine in H.
  apply bind_inv_Return in H as (st0 & ? & [= <- <-] & H).
  rewrite Hmiss in H.
  apply bind_inv_Return in H as (e0 & sta & Ha & H).
  apply lift_inv in Ha as (wa & Ha & ->).
  injection Ha as <- <-.
  apply bind_inv_Return in H as ([] & stb & Hb & H).
  apply lift_inv in Hb as (wb & Hb & ->).
  apply quiet_retry_loop in Hb as [Hob Hcb].
  apply bind_inv_Return in H as ([] & stc & Hc & H).
  apply bind_inv_Return in H as ([] & std & Hd & H).
  apply lift_inv in Hd as (wd & Hd & ->).
  apply quiet_dependencies in Hd as [Hod Hcd].
  apply bind_inv_Return in H as (st' & ? & [= <- <-] & H).
  apply bind_inv_Return in H as ([] & ste & He & H).
  apply lift_inv in He as (we & He & ->).
  apply run_postcreate_Return in He as [Hoe Hce].
  injection H as <- <-. unfold same_objects in Hoe.
  destruct (PG_ANTI_PERSISTENT cfg); cbn in Hc; injection Hc as <-;
    cbn in *; split_and!; try done; try congruence;
    by rewrite Hce, Hcd, Hcb.
Qed.

(** C6.  Two calls of [get_engine] for one identity on one manager.
    With caching (anti-persistent mode off), once a call has returned a
    pool the next call returns that very pool and changes nothing.  In
    anti-persistent mode a call that finds no pool cached leaves the
    cache as it was, and the pool a second call returns is a different
    object, again not cached. *)
Theorem get_engine_twice (cfg : PostgresConfig) (srv : Server)
    (db : string) (t : option string) (st st1 : State) (e1 : Engine) :
  _get_engine cfg srv db t st = (Return e1, st1) ->
  (PG_ANTI_PERSISTENT cfg = false ->
     _get_engine cfg srv db t st1 = (Return e1, st1))
  ∧ (PG_ANTI_PERSISTENT cfg = true ->
     _db_engines (self st) !! _get_fully_qualified_db db t = None ->
     _db_engines (self st1) = _db_engines (self st)
     ∧ ∀ e2 st2, _get_engine cfg srv db t st1 = (Return e2, st2) ->
         engine_id e2 ≠ engine_id e1
         ∧ _db_engines (self st2) = _db_engines (self st)).
Proof.
  intros H. split.
  - intros Hcfg. apply get_engine_hit.
    destruct (_db_engines (self st) !! _get_fully_qualified_db db t)
      as [e|] eqn:E.
    + rewrite (get_engine_hit _ _ _ _ _ _ E) in H. by injection H as <- <-.
    + apply (get_engine_miss _ _ _ _ _ _ _ E) in H
        as (_ & _ & _ & _ & Hc & _).
      rewrite Hcfg in Hc. rewrite Hc. apply lookup_insert_eq.
  - intros Hcfg Hmiss.
    apply (get_engine_miss _ _ _ _ _ _ _ Hmiss) in H
      as (Hid & _ & _ & Hn & Hc & _).
    rewrite Hcfg in Hc. split; [done|]. intros e2 st2 H2.
    rewrite <- Hc in Hmiss.
    apply (get_engine_miss _ _ _ _ _ _ _ Hmiss) in H2
      as (Hid2 & _ & _ & _ & Hc2 & _).
    rewrite Hcfg in Hc2. split; [lia | congruence].
Qed.

Lemma get_engine_times_cached cfg srv db t st e n :
  _db_engines (self st) !! _get_fully_qualified_db db t = Some e ->
  get_engine_times cfg srv db t n st = (Return (replicate n e), st).
Proof.
  intros H. induction n as [|n IH]; [done|]. cbn [get_engine_times].
  erewrite bind_Return by by apply get_engine_hit.
  erewrite bind_Return by exact IH. done.
Qed.

(** C1, as the code has it.  A call of [get_engine] that has to create
    the pool of an identity and returns has called each action registered
    for the raw database once, with that pool and the tenant: the auto
    actions in registration order, then the manual ones.  With
    anti-persistent mode off, any number of later calls for the identity
    return that pool and leave the state, hence the record of hook calls,
    untouched.  With anti-persistent mode on, the pool is not cached and
    a later call that returns has called all of them once more. *)
Theorem hooks_run_once_per_created_pool (cfg : PostgresConfig)
    (srv : Server) (db : string) (t : option string) (st st1 : State)
    (e : Engine) :
  _db_engines (self st) !! _get_fully_qualified_db db t = None ->
  _get_engine cfg srv db t st = (Return e, st1) ->
  hook_calls (log (world st1)) =
    hook_calls (log (world st)) ++ hooks_due (self st) e db t
  ∧ (PG_ANTI_PERSISTENT cfg = false ->
     ∀ n, get_engine_times cfg srv db t n st1 = (Return (replicate n e), st1))
  ∧ (PG_ANTI_PERSISTENT cfg = true ->
     ∀ e2 st2, _get_engine cfg srv db t st1 = (Return e2, st2) ->
       hook_calls (log (world st2)) =
         hook_calls (log (world st1)) ++ hooks_due (self st) e2 db t).
Proof.
  intros Hmiss H.
  apply (get_engine_miss _ _ _ _ _ _ _ Hmiss) in H
    as (_ & _ & _ & _ & Hc & Ha & Hm & Hcalls).
  split_and!; [done| |].
  - intros Hcfg n. apply get_engine_times_cached.
    rewrite Hc, Hcfg. apply lookup_insert_eq.
  - intros Hcfg e2 st2 H2. rewrite Hcfg in Hc. rewrite <- Hc in Hmiss.
    apply (get_engine_miss _ _ _ _ _ _ _ Hmiss) in H2
      as (_ & _ & _ & _ & _ & _ & _ & Hcalls2).
    rewrite Hcalls2. f_equal. by apply hooks_due_stores.
Qed.

Lemma get_engine_twice_witness :
  (∃ e1 st1,
     _get_engine caching healthy_server "billing" (Some "acme")
       (fresh_state billing_manager) = (Return e1, st1)
     ∧ _get_engine caching healthy_server "billing" (Some "acme") st1
       = (Return e1, st1))
  ∧ (∃ e1 st1 e2 st2,
       _get_engine anti_persistent healthy_server "billing" (Some "acme")
         (fresh_state billing_manager) = (Return e1, st1)
       ∧ _get_engine anti_persistent healthy_server "billing" (Some "acme")
           st1 = (Return e2, st2)
       ∧ engine_id e2 ≠ engine_id e1
       ∧ _db_engines (self st2) = ∅).
Proof.
  split.
  - eexists _, _.
    assert (∀ A (x y : A) (P : Prop), x = y -> (x = y -> P) -> x = y ∧ P)
      as both by (intros; split; auto).
    apply both; [vm_compute; reflexivity|]. intros Hrun.
    exact (proj1 (get_engine_twice _ _ _ _ _ _ _ Hrun) eq_refl).
  - eexists _, _, _, _.
    assert (∀ A (x y : A) (P : Prop), x = y -> (x = y -> P) -> x = y ∧ P)
      as both by (intros; split; auto).
    apply both; [vm_compute; reflexivity|]. intros Hrun1.
    apply both; [vm_compute; reflexivity|]. intros Hrun2.
    exact (proj2 (proj2 (get_engine_twice _ _ _ _ _ _ _ Hrun1)
                    eq_refl eq_refl) _ _ Hrun2).
Defined.

Lemma hooks_run_once_per_created_pool_witness :
  (∃ e st1,
     _get_engine caching healthy_server "billing" (Some "acme")
       (fresh_state billing_manager) = (Return e, st1)
     ∧ hook_calls (log (world st1)) =
         [] ++ [(0, Auto, "create_extension", Some "acme");
                (0, Manual, "seed", Some "acme")]
     ∧ get_engine_times caching healthy_server "billing" (Some "acme") 5 st1
         = (Return (replicate 5 e), st1))
  ∧ (∃ e1 st1 e2 st2,
       _get_engine anti_persistent healthy_server "billing" (Some "acme")
         (fresh_state billing_manager) = (Return e1, st1)
       ∧ _get_engine anti_persistent healthy_server "billing" (Some "acme")
           st1 = (Return e2, st2)
       ∧ hook_calls (log (world st2)) =
           hook_calls (log (world st1))
             ++ hooks_due billing_manager e2 "billing" (Some "acme")).
Proof.
  assert (∀ A (x y : A) (P : Prop), x = y -> (x = y -> P) -> x = y ∧ P)
    as both by (intros; split; auto).
  split.
  - eexists _, _.
    apply both; [vm_compute; reflexivity|]. intros Hrun.
    pose proof (hooks_run_once_per_created_pool caching healthy_server
                  "billing" (Some "acme") (fresh_state billing_manager)
                  _ _ eq_refl Hrun)
      as (Hcalls & Hcached & _).
    split; [exact Hcalls | exact (Hcached eq_refl 5)].
  - eexists _, _, _, _.
    apply both; [vm_compute; reflexivity|]. intros Hrun1.
    apply both; [vm_compute; reflexivity|]. intros Hrun2.
    pose proof (hooks_run_once_per_created_pool anti_persistent
                  healthy_server "billing" (Some "acme")
                  (fresh_state billing_manager) _ _ eq_refl Hrun1)
      as (_ & _ & Hagain).
    exact (Hagain eq_refl _ _ Hrun2).
Defined.

(** C1 as stated fails in anti-persistent mode: two calls for one
    identity call the registered action twice. *)
Lemma hooks_run_again_when_anti_persistent :
  ∃ es st',
    get_engine_times anti_persistent healthy_server "billing" (Some "acme") 2
      (fresh_state billing_manager) = (Return es, st')
    ∧ executions "create_extension" (log (world st')) = 2
    ∧ executions "create_extension" (log (world st')) ≠ 1.
Proof. eexists _, _. split; [vm_compute; reflexivity|]. by vm_compute. Qed.

(** *** Atomicity of the auto hooks *)

Lemma execute_default srv sess s w r w' :
  engine_isolation (bind sess) = DRIVER_DEFAULT ->
  execute srv sess s w = (r, w') -> persisted w' = persisted w.
Proof.
  intros Hiso. unfold execute, mbind, M_bind, emit, modify, raise. cbn.
  destruct (rejects _ _ _); [by intros [= <- <-]|].
  rewrite Hiso. by intros [= <- <-].
Qed.

Lemma execute_all_default srv l : ∀ sess w r w',
  engine_isolation (bind sess) = DRIVER_DEFAULT ->
  execute_all srv sess l w = (r, w') -> persisted w' = persisted w.
Proof.
  induction l as [|s l IH]; intros sess w r w' Hiso; cbn [execute_all].
  - by intros [= <- <-].
  - unfold mbind, M_bind.
    destruct (execute srv sess s w) as [[s1|err] w1] eqn:E.
    + intros H. pose proof (execute_bind _ _ _ _ _ _ E) as Hb.
      apply (execute_default _ _ _ _ _ _ Hiso) in E.
      apply IH in H; congruence.
    + intros [= <- <-]. by apply (execute_default _ _ _ _ _ _ Hiso) in E.
Qed.

Lemma run_auto_default srv t sess f w r w' :
  engine_isolation (bind sess) = DRIVER_DEFAULT ->
  run_auto srv t sess f w = (r, w') -> persisted w' = persisted w.
Proof.
  intros Hiso. unfold run_auto.
  unfold mbind at 1, M_bind at 1. cbn [emit modify].
  destruct (auto_call f t) as [[s|l]|err]; intros H.
  - by apply (execute_default _ _ _ _ _ _ Hiso) in H.
  - by apply (execute_all_default _ _ _ _ _ _ Hiso) in H.
  - by injection H as <- <-.
Qed.

Lemma run_autos_default srv t fs : ∀ sess w r w',
  engine_isolation (bind sess) = DRIVER_DEFAULT ->
  run_autos srv t sess fs w = (r, w') -> persisted w' = persisted w.
Proof.
  induction fs as [|f fs IH]; intros sess w r w' Hiso; cbn [run_autos].
  - by intros [= <- <-].
  - unfold mbind, M_bind.
    destruct (run_auto srv t sess f w) as [[s1|err] w1] eqn:E.
    + intros H.
      pose proof (run_auto_Return _ _ _ _ _ _ _ E) as (Hb & _).
      apply (run_auto_default _ _ _ _ _ _ _ Hiso) in E.
      apply IH in H; congruence.
    + intros [= <- <-]. by apply (run_auto_default _ _ _ _ _ _ _ Hiso) in E.
Qed.

(** On an engine that is not in [AUTOCOMMIT] mode the [with
    session.begin()] block would be all-or-nothing: when an auto action
    fails, nothing of the block has been persisted. *)
Lemma run_postcreate_atomic_without_autocommit srv mgr e raw_db t w err w' :
  engine_isolation e = DRIVER_DEFAULT ->
  registered (_postcreate_manual mgr) raw_db = [] ->
  run_postcreate srv mgr e raw_db t w = (Raise err, w') ->
  persisted w' = persisted w.
Proof.
  intros Hiso Hman. unfold run_postcreate.
  unfold registered in Hman. rewrite Hman. cbn [run_manuals].
  unfold mbind at 1, M_bind at 1. unfold mbind at 1, M_bind at 1.
  destruct (run_autos _ _ _ _ w) as [[s1|err1] w1] eqn:E.
  - intros H. exfalso. revert H.
    unfold commit, mbind, M_bind, emit, persist, modify, mret, M_ret.
    by cbn.
  - intros [= <- <-]. by apply run_autos_default in E.
Qed.

(** C3.  [_get_engine] builds its engines with
    [isolation_level="AUTOCOMMIT"], so the statements of the auto hooks
    are durable one by one.  Here the second registered action returns
    two statements of which the last is rejected: the call raises, and
    the statement of the first action and the first statement of the
    second one have been persisted all the same. *)
Theorem auto_hooks_are_not_atomic :
  ∃ err st',
    _get_engine caching (strict_server "CREATE TABEL line (id int)")
      "billing" (Some "acme") (fresh_state billing_manager2)
      = (Raise err, st')
    ∧ persisted (world st') =
        [("acme__billing", "CREATE EXTENSION IF NOT EXISTS pgcrypto");
         ("acme__billing", "CREATE TABLE invoice (id int)")].
Proof. eexists _, _. split; vm_compute; reflexivity. Qed.

End SessionFacts.

Module DeclarativeFacts.
Import DeclarativeUtils Situations.
#[local] Open Scope list_scope.

(** *** Name resolution *)

Example candidates_user_profile :
  candidates "user_profile" =
  ["UserProfile"; "t_user_profile"; "user_profile"; "userprofile"].
Proof. reflexivity. Qed.

(** C7.  On a loaded module [get_declarative_class] tries the
    Pascal-cased name, the name prefixed with [t_], the name itself and
    the name without underscores, in this order, and returns the first
    of them that the module binds; it returns [None], raising nothing,
    exactly when the module binds none of the four. *)
Theorem get_declarative_class_resolution_order (host : Host)
    (u : DeclarativeUtils) (m : PyModule) (table_name : string) :
  declarative_module u = Loaded m ->
  get_declarative_class host u table_name =
    ModuleAttribute <$> first_binding (namespace m) (candidates table_name)
  ∧ (get_declarative_class host u table_name = None
     ↔ Forall (λ n, namespace m !! n = None) (candidates table_name)).
Proof.
  intros Hm. unfold get_declarative_class, candidates. rewrite Hm.
  cbn [truthy getattr first_binding]. rewrite !Forall_cons, Forall_nil.
  destruct (namespace m !! Pydantic.to_pascal table_name) eqn:E1; cbn;
    [split; [done | intuition congruence]|].
  destruct (namespace m !! ("t_" ++ table_name)%string) eqn:E2; cbn;
    [split; [done | intuition congruence]|].
  destruct (namespace m !! table_name) eqn:E3; cbn;
    [split; [done | intuition congruence]|].
  destruct (namespace m !! PyStr.remove_char "_" table_name) eqn:E4; cbn;
    (split; [done | intuition congruence]).
Qed.

Lemma get_declarative_class_resolution_order_witness :
  get_declarative_class plain_host loaded_billing "user_profile"
    = Some (ModuleAttribute "<class 'UserProfile'>")
  ∧ get_declarative_class plain_host loaded_billing "audit_log"
    = Some (ModuleAttribute "Table('audit_log')")
  ∧ get_declarative_class plain_host loaded_billing "invoice" = None.
Proof.
  split_and!.
  - exact (proj1 (get_declarative_class_resolution_order plain_host
                    loaded_billing _ "user_profile" eq_refl)).
  - exact (proj1 (get_declarative_class_resolution_order plain_host
                    loaded_billing _ "audit_log" eq_refl)).
  - apply (get_declarative_class_resolution_order plain_host
             loaded_billing _ "invoice" eq_refl).
    by repeat constructor.
Defined.

(** Before the module is loaded the attribute lookups run on the [str]
    that holds the logical path. *)
Example get_declarative_class_on_path :
  get_declarative_class plain_host
    {| raw_database := "billing"; tenant_id := "acme"; schema := "public";
       raw_db := false;
       declarative_module := ModulePath "acme.async_billing_public" |}
    "title"
  = Some (StrAttribute "title").
Proof. reflexivity. Qed.

(** *** What the calls leave alone *)

Lemma grows_refl w : grows w w.
Proof. split; [done|]. exists []. by rewrite app_nil_r. Qed.

Lemma grows_trans w1 w2 w3 : grows w1 w2 -> grows w2 w3 -> grows w1 w3.
Proof.
  intros [Hn1 (evs1 & Ht1 & Hf1)] [Hn2 (evs2 & Ht2 & Hf2)].
  split; [lia|]. exists (evs1 ++ evs2).
  rewrite Ht2, Ht1, app_assoc. split; [done|]. by apply Forall_app.
Qed.

Lemma same_modules_trans w1 w2 w3 :
  same_modules w1 w2 -> same_modules w2 w3 -> same_modules w1 w3.
Proof. unfold same_modules. congruence. Qed.

Lemma untouched_refl f w : untouched f w w.
Proof. done. Qed.

Lemma untouched_trans f w1 w2 w3 :
  untouched f w1 w2 -> untouched f w2 w3 -> untouched f w1 w3.
Proof. intros (?&?&?) (?&?&?). split_and!; congruence. Qed.

#[local] Hint Resolve grows_refl grows_trans same_modules_trans
  untouched_refl untouched_trans : core.
#[local] Hint Extern 0 (same_modules _ _) => reflexivity : core.

Lemma grows_emit ev : is_reload ev = false -> keeps grows (emit ev).
Proof.
  intros Hev w r w' [= <- <-]. split; [done|]. exists [ev].
  split; [done|]. by constructor.
Qed.

Lemma grows_fresh_object : keeps grows fresh_object.
Proof.
  intros w r w' [= <- <-]. split; [cbn; lia|]. exists [].
  cbn. by rewrite app_nil_r.
Qed.

Lemma same_modules_emit ev : keeps same_modules (emit ev).
Proof. by intros w r w' [= <- <-]. Qed.

Lemma reflections_snoc l ev :
  reflections (l ++ [ev]) = reflections l + (if is_reflect ev then 1 else 0).
Proof.
  unfold reflections. rewrite List.filter_app, length_app. cbn.
  by destruct (is_reflect ev).
Qed.

Lemma writes_of_snoc f l ev :
  writes_of f (l ++ [ev]) = writes_of f l + (if is_write_of f ev then 1 else 0).
Proof.
  unfold writes_of. rewrite List.filter_app, length_app. cbn.
  by destruct (is_write_of f ev).
Qed.

Lemma untouched_emit f ev :
  is_reflect ev = false -> is_write_of f ev = false ->
  keeps (untouched f) (emit ev).
Proof.
  intros H1 H2 w r w' [= <- <-]. split_and!; [done| |]; cbn [trace].
  - rewrite reflections_snoc, H1. lia.
  - rewrite writes_of_snoc, H2. lia.
Qed.

(** Steps that neither extend the trace nor create objects. *)
Lemma grows_silent (f : World -> World) :
  (∀ w, next_object (f w) = next_object w) ->
  (∀ w, trace (f w) = trace w) ->
  keeps grows (modify f).
Proof.
  intros Hn Ht. apply keeps_modify. intros w. split; [by rewrite Hn|].
  exists []. by rewrite Ht, app_nil_r.
Qed.

Ltac grows_step :=
  repeat first
    [ apply keeps_ret; auto
    | apply keeps_raise; auto
    | apply keeps_get; auto
    | apply grows_fresh_object
    | apply grows_emit; reflexivity
    | apply grows_silent; intros ?; reflexivity
    | apply keeps_bind; [eauto | | intros ?]
    | apply keeps_if
    | progress unfold mkdir, write_file, set_sys_module, set_base_classes,
        store_util, of_fault, of_outcome, run_text ].

Lemma grows_of_outcome {A} (r : outcome A) : keeps grows (of_outcome r).
Proof. intros w r' w' [= <- <-]. auto. Qed.

Lemma grows_run_text host name text : keeps grows (run_text host name text).
Proof.
  unfold run_text. apply keeps_bind; [eauto | apply keeps_get; auto |].
  intros w. apply keeps_bind; [eauto | apply grows_of_outcome |].
  intros [ns bases]. grows_step.
Qed.

Lemma grows_import_module host name : keeps grows (import_module host name).
Proof.
  unfold import_module. grows_step.
  destruct (sys_modules _ !! name); [grows_step|].
  destruct (files _ !! _); [|grows_step].
  apply keeps_bind; [eauto | apply grows_fresh_object |]. intros id.
  apply keeps_bind; [eauto | apply grows_run_text |]. intros ns.
  grows_step.
Qed.

Lemma grows_remove_base_class db sch :
  keeps grows (remove_base_class db sch).
Proof. unfold remove_base_class. grows_step. Qed.

Lemma grows_ensure_tenant_package u : keeps grows (ensure_tenant_package u).
Proof. unfold ensure_tenant_package. grows_step. Qed.

Lemma grows_generate_declarative_file host u :
  keeps grows (generate_declarative_file host u).
Proof.
  unfold generate_declarative_file. grows_step.
  - destruct (get_session_fault _ _ _); grows_step.
  - apply grows_of_outcome.
  - apply grows_of_outcome.
Qed.

Lemma grows_prepare cfg host u refresh :
  keeps grows (_prepare_declarative_file cfg host u refresh).
Proof.
  unfold _prepare_declarative_file.
  apply keeps_bind; [eauto | apply grows_ensure_tenant_package |].
  intros []. apply keeps_bind; [eauto | apply keeps_get; auto |]. intros w0.
  destruct (_ && _ && _); [grows_step|].
  intros w r w'.
  destruct (generate_declarative_file host u w) as [[[]|e] w1] eqn:E.
  - intros [= <- <-]. eapply grows_generate_declarative_file, E.
  - pose proof (grows_generate_declarative_file _ _ _ _ _ E) as H1.
    assert (keeps grows (emit (LogError "Error creating declarative file")
                         ;; mret PyFalse)) as Hlog by grows_step.
    destruct e; cbn [is_Exception];
      first [ intros [= <- <-]; exact H1
            | intros H2; eapply grows_trans; [exact H1 | eapply Hlog, H2] ].
Qed.

(** *** The object and its module *)

Lemma same_object_refl u : same_object u u.
Proof. done. Qed.

Lemma same_object_trans u1 u2 u3 :
  same_object u1 u2 -> same_object u2 u3 -> same_object u1 u3.
Proof. intros (?&?&?&?) (?&?&?&?). split_and!; congruence. Qed.

Lemma advances_refl st : advances st st.
Proof. split; [apply same_object_refl | apply grows_refl]. Qed.

Lemma advances_trans st1 st2 st3 :
  advances st1 st2 -> advances st2 st3 -> advances st1 st3.
Proof.
  intros [? ?] [? ?]. split; [by eapply same_object_trans | by eapply grows_trans].
Qed.

#[local] Hint Resolve advances_refl advances_trans : core.

Lemma lift_world_inv {A} (m : M World A) st r st1 :
  lift m st = (r, st1) ->
  ∃ w1, m (world st) = (r, w1) ∧ st1 = {| self := self st; world := w1 |}.
Proof.
  unfold lift. destruct (m (world st)) as [r0 w1]. intros [= <- <-]. eauto.
Qed.

Lemma advances_lift {A} (m : M World A) :
  keeps grows m -> keeps advances (lift m).
Proof.
  intros Hm st r st' H. apply lift_world_inv in H as (w1 & H & ->).
  split; [apply same_object_refl | eapply Hm, H].
Qed.

Lemma advances_set v : keeps advances (set_declarative_module v).
Proof. intros st r st' [= <- <-]. split; [done | apply grows_refl]. Qed.

Lemma advances_get_self : keeps advances get_self.
Proof. intros st r st' [= <- <-]. auto. Qed.

Lemma advances_weakref_proxy v : keeps advances (weakref_proxy v).
Proof. destruct v; intros st r st' [= <- <-]; auto. Qed.

Lemma advances_log_import_error : keeps advances log_import_error.
Proof.
  unfold log_import_error. apply keeps_bind; [eauto | | intros ?].
  - apply advances_lift, grows_emit. reflexivity.
  - apply keeps_ret. auto.
Qed.

Lemma advances_emergency_exit {A} : keeps advances (emergency_exit (A := A)).
Proof.
  unfold emergency_exit. apply keeps_bind; [eauto | | intros ?].
  - apply advances_lift, grows_emit. reflexivity.
  - apply keeps_raise. auto.
Qed.

(** The refresh made on a conflict ([non_refresh=True]). *)
Lemma advances_refresh_module cfg host :
  keeps advances (refresh_module cfg host true).
Proof.
  unfold refresh_module.
  apply keeps_bind; [eauto | apply advances_get_self | intros u].
  apply keeps_bind; [eauto | | intros ?].
  { apply advances_lift, grows_remove_base_class. }
  apply keeps_bind; [eauto | | intros ?].
  { apply advances_lift, grows_prepare. }
  apply keeps_bind; [eauto | apply advances_get_self | intros u'].
  apply keeps_bind; [eauto | | intros ?; apply advances_set].
  apply advances_lift. unfold import_module_of.
  destruct (declarative_module u'); first [apply grows_import_module
                                          | apply keeps_raise; auto].
Qed.

Lemma advances_load_declarative_module host p :
  keeps advances (load_declarative_module host p).
Proof.
  unfold load_declarative_module.
  apply keeps_bind; [eauto | apply advances_set | intros ?].
  apply keeps_bind; [eauto | | intros m].
  { apply advances_lift, grows_import_module. }
  apply keeps_bind; [eauto | apply advances_set | intros ?].
  apply keeps_ret. auto.
Qed.

Lemma advances_on_load_error cfg host e :
  keeps advances (on_load_error cfg host e).
Proof.
  unfold on_load_error.
  destruct (PyStr.contains "No module named" _);
    [apply advances_emergency_exit|].
  destruct (PyStr.contains "is already defined" _);
    [|apply advances_log_import_error].
  apply keeps_try_except;
    [eauto | | intros ?; apply advances_log_import_error].
  apply keeps_bind; [eauto | apply advances_refresh_module | intros ?].
  apply keeps_bind; [eauto | apply advances_get_self | intros ?].
  apply advances_weakref_proxy.
Qed.

Lemma advances_get_declarative_module cfg host :
  keeps advances (_get_declarative_module cfg host).
Proof.
  unfold _get_declarative_module.
  apply keeps_bind; [eauto | apply advances_get_self | intros u].
  apply keeps_bind; [eauto | | intros [p|]].
  { apply advances_lift, grows_prepare. }
  2: { apply keeps_ret. auto. }
  apply keeps_try_except; [eauto | | intros e].
  - apply advances_load_declarative_module.
  - apply advances_on_load_error.
Qed.

Lemma advances_pre_check cfg host : keeps advances (_pre_check cfg host).
Proof.
  unfold _pre_check.
  apply keeps_bind; [eauto | apply advances_get_self | intros u].
  destruct (declarative_module u); try (apply keeps_ret; auto);
    (apply keeps_bind;
     [eauto | apply advances_get_declarative_module
     | intros ?; apply keeps_ret; auto]).
Qed.

(** *** The cache of [get_declarative_utils] *)

Lemma get_declarative_utils_miss cfg host db t sch rd w u w1 :
  declarative_utils w !! cache_key db t sch = None ->
  get_declarative_utils cfg host db t sch rd w = (Return u, w1) ->
  same_object (__init__ db t sch rd) u
  ∧ declarative_utils w1 !! cache_key db t sch = Some u.
Proof.
  intros Hmiss. unfold get_declarative_utils.
  unfold mbind at 1, M_bind at 1. cbn [get]. rewrite Hmiss.
  intros H. apply bind_inv_Return in H as (u0 & w0 & Hnew & H).
  apply bind_inv_Return in H as ([] & w2 & Hst & H).
  injection H as <- <-. injection Hst as <-. cbn [declarative_utils].
  split; [|apply lookup_insert_eq].
  unfold __new__ in Hnew.
  destruct (_get_declarative_module _ _ _) as [[r|e] st] eqn:E; [|done].
  injection Hnew as <- <-.
  by apply advances_get_declarative_module in E as [Hobj _].
Qed.

Lemma get_declarative_utils_hit cfg host db t sch rd w u0 u w1 :
  declarative_utils w !! cache_key db t sch = Some u0 ->
  get_declarative_utils cfg host db t sch rd w = (Return u, w1) ->
  same_object u0 u.
Proof.
  intros Hhit. unfold get_declarative_utils.
  unfold mbind at 1, M_bind at 1. cbn [get]. rewrite Hhit.
  unfold on_cached.
  destruct (_pre_check _ _ _) as [[r|e] st] eqn:E; [|done].
  cbn. intros [= <- <-].
  by apply advances_pre_check in E as [Hobj _].
Qed.

(** C9.  The cache key joins database, tenant and schema with single
    underscores, so the triples [("a", "b_c", "s")] and
    [("a_b", "c", "s")] share the key ["a_b_c_s"]: once a lookup for the
    first has cached its object, every lookup for the second that
    returns hands out an object made for database ["a"] and tenant
    ["b_c"]. *)
Theorem cache_key_collision (cfg : ModuleConfig) (host : Host)
    (rd rd' : bool) (w w1 : World) (u : DeclarativeUtils) :
  declarative_utils w !! cache_key "a" "b_c" "s" = None ->
  get_declarative_utils cfg host "a" "b_c" "s" rd w = (Return u, w1) ->
  cache_key "a" "b_c" "s" = cache_key "a_b" "c" "s"
  ∧ ("a", "b_c", "s") ≠ ("a_b", "c", "s")
  ∧ raw_database u = "a" ∧ tenant_id u = "b_c"
  ∧ ∀ u' w2,
      get_declarative_utils cfg host "a_b" "c" "s" rd' w1 = (Return u', w2) ->
      raw_database u' = "a" ∧ tenant_id u' = "b_c".
Proof.
  intros Hmiss H1.
  apply (get_declarative_utils_miss _ _ _ _ _ _ _ _ _ Hmiss) in H1
    as [(Hdb & Ht & _) Hcached].
  cbn in Hdb, Ht.
  split_and!; [done | done | done | done |].
  intros u' w2 H2.
  change (cache_key "a" "b_c" "s") with (cache_key "a_b" "c" "s") in Hcached.
  apply (get_declarative_utils_hit _ _ _ _ _ _ _ _ _ _ Hcached) in H2
    as (Hdb' & Ht' & _).
  split; congruence.
Qed.

Lemma cache_key_collision_witness :
  let first :=
    get_declarative_utils regenerating plain_host "a" "b_c" "s" false boot in
  ∃ u, first = (Return u, first.2)
    ∧ (get_declarative_utils regenerating plain_host "a_b" "c" "s" false
         first.2).1 = Return u
    ∧ raw_database u = "a" ∧ tenant_id u = "b_c".
Proof.
  intros first. eexists.
  assert (∀ A (x y : A) (P : Prop), x = y -> (x = y -> P) -> x = y ∧ P)
    as both by (intros; split; auto).
  apply both; [vm_compute; reflexivity|]. intros Hrun.
  split; [vm_compute; reflexivity|].
  pose proof (cache_key_collision regenerating plain_host false false boot
                _ _ eq_refl Hrun) as (_ & _ & Hdb & Ht & _).
  by split.
Defined.

(** *** The deferred path of [_prepare_declarative_file] *)

Lemma tenant_init_file_ne u : tenant_init_file u ≠ declarative_file u.
Proof.
  unfold tenant_init_file, declarative_file.
  induction (tenant_id u) as [|c t IH]; cbn; [done|].
  intros H. apply IH. by injection H.
Qed.

Lemma untouched_modify f (g : World -> World) :
  (∀ w, files (g w) !! f = files w !! f) ->
  (∀ w, trace (g w) = trace w) ->
  keeps (untouched f) (modify g).
Proof.
  intros Hf Ht. apply keeps_modify. intros w.
  unfold untouched. by rewrite Hf, Ht.
Qed.

Lemma untouched_ensure_tenant_package u :
  keeps (untouched (declarative_file u)) (ensure_tenant_package u).
Proof.
  pose proof (tenant_init_file_ne u) as Hne.
  unfold ensure_tenant_package.
  apply keeps_bind; [eauto | apply keeps_get; auto | intros w0].
  apply keeps_bind; [eauto | | intros ?].
  { apply keeps_if; [apply keeps_ret; auto|]. unfold mkdir.
    apply keeps_bind; [eauto | by apply untouched_emit | intros ?].
    by apply untouched_modify. }
  apply keeps_bind; [eauto | apply keeps_get; auto | intros w1].
  apply keeps_if; [apply keeps_ret; auto|]. unfold write_file.
  apply keeps_bind; [eauto | | intros ?].
  - apply untouched_emit; [done|]. cbn. by apply String.eqb_neq.
  - apply untouched_modify; [|done]. intros w. cbn.
    by rewrite lookup_insert_ne.
Qed.

Lemma ensure_tenant_package_returns u w :
  ∃ w1, ensure_tenant_package u w = (Return tt, w1).
Proof.
  unfold ensure_tenant_package, mkdir, write_file, mbind, M_bind, get,
    emit, modify, mret, M_ret.
  cbn. destruct (bool_decide (tenant_id u ∈ dirs w)); cbn;
    (destruct (bool_decide _); cbn; eauto).
Qed.

Lemma prepare_deferred cfg host u w text :
  DEFER_GEN_REFRESH cfg = true ->
  files w !! declarative_file u = Some text ->
  ∃ w', _prepare_declarative_file cfg host u false w
         = (Return (Path (logical_path u)), w')
        ∧ untouched (declarative_file u) w w' ∧ grows w w'.
Proof.
  intros Hcfg Hfile.
  destruct (ensure_tenant_package_returns u w) as (w1 & E).
  pose proof (untouched_ensure_tenant_package _ _ _ _ E) as Hun.
  pose proof (grows_ensure_tenant_package _ _ _ _ E) as Hgr.
  exists w1. split; [|done].
  unfold _prepare_declarative_file, mbind, M_bind, get. rewrite E.
  destruct Hun as (Hf & _).
  rewrite Hf, Hfile, Hcfg. by cbn.
Qed.

Lemma reflections_app l1 l2 :
  reflections (l1 ++ l2) = reflections l1 + reflections l2.
Proof. unfold reflections. by rewrite List.filter_app, length_app. Qed.

Lemma writes_of_app f l1 l2 :
  writes_of f (l1 ++ l2) = writes_of f l1 + writes_of f l2.
Proof. unfold writes_of. by rewrite List.filter_app, length_app. Qed.

Lemma import_module_trace host p w r w' :
  import_module host p w = (r, w') ->
  ∃ evs, trace w' = trace w ++ ImportModule p :: evs.
Proof.
  unfold import_module, run_text, mbind, M_bind, emit, get, modify, raise,
    fresh_object, of_outcome, set_base_classes, set_sys_module, mret, M_ret.
  cbn.
  destruct (sys_modules w !! p); [intros [= <- <-]; by exists []|].
  destruct (files w !! module_file p); [|intros [= <- <-]; by exists []].
  destruct (execute_text _ _ _ _) as [[ns bases]|e];
    intros [= <- <-]; by exists [].
Qed.

Lemma loads_first_then p st1 st2 st3 :
  loads_first p st1 st2 -> advances st2 st3 -> loads_first p st1 st3.
Proof.
  intros [evs H1] [_ [_ (evs' & H2 & _)]]. exists (evs ++ evs').
  by rewrite H2, H1, <- app_assoc.
Qed.

Lemma loads_first_load_declarative_module host p :
  keeps (loads_first p) (load_declarative_module host p).
Proof.
  intros st r st'. unfold load_declarative_module.
  unfold mbind at 1, M_bind at 1. cbn [set_declarative_module modify].
  intros H.
  enough (loads_first p
            {| self := {| raw_database := raw_database (self st);
                          tenant_id := tenant_id (self st);
                          schema := schema (self st);
                          raw_db := raw_db (self st);
                          declarative_module := ModulePath p |};
               world := world st |} st') as [evs Hevs] by by exists evs.
  revert H.
  apply (keeps_bind_seq (loads_first p) advances (loads_first p));
    [done | apply loads_first_then | |].
  - intros s0 r0 s1 H0. apply lift_world_inv in H0 as (w1 & H0 & ->).
    apply import_module_trace in H0 as [evs H0]. by exists evs.
  - intros m. apply keeps_bind; [eauto | apply advances_set | intros ?].
    apply keeps_ret. auto.
Qed.

(** When the preparation hands back the path, the import is what
    [_get_declarative_module] does next. *)
Lemma get_declarative_module_loads cfg host st w1 r st1 :
  _prepare_declarative_file cfg host (self st) false (world st)
    = (Return (Path (logical_path (self st))), w1) ->
  _get_declarative_module cfg host st = (r, st1) ->
  loads_first (logical_path (self st)) {| self := self st; world := w1 |} st1.
Proof.
  intros Hprep. unfold _get_declarative_module.
  unfold mbind at 1, M_bind at 1. cbn [get_self].
  unfold mbind at 1, M_bind at 1. unfold lift at 1. rewrite Hprep.
  apply (keeps_try_except_seq (loads_first (logical_path (self st)))
           advances (loads_first (logical_path (self st))));
    [ done | apply loads_first_then
    | apply loads_first_load_declarative_module
    | apply advances_on_load_error ].
Qed.

(** With the artifact in place and deferral on,
    [_get_declarative_module] goes to the import before anything is
    reflected, generated or written to the artifact. *)
Lemma get_declarative_module_deferred cfg host st text r st1 :
  DEFER_GEN_REFRESH cfg = true ->
  files (world st) !! declarative_file (self st) = Some text ->
  _get_declarative_module cfg host st = (r, st1) ->
  ∃ evs0 evs,
    trace (world st1) =
      trace (world st) ++ evs0 ++ ImportModule (logical_path (self st)) :: evs
    ∧ reflections evs0 = 0
    ∧ writes_of (declarative_file (self st)) evs0 = 0.
Proof.
  intros Hcfg Hfile H.
  destruct (prepare_deferred cfg host (self st) (world st) text Hcfg Hfile)
    as (w1 & Hprep & (_ & Hrefl & Hwr) & (_ & evs0 & Ht0 & _)).
  destruct (get_declarative_module_loads _ _ _ _ _ _ Hprep H) as [evs Hevs].
  cbn [world] in Hevs.
  exists evs0, evs. rewrite Hevs, Ht0, <- app_assoc. split; [done|].
  rewrite Ht0, reflections_app in Hrefl.
  rewrite Ht0, writes_of_app in Hwr. lia.
Qed.

Lemma untouched_import_module host p f :
  keeps (untouched f) (import_module host p).
Proof.
  intros w r w'.
  unfold import_module, run_text, mbind, M_bind, emit, get, modify, raise,
    fresh_object, of_outcome, set_base_classes, set_sys_module, mret, M_ret.
  cbn.
  assert (∀ w0 : World,
            files w0 = files w -> trace w0 = trace w ++ [ImportModule p] ->
            untouched f w w0) as Hun.
  { intros w0 Hf Ht. unfold untouched. rewrite Hf, Ht.
    rewrite reflections_snoc, writes_of_snoc. cbn. split_and!; [done|lia..]. }
  destruct (sys_modules w !! p); [intros [= <- <-]; by apply Hun|].
  destruct (files w !! module_file p); [|intros [= <- <-]; by apply Hun].
  destruct (execute_text _ _ _ _) as [[ns bases]|e];
    intros [= <- <-]; by apply Hun.
Qed.

(** What an import raises is the import system's [No module named] or
    what the execution of the module's text raised. *)
Lemma import_module_raises host p w e w' :
  import_module host p w = (Raise e, w') ->
  PyStr.contains "No module named" (str_of e) = true
  ∨ ∃ text reg, execute_text host p text reg = Raise e.
Proof.
  unfold import_module, run_text, mbind, M_bind, emit, get, modify, raise,
    fresh_object, of_outcome, set_base_classes, set_sys_module, mret, M_ret.
  cbn.
  destruct (sys_modules w !! p); [done|].
  destruct (files w !! module_file p) as [text|];
    [|intros [= <- <-]; by left].
  destruct (execute_text _ _ _ _) as [[ns bases]|err] eqn:E; [done|].
  intros [= <- <-]. right. eauto.
Qed.

(** With the artifact in place and deferral on, a load that meets no
    conflict leaves the artifact alone: nothing is reflected, generated
    or written in the whole of [_get_declarative_module]. *)
Lemma get_declarative_module_without_conflict cfg host st text r st1 :
  DEFER_GEN_REFRESH cfg = true ->
  files (world st) !! declarative_file (self st) = Some text ->
  (∀ text reg e,
     execute_text host (logical_path (self st)) text reg = Raise e ->
     PyStr.contains "is already defined" (str_of e) = false) ->
  _get_declarative_module cfg host st = (r, st1) ->
  untouched (declarative_file (self st)) (world st) (world st1).
Proof.
  intros Hcfg Hfile Hnc.
  destruct (prepare_deferred cfg host (self st) (world st) text Hcfg Hfile)
    as (w1 & Hprep & Hun & _).
  unfold _get_declarative_module.
  unfold mbind at 1, M_bind at 1. cbn [get_self].
  unfold mbind at 1, M_bind at 1. unfold lift at 1. rewrite Hprep.
  unfold try_except, load_declarative_module.
  unfold mbind at 1, M_bind at 1. cbn [set_declarative_module modify].
  unfold mbind at 1, M_bind at 1. unfold lift at 1. cbn [self world].
  destruct (import_module host (logical_path (self st)) w1)
    as [[m|e] w2] eqn:Ei;
    pose proof (untouched_import_module _ _ (declarative_file (self st))
                  _ _ _ Ei) as Hun2.
  { intros [= <- <-]. cbn [world]. eauto. }
  assert (untouched (declarative_file (self st)) (world st) w2) as Hun3
    by eauto.
  assert (∀ ev, is_reflect ev = false ->
            is_write_of (declarative_file (self st)) ev = false ->
            untouched (declarative_file (self st)) (world st)
              {| dirs := dirs w2; files := files w2;
                 sys_modules := sys_modules w2;
                 base_classes := base_classes w2;
                 declarative_utils := declarative_utils w2;
                 next_object := next_object w2;
                 trace := trace w2 ++ [ev] |}) as Hev.
  { intros ev H1 H2. eapply untouched_trans; [exact Hun3|].
    by apply (untouched_emit _ ev H1 H2 w2 (Return tt)). }
  destruct (is_Exception e) eqn:Hexc; [|intros [= <- <-]; exact Hun3].
  unfold on_load_error.
  destruct (PyStr.contains "No module named" (str_of e)) eqn:Hno.
  { intros [= <- <-]. cbn [world]. by apply Hev. }
  destruct (import_module_raises _ _ _ _ _ Ei) as [Hc|(text0 & reg & He)];
    [congruence|].
  rewrite (Hnc _ _ _ He).
  intros [= <- <-]. cbn [world]. by apply Hev.
Qed.




(** *** Failures of the generation *)

Lemma same_imports_trans w1 w2 w3 :
  same_imports w1 w2 -> same_imports w2 w3 -> same_imports w1 w3.
Proof. unfold same_imports. congruence. Qed.

Lemma same_imports_emit ev :
  (∀ n, ev ≠ ImportModule n) -> keeps same_imports (emit ev).
Proof.
  intros Hev w r w' [= <- <-]. unfold same_imports, imports. cbn [trace].
  rewrite omap_app. cbn. destruct ev; rewrite ?app_nil_r; try done.
  by destruct (Hev name).
Qed.

Lemma same_imports_modify (g : World -> World) :
  (∀ w, trace (g w) = trace w) -> keeps same_imports (modify g).
Proof.
  intros Ht. apply keeps_modify. intros w. unfold same_imports.
  by rewrite Ht.
Qed.

Ltac same_imports_step :=
  repeat first
    [ apply keeps_ret; done
    | apply keeps_raise; done
    | apply keeps_get; done
    | apply same_imports_emit; done
    | apply same_imports_modify; done
    | apply keeps_bind; [apply same_imports_trans | | intros ?]
    | apply keeps_if
    | progress unfold mkdir, write_file, of_fault ].

Lemma same_imports_ensure_tenant_package u :
  keeps same_imports (ensure_tenant_package u).
Proof. unfold ensure_tenant_package. same_imports_step. Qed.

Lemma same_imports_generate_declarative_file host u :
  keeps same_imports (generate_declarative_file host u).
Proof.
  unfold generate_declarative_file. same_imports_step.
  - destruct (get_session_fault _ _ _); same_imports_step.
  - by intros w r w' [= <- <-].
  - by intros w r w' [= <- <-].
Qed.


Lemma prepare_without_codegen cfg host u refresh w :
  codegen_installed host = false ->
  ∃ w', _prepare_declarative_file cfg host u refresh w
         = (Return (Path (logical_path u)), w')
        ∧ untouched (declarative_file u) w w' ∧ grows w w'.
Proof.
  intros Hno.
  destruct (ensure_tenant_package_returns u w) as (w1 & E).
  pose proof (untouched_ensure_tenant_package _ _ _ _ E) as Hun.
  pose proof (grows_ensure_tenant_package _ _ _ _ E) as Hgr.
  exists w1. split; [|done].
  unfold _prepare_declarative_file, mbind at 1, M_bind at 1. rewrite E.
  unfold mbind at 1, M_bind at 1. cbn [get].
  destruct (_ && _ && _); [done|].
  unfold generate_declarative_file. rewrite Hno.
  by unfold mbind at 1, M_bind at 1.
Qed.

(** C5, as the code has it.  When the [codegen] module cannot be
    imported, [_prepare_declarative_file] raises nothing and returns the
    logical path, as it does after a generation, without touching the
    artifact; [_get_declarative_module] therefore goes on to import
    whatever is at that path.  When the generation fails with any other
    [Exception], [_prepare_declarative_file] logs it and returns [False],
    and [_get_declarative_module] returns [None] without an import. *)
Theorem generation_failures (cfg : ModuleConfig) (host : Host)
    (u : DeclarativeUtils) (refresh : bool) (w : World) :
  (codegen_installed host = false ->
     (∃ w', _prepare_declarative_file cfg host u refresh w
             = (Return (Path (logical_path u)), w')
            ∧ untouched (declarative_file u) w w')
     ∧ ∀ r st', _get_declarative_module cfg host {| self := u; world := w |}
                  = (r, st') ->
         ImportModule (logical_path u) ∈ trace (world st'))
  ∧ (∀ w1 e w2,
       ensure_tenant_package u w = (Return tt, w1) ->
       bool_decide (is_Some (files w1 !! declarative_file u))
         && DEFER_GEN_REFRESH cfg && negb refresh = false ->
       generate_declarative_file host u w1 = (Raise e, w2) ->
       is_Exception e = true -> (∀ msg, e ≠ ImportError msg) ->
       ∃ w', _prepare_declarative_file cfg host u refresh w
               = (Return PyFalse, w')
             ∧ imports (trace w') = imports (trace w)
             ∧ (refresh = false ->
                _get_declarative_module cfg host {| self := u; world := w |}
                  = (Return None, {| self := u; world := w' |}))).
Proof.
  split.
  - intros Hno. split.
    + destruct (prepare_without_codegen cfg host u refresh w Hno)
        as (w' & H & Hun & _). eauto.
    + intros r st' H.
      destruct (prepare_without_codegen cfg host u false w Hno)
        as (w1 & Hprep & _).
      destruct (get_declarative_module_loads _ _ {| self := u; world := w |}
                  _ _ _ Hprep H) as [evs Hevs].
      rewrite Hevs. set_solver.
  - intros w1 e w2 Hens Hcond Hgen Hexc Hnot.
    assert (_prepare_declarative_file cfg host u refresh w =
            (Return PyFalse,
             {| dirs := dirs w2; files := files w2;
                sys_modules := sys_modules w2;
                base_classes := base_classes w2;
                declarative_utils := declarative_utils w2;
                next_object := next_object w2;
                trace := trace w2
                           ++ [LogError "Error creating declarative file"] |}))
      as Hprep.
    { unfold _prepare_declarative_file, mbind at 1, M_bind at 1.
      rewrite Hens. unfold mbind at 1, M_bind at 1. cbn [get].
      rewrite Hcond, Hgen.
      destruct e; try done. by destruct (Hnot msg). }
    eexists. split; [exact Hprep|]. split.
    + apply (same_imports_ensure_tenant_package _ _ _ _) in Hens.
      apply (same_imports_generate_declarative_file _ _ _ _ _) in Hgen.
      unfold same_imports in *. cbn [trace]. unfold imports in *.
      rewrite omap_app. cbn. rewrite app_nil_r. congruence.
    + intros ->. unfold _get_declarative_module.
      unfold mbind at 1, M_bind at 1. cbn [get_self].
      unfold mbind at 1, M_bind at 1. unfold lift at 1. cbn [self world].
      by rewrite Hprep.
Qed.

Lemma generation_failures_witness :
  (∃ w', _prepare_declarative_file regenerating host_without_codegen
           pending_billing false with_artifact
         = (Return (Path "acme.async_billing_public"), w'))
  ∧ (∃ w', _prepare_declarative_file regenerating host_database_down
             pending_billing false boot = (Return PyFalse, w')
           ∧ _get_declarative_module regenerating host_database_down
               {| self := pending_billing; world := boot |}
             = (Return None, {| self := pending_billing; world := w' |})).
Proof.
  split.
  - destruct (proj1 (proj1 (generation_failures regenerating
                              host_without_codegen pending_billing false
                              with_artifact) eq_refl)) as (w' & H & _).
    by exists w'.
  - edestruct (proj2 (generation_failures regenerating host_database_down
                        pending_billing false boot))
      as (w' & Hp & _ & Hg);
      [ vm_compute; reflexivity | vm_compute; reflexivity
      | vm_compute; reflexivity | reflexivity | by intros msg | ].
    exists w'. split; [exact Hp | exact (Hg eq_refl)].
Defined.

(** C5 as stated fails: without [codegen] and without an artifact the
    lookup ends in [sys.exit(1)] after the other tasks were cancelled;
    with an artifact on disk it returns the loaded module, not an
    absence. *)
Lemma missing_codegen_ends_the_process :
  (get_declarative_utils regenerating host_without_codegen
     "billing" "acme" "public" false boot).1 = Raise (SystemExit 1)
  ∧ last (trace (get_declarative_utils regenerating host_without_codegen
                   "billing" "acme" "public" false boot).2)
    = Some CancelTasks
  ∧ (get_declarative_utils regenerating host_without_codegen
       "billing" "acme" "public" false with_artifact).1
    = Return loaded_billing.
Proof. split_and!; by vm_compute. Qed.

(** *** Recovery from a conflict *)

Lemma same_modules_modify (g : World -> World) :
  (∀ w, sys_modules (g w) = sys_modules w) -> keeps same_modules (modify g).
Proof. intros Hg. apply keeps_modify. intros w. apply Hg. Qed.

Ltac same_modules_step :=
  repeat first
    [ apply keeps_ret; done
    | apply keeps_raise; done
    | apply keeps_get; done
    | apply same_modules_emit
    | apply same_modules_modify; done
    | apply keeps_bind; [apply same_modules_trans | | intros ?]
    | apply keeps_if
    | progress unfold mkdir, write_file, of_fault, set_base_classes ].

Lemma same_modules_ensure_tenant_package u :
  keeps same_modules (ensure_tenant_package u).
Proof. unfold ensure_tenant_package. same_modules_step. Qed.

Lemma same_modules_generate_declarative_file host u :
  keeps same_modules (generate_declarative_file host u).
Proof.
  unfold generate_declarative_file. same_modules_step.
  - destruct (get_session_fault _ _ _); same_modules_step.
  - by intros w r w' [= <- <-].
  - by intros w r w' [= <- <-].
Qed.

Lemma same_modules_prepare cfg host u refresh :
  keeps same_modules (_prepare_declarative_file cfg host u refresh).
Proof.
  unfold _prepare_declarative_file.
  apply keeps_bind;
    [apply same_modules_trans | apply same_modules_ensure_tenant_package |].
  intros []. apply keeps_bind;
    [apply same_modules_trans | by apply keeps_get |]. intros w0.
  destruct (_ && _ && _); [by apply keeps_ret|].
  intros w r w'.
  destruct (generate_declarative_file host u w) as [[[]|e] w1] eqn:E;
    apply same_modules_generate_declarative_file in E.
  - by intros [= <- <-].
  - destruct e; cbn; by intros [= <- <-].
Qed.

(** A refresh enters the [try] block whatever is on disk: with the
    generator at hand, a session is asked for. *)
Lemma prepare_refresh_reflects cfg host u w r w' :
  codegen_installed host = true ->
  _prepare_declarative_file cfg host u true w = (r, w') ->
  ∃ evs0 evs,
    trace w' =
      trace w ++ evs0
        ++ GetSession (raw_database u)
             (if raw_db u then None else Some (tenant_id u)) :: evs.
Proof.
  intros Hgen.
  destruct (ensure_tenant_package_returns u w) as (w1 & E).
  pose proof (grows_ensure_tenant_package _ _ _ _ E) as (_ & evs0 & Ht0 & _).
  unfold _prepare_declarative_file, mbind at 1, M_bind at 1. rewrite E.
  unfold mbind at 1, M_bind at 1. cbn [get]. rewrite andb_false_r.
  unfold generate_declarative_file. rewrite Hgen.
  unfold mbind at 1, M_bind at 1. cbn [mret M_ret].
  unfold mbind at 1, M_bind at 1. cbn [emit modify].
  match goal with
  | |- context [?rest {| dirs := _; files := _; sys_modules := _;
                         base_classes := _; declarative_utils := _;
                         next_object := _; trace := ?t |}] =>
      assert (keeps grows rest) as K;
      [| destruct (rest {| dirs := dirs w1; files := files w1;
                           sys_modules := sys_modules w1;
                           base_classes := base_classes w1;
                           declarative_utils := declarative_utils w1;
                           next_object := next_object w1; trace := t |})
           as [rg w2] eqn:Eg ]
  end.
  { apply keeps_bind; [eauto | | intros ?].
    { destruct (get_session_fault _ _ _); [apply keeps_raise|apply keeps_ret];
        auto. }
    apply keeps_bind; [eauto | by apply grows_emit | intros ?].
    apply keeps_bind; [eauto | apply grows_of_outcome | intros ?].
    apply keeps_bind; [eauto | | intros ?].
    { unfold write_file. apply keeps_bind; [eauto | by apply grows_emit |].
      intros ?. by apply grows_silent. }
    apply keeps_bind; [eauto | by apply grows_emit | intros ?].
    apply keeps_bind; [eauto | apply grows_of_outcome | intros ?].
    unfold write_file. apply keeps_bind; [eauto | by apply grows_emit |].
    intros ?. by apply grows_silent. }
  apply K in Eg as (_ & evs & Ht & _). cbn [trace] in Ht.
  destruct rg as [[]|e].
  - intros [= <- <-]. exists evs0, evs.
    by rewrite Ht, Ht0, <- !app_assoc.
  - destruct e; cbn; intros [= <- <-]; cbn [trace];
      first [ exists evs0, evs; by rewrite Ht, Ht0, <- !app_assoc
            | eexists evs0, (evs ++ [_]);
              by rewrite Ht, Ht0, <- !app_assoc ].
Qed.

Lemma import_module_Raise host p w e w' :
  import_module host p w = (Raise e, w') ->
  sys_modules w !! p = None ∧ sys_modules w' = sys_modules w.
Proof.
  unfold import_module, run_text, mbind, M_bind, emit, get, modify, raise,
    fresh_object, of_outcome, set_base_classes, set_sys_module, mret, M_ret.
  cbn.
  destruct (sys_modules w !! p); [done|].
  destruct (files w !! module_file p); [|by intros [= <- <-]].
  destruct (execute_text _ _ _ _) as [[ns bases]|err];
    [done | by intros [= <- <-]].
Qed.

(** An import of a module that is not in [sys.modules] makes a new
    module object from the file as it is then. *)
Lemma import_module_fresh host p w m w' :
  sys_modules w !! p = None ->
  import_module host p w = (Return m, w') ->
  module_id m = next_object w ∧ module_name m = p
  ∧ files w !! module_file p = Some (module_text m)
  ∧ files w' = files w
  ∧ sys_modules w' !! p = Some m
  ∧ trace w' = trace w ++ [ImportModule p].
Proof.
  intros Hmiss.
  unfold import_module, run_text, mbind, M_bind, emit, get, modify, raise,
    fresh_object, of_outcome, set_base_classes, set_sys_module, mret, M_ret.
  cbn. rewrite Hmiss.
  destruct (files w !! module_file p) as [text|]; [|done].
  destruct (execute_text _ _ _ _) as [[ns bases]|err]; [|done].
  intros [= <- <-]. cbn. split_and!; try done. apply lookup_insert_eq.
Qed.

Lemma remove_base_class_run db sch w :
  remove_base_class db sch w =
  (Return tt,
   {| dirs := dirs w; files := files w; sys_modules := sys_modules w;
      base_classes := filter (λ p, p ≠ (db, sch)) (base_classes w);
      declarative_utils := declarative_utils w;
      next_object := next_object w;
      trace := trace w ++ [RemoveBaseClass db sch] |}).
Proof. reflexivity. Qed.

Lemma log_import_error_run st :
  log_import_error st =
  (Return None,
   {| self := self st;
      world :=
        {| dirs := dirs (world st); files := files (world st);
           sys_modules := sys_modules (world st);
           base_classes := base_classes (world st);
           declarative_utils := declarative_utils (world st);
           next_object := next_object (world st);
           trace := trace (world st)
                      ++ [LogError "Error importing declarative module"] |} |}).
Proof. reflexivity. Qed.




End DeclarativeFacts.


(** ** More on the connection-engine cache *)

Lemma bind_inv_Raise {S A B} (m : M S A) (f : A -> M S B) st e st2 :
  (m ≫= f) st = (Raise e, st2) ->
  m st = (Raise e, st2)
  ∨ ∃ a st1, m st = (Return a, st1) ∧ f a st1 = (Raise e, st2).
Proof.
  unfold mbind, M_bind. destruct (m st) as [[a|e'] st1]; [eauto|].
  intros [= <- <-]. by left.
Qed.

(** An equation established by evaluation, then used. *)
Lemma eq_and_then {A} (x y : A) (P : Prop) :
  x = y -> (x = y -> P) -> x = y ∧ P.
Proof. intros H HP. split; [exact H | exact (HP H)]. Defined.

Module SessionExtras.
Import SessionManagement Observations SessionExtensions SessionFacts.
#[local] Open Scope list_scope.

(** *** The retry loop *)

Lemma attempt_connection_attempts srv e i w r w' :
  attempt_connection srv e i w = (r, w') ->
  attempts (log w') = attempts (log w) + 1.
Proof.
  unfold attempt_connection, mbind, M_bind, emit, get, modify, raise,
    add_database, mret, M_ret. cbn.
  destruct (fault _ _ _); [|destruct (bool_decide _)];
    intros [= <- <-]; cbn [log]; rewrite ?attempts_app; cbn; lia.
Qed.

Lemma retry_loop_attempts srv e n : ∀ i w r w',
  retry_loop srv e n i w = (r, w') ->
  attempts (log w) <= attempts (log w') <= attempts (log w) + n.
Proof.
  induction n as [|n IH]; intros i w r w'; cbn [retry_loop].
  - intros [= <- <-]. lia.
  - destruct (attempt_connection srv e i w) as [[[]|err] w1] eqn:E;
      apply attempt_connection_attempts in E.
    + intros [= <- <-]. lia.
    + assert (∀ ev, is_probe ev = false ->
              (emit ev ;; retry_loop srv e n (S i)) w1 = (r, w') ->
              attempts (log w) <= attempts (log w') <= attempts (log w) + S n)
        as Hgo.
      { intros ev Hev. unfold mbind, M_bind, emit, modify. intros H.
        apply IH in H. cbn [log] in H. rewrite attempts_app in H.
        assert (attempts [ev] = 0) as H0
          by (unfold attempts; cbn; by rewrite Hev).
        lia. }
      destruct err; try (intros [= <- <-]; lia).
      destruct (negb _); by apply Hgo.
Qed.

(** X1.  Whatever the server does, [_ensure_engine_connection] passes
    through its [try] body at most [PG_MAX_RETRY] times. *)
Theorem ensure_engine_connection_attempts_bounded (cfg : PostgresConfig)
    (srv : Server) (e : Engine) (w w' : World) (r : outcome unit) :
  _ensure_engine_connection cfg srv e w = (r, w') ->
  attempts (log w') <= attempts (log w) + PG_MAX_RETRY cfg.
Proof. intros H. by apply retry_loop_attempts in H as [_ H]. Qed.

Lemma ensure_engine_connection_attempts_bounded_witness :
  ∃ r w', _ensure_engine_connection caching unreachable_server
            {| engine_id := 0; engine_database := "billing";
               engine_poolclass := QueuePool; engine_isolation := AUTOCOMMIT |}
            empty_world = (r, w')
          ∧ attempts (log w') <= attempts (log empty_world) + 3.
Proof.
  eexists _, _. apply eq_and_then; [vm_compute; reflexivity|]. intros Hrun.
  exact (ensure_engine_connection_attempts_bounded caching _ _ _ _ _ Hrun).
Defined.

Lemma retry_loop_only_operational srv e n : ∀ i w,
  only_operational srv (engine_database e) ->
  ∃ w', retry_loop srv e n i w = (Return tt, w').
Proof.
  intros i w Hop. revert i w.
  induction n as [|n IH]; intros i w; cbn [retry_loop]; [by eexists|].
  unfold attempt_connection, mbind, M_bind, emit, get, modify, raise,
    add_database, mret, M_ret. cbn.
  destruct (fault srv (engine_database e) i) as [ex|] eqn:Ef.
  - destruct (Hop _ _ Ef) as [msg ->].
    destruct (negb _); apply IH.
  - destruct (bool_decide _); by eexists.
Qed.

Lemma retry_loop_all_fail srv e n : ∀ i w w',
  only_operational srv (engine_database e) ->
  (∀ j, fault srv (engine_database e) j ≠ None) ->
  retry_loop srv e n i w = (Return tt, w') ->
  attempts (log w') = attempts (log w) + n.
Proof.
  intros i w w' Hop Hall. revert i w.
  induction n as [|n IH]; intros i w; cbn [retry_loop].
  - intros [= <-]. lia.
  - unfold attempt_connection, mbind, M_bind, emit, get, modify, raise,
      add_database, mret, M_ret. cbn.
    destruct (fault srv (engine_database e) i) as [ex|] eqn:Ef;
      [|by destruct (Hall i)].
    destruct (Hop _ _ Ef) as [msg ->].
    destruct (negb _); intros H; apply IH in H; cbn [log] in H;
      rewrite !attempts_app in H; cbn in H; lia.
Qed.

(** The loop meets a first exception that is not an [OperationalError]
    at attempt [i + k], after [k] operational failures. *)
Lemma retry_loop_raises srv e ex k : ∀ n i w,
  (∀ j, j < k -> ∃ msg, fault srv (engine_database e) (i + j)
                       = Some (OperationalError msg)) ->
  fault srv (engine_database e) (i + k) = Some ex ->
  (∀ msg, ex ≠ OperationalError msg) ->
  k < n ->
  ∃ w', retry_loop srv e n i w = (Raise ex, w')
        ∧ attempts (log w') = attempts (log w) + k + 1
        ∧ next_object w' = next_object w.
Proof.
  induction k as [|k IH]; intros n i w Hbefore Hat Hnot Hlt;
    (destruct n as [|n]; [lia|]); cbn [retry_loop];
    unfold attempt_connection, mbind at 1, M_bind at 1; cbn [emit modify].
  - rewrite Nat.add_0_r in Hat. rewrite Hat. unfold raise.
    destruct ex; try (eexists; split_and!; [reflexivity| |done];
                      cbn [log]; rewrite attempts_app; cbn; lia).
    by destruct (Hnot msg).
  - destruct (Hbefore 0 ltac:(lia)) as [msg Hf0].
    rewrite Nat.add_0_r in Hf0. rewrite Hf0. unfold raise.
    assert (∀ ev, is_probe ev = false ->
      ∃ w', (emit ev ;; retry_loop srv e n (S i))
              {| next_object := next_object w; databases := databases w;
                 persisted := persisted w;
                 log := log w ++ [Probe (engine_database e) i] |}
            = (Raise ex, w')
            ∧ attempts (log w') = attempts (log w) + S k + 1
            ∧ next_object w' = next_object w) as Hgo.
    { intros ev Hev. unfold mbind, M_bind, emit, modify.
      edestruct (IH n (S i)) as (w' & Hrun & Hatt & Hobj);
        [ | | exact Hnot | lia | ].
      - intros j Hj. destruct (Hbefore (S j) ltac:(lia)) as [m Hm].
        exists m. by rewrite <- Hm, Nat.add_succ_r.
      - by rewrite <- Hat, Nat.add_succ_r.
      - exists w'. split; [exact Hrun|]. split; [|exact Hobj].
        rewrite Hatt. cbn [log]. rewrite !attempts_app.
        assert (attempts [ev] = 0) as H0
          by (unfold attempts; cbn; by rewrite Hev).
        assert (attempts [Probe (engine_database e) i] = 1) as H1
          by reflexivity.
        lia. }
    destruct (negb _); by apply Hgo.
Qed.

(** *** The stages of a cache miss *)

Lemma get_engine_miss_stages cfg srv db t st :
  _db_engines (self st) !! _get_fully_qualified_db db t = None ->
  _get_engine cfg srv db t st =
  let q := _get_fully_qualified_db db t in
  let e := new_engine cfg q (next_object (world st)) in
  let mgr := remember cfg q e (self st) in
  match _ensure_engine_connection cfg srv e (after_create (world st)) with
  | (Raise ex, w1) => (Raise ex, {| self := self st; world := w1 |})
  | (Return _, w1) =>
      match create_default_psql_dependencies srv e w1 with
      | (Raise ex, w2) => (Raise ex, {| self := mgr; world := w2 |})
      | (Return _, w2) =>
          match run_postcreate srv mgr e db t w2 with
          | (Raise ex, w3) => (Raise ex, {| self := mgr; world := w3 |})
          | (Return _, w3) => (Return e, {| self := mgr; world := w3 |})
          end
      end
  end.
Proof.
  intros Hmiss. unfold _get_engine.
  unfold mbind at 1, M_bind at 1. cbn [get]. rewrite Hmiss.
  unfold mbind at 1, M_bind at 1. unfold lift at 1, create_engine.
  unfold mbind at 1, M_bind at 1. cbn [fresh_object mret M_ret].
  cbv zeta. fold (after_create (world st)).
  fold (new_engine cfg (_get_fully_qualified_db db t) (next_object (world st))).
  unfold mbind at 1, M_bind at 1. unfold lift at 1. cbn [self world].
  destruct (_ensure_engine_connection _ _ _ _) as [[[]|ex] w1]; [|done].
  unfold mbind at 1, M_bind at 1. unfold remember.
  destruct (PG_ANTI_PERSISTENT cfg); cbn [negb cache_engine modify mret M_ret];
    unfold mbind at 1, M_bind at 1; unfold lift at 1; cbn [self world];
    (destruct (create_default_psql_dependencies _ _ _) as [[[]|ex] w2];
     [|done]);
    unfold mbind at 1, M_bind at 1; cbn [get];
    unfold mbind at 1, M_bind at 1; unfold lift at 1; cbn [self world];
    by destruct (run_postcreate _ _ _ _ _ _) as [[[]|ex] w3].
Qed.

(** *** Runs of the hooks that cannot fail *)

Lemma steady_trans w1 w2 w3 : steady w1 w2 -> steady w2 w3 -> steady w1 w3.
Proof. unfold steady. congruence. Qed.

Lemma steady_emit ev : is_probe ev = false -> keeps steady (emit ev).
Proof.
  intros Hev w r w' [= <- <-]. unfold steady. cbn [log].
  rewrite attempts_app. unfold attempts at 2. cbn. rewrite Hev. cbn. lia.
Qed.

Lemma steady_modify (g : World -> World) :
  (∀ w, log (g w) = log w) -> keeps steady (modify g).
Proof. intros Hg. apply keeps_modify. intros w. unfold steady. by rewrite Hg. Qed.

Ltac steady_step :=
  repeat first
    [ apply keeps_ret; done
    | apply keeps_raise; done
    | apply steady_emit; reflexivity
    | apply steady_modify; done
    | apply keeps_bind; [apply steady_trans | | intros ?]
    | progress unfold persist ].

Lemma steady_execute srv sess s : keeps steady (execute srv sess s).
Proof.
  unfold execute. steady_step.
  destruct (rejects _ _ _); [steady_step|].
  destruct (engine_isolation _); steady_step.
Qed.

Lemma steady_execute_all srv l : ∀ sess, keeps steady (execute_all srv sess l).
Proof.
  induction l as [|s l IH]; intros sess; cbn [execute_all]; [steady_step|].
  apply keeps_bind; [apply steady_trans | apply steady_execute | auto].
Qed.

Lemma steady_run_autos srv t fs : ∀ sess, keeps steady (run_autos srv t sess fs).
Proof.
  induction fs as [|f fs IH]; intros sess; cbn [run_autos]; [steady_step|].
  apply keeps_bind; [apply steady_trans | | auto].
  unfold run_auto. steady_step.
  destruct (auto_call f t) as [[s|l]|e];
    [apply steady_execute | apply steady_execute_all | steady_step].
Qed.

Lemma steady_run_manuals srv t fs :
  ∀ sess, keeps steady (run_manuals srv t sess fs).
Proof.
  induction fs as [|f fs IH]; intros sess; cbn [run_manuals]; [steady_step|].
  apply keeps_bind; [apply steady_trans | | auto].
  unfold run_manual. steady_step; [apply steady_execute_all|].
  destruct (manual_call f t).2; steady_step.
Qed.

Lemma steady_commit sess : keeps steady (commit sess).
Proof. unfold commit. steady_step. Qed.

Lemma steady_run_postcreate srv mgr e db t :
  keeps steady (run_postcreate srv mgr e db t).
Proof.
  unfold run_postcreate.
  apply keeps_bind; [apply steady_trans | | intros ?].
  { apply keeps_bind;
      [apply steady_trans | apply steady_run_autos
      | intros ?; apply steady_commit]. }
  apply keeps_bind; [apply steady_trans | apply steady_run_manuals | intros ?].
  apply keeps_bind; [apply steady_trans | apply steady_commit | intros ?].
  by apply steady_emit.
Qed.

Lemma steady_dependencies srv e :
  keeps steady (create_default_psql_dependencies srv e).
Proof.
  unfold create_default_psql_dependencies. steady_step.
  destruct (dependencies_fault _ _); steady_step.
Qed.

Lemma execute_accepted srv sess s w :
  accepting srv (engine_database (bind sess)) ->
  ∃ sess' w', execute srv sess s w = (Return sess', w')
              ∧ bind sess' = bind sess.
Proof.
  intros Hacc. unfold execute, mbind, M_bind, emit, persist, modify, mret,
    M_ret. cbn. rewrite Hacc.
  destruct (engine_isolation _); by eexists _, _.
Qed.

Lemma execute_all_accepted srv l : ∀ sess w,
  accepting srv (engine_database (bind sess)) ->
  ∃ sess' w', execute_all srv sess l w = (Return sess', w')
              ∧ bind sess' = bind sess.
Proof.
  induction l as [|s l IH]; intros sess w Hacc; cbn [execute_all];
    [by eexists _, _|].
  destruct (execute_accepted srv sess s w Hacc) as (s1 & w1 & H1 & Hb1).
  destruct (IH s1 w1) as (s2 & w2 & H2 & Hb2); [by rewrite Hb1|].
  exists s2, w2. split; [|congruence].
  unfold mbind, M_bind. by rewrite H1.
Qed.

Lemma run_autos_accepted srv t fs : ∀ sess w,
  accepting srv (engine_database (bind sess)) ->
  Forall (λ f, ∃ r, auto_call f t = Return r) fs ->
  ∃ sess' w', run_autos srv t sess fs w = (Return sess', w')
              ∧ bind sess' = bind sess.
Proof.
  induction fs as [|f fs IH]; intros sess w Hacc Hok; cbn [run_autos];
    [by eexists _, _|].
  apply Forall_cons in Hok as [[r Hr] Hok].
  assert (∃ s1 w1, run_auto srv t sess f w = (Return s1, w1)
                   ∧ bind s1 = bind sess) as (s1 & w1 & H1 & Hb1).
  { unfold run_auto. unfold mbind at 1, M_bind at 1. cbn [emit modify].
    rewrite Hr. destruct r as [s|l];
      [by apply execute_accepted | by apply execute_all_accepted]. }
  destruct (IH s1 w1) as (s2 & w2 & H2 & Hb2); [by rewrite Hb1 | done |].
  exists s2, w2. split; [|congruence].
  unfold mbind, M_bind. by rewrite H1.
Qed.

Lemma run_manuals_accepted srv t fs : ∀ sess w,
  accepting srv (engine_database (bind sess)) ->
  Forall (λ f, (manual_call f t).2 = None) fs ->
  ∃ sess' w', run_manuals srv t sess fs w = (Return sess', w')
              ∧ bind sess' = bind sess.
Proof.
  induction fs as [|f fs IH]; intros sess w Hacc Hok; cbn [run_manuals];
    [by eexists _, _|].
  apply Forall_cons in Hok as [Hr Hok].
  assert (∃ s1 w1, run_manual srv t sess f w = (Return s1, w1)
                   ∧ bind s1 = bind sess) as (s1 & w1 & H1 & Hb1).
  { unfold run_manual. unfold mbind at 1, M_bind at 1. cbn [emit modify].
    edestruct (execute_all_accepted srv (manual_call f t).1 sess)
      as (s1 & w1 & H1 & Hb1); [exact Hacc|].
    unfold mbind, M_bind. rewrite H1, Hr. by eexists _, _. }
  destruct (IH s1 w1) as (s2 & w2 & H2 & Hb2); [by rewrite Hb1 | done |].
  exists s2, w2. split; [|congruence].
  unfold mbind, M_bind. by rewrite H1.
Qed.

Lemma run_postcreate_accepted srv mgr e db t w :
  accepting srv (engine_database e) ->
  well_behaved t (registered (_postcreate_auto mgr) db)
    (registered (_postcreate_manual mgr) db) ->
  ∃ w', run_postcreate srv mgr e db t w = (Return tt, w').
Proof.
  intros Hacc [Ha Hm]. unfold run_postcreate.
  destruct (run_autos_accepted srv t _ (new_session e) w Hacc Ha)
    as (s1 & w1 & H1 & Hb1).
  unfold registered in *.
  unfold mbind at 1, M_bind at 1. unfold mbind at 1, M_bind at 1.
  rewrite H1. unfold commit at 1.
  unfold mbind at 1 2, M_bind at 1 2. cbn [emit persist modify mret M_ret].
  match goal with |- ∃ _, (_ ≫= _) ?w0 = _ =>
    destruct (run_manuals_accepted srv t
                (default [] (_postcreate_manual mgr !! db))
                {| bind := bind s1; pending := [] |} w0)
      as (s2 & w2 & H2 & Hb2); [by cbn; rewrite Hb1 | done |] end.
  unfold mbind at 1, M_bind at 1. rewrite H2.
  by eexists.
Qed.

(** *** What a cache miss leaves behind *)



(** X3.  An exception of the bootstrap that is not an [OperationalError]
    ends [get_engine] at once, whatever is left of the retries: it is
    raised to the caller after the attempt that met it, and the manager is
    unchanged, so that nothing is cached for the identity. *)
Theorem bootstrap_error_is_raised_and_nothing_cached (cfg : PostgresConfig)
    (srv : Server) (db : string) (t : option string) (st : State)
    (ex : exn) (k : nat) :
  let q := _get_fully_qualified_db db t in
  _db_engines (self st) !! q = None ->
  (∀ j, j < k -> ∃ msg, fault srv q j = Some (OperationalError msg)) ->
  fault srv q k = Some ex ->
  (∀ msg, ex ≠ OperationalError msg) ->
  k < PG_MAX_RETRY cfg ->
  ∃ st1,
    _get_engine cfg srv db t st = (Raise ex, st1)
    ∧ self st1 = self st
    ∧ attempts (log (world st1)) = attempts (log (world st)) + k + 1.
Proof.
  intros q Hmiss Hbefore Hat Hnot Hlt.
  rewrite (get_engine_miss_stages _ _ _ _ _ Hmiss). cbv zeta. fold q.
  set (e := new_engine cfg q (next_object (world st))).
  destruct (retry_loop_raises srv e ex k (PG_MAX_RETRY cfg) 0
              (after_create (world st))) as (w1 & H1 & Hatt & _);
    [done | done | done | done |].
  unfold _ensure_engine_connection. rewrite H1.
  eexists. split; [reflexivity|]. by split.
Qed.

Lemma bootstrap_error_is_raised_and_nothing_cached_witness :
  ∃ st1,
    _get_engine caching broken_server "billing" (Some "acme")
      (fresh_state billing_manager)
    = (Raise (Exception "permission denied to create database"), st1)
    ∧ self st1 = billing_manager
    ∧ attempts (log (world st1)) = 0 + 0 + 1.
Proof.
  apply (bootstrap_error_is_raised_and_nothing_cached caching broken_server
           "billing" (Some "acme") (fresh_state billing_manager) _ 0).
  - reflexivity.
  - intros j Hj. lia.
  - reflexivity.
  - done.
  - cbn. lia.
Defined.

(** X4.  With caching on, a creation that fails after the bootstrap (in
    the default dependencies or in a hook) has already entered the pool in
    the cache: every later call for the identity returns that pool and
    runs nothing, so the setup that failed is not tried again. *)
Theorem failed_setup_leaves_pool_cached (cfg : PostgresConfig)
    (srv : Server) (db : string) (t : option string) (st st1 : State)
    (err : exn) :
  let q := _get_fully_qualified_db db t in
  PG_ANTI_PERSISTENT cfg = false ->
  _db_engines (self st) !! q = None ->
  only_operational srv q ->
  _get_engine cfg srv db t st = (Raise err, st1) ->
  ∃ e, engine_id e = next_object (world st)
       ∧ _db_engines (self st1) !! q = Some e
       ∧ ∀ n, get_engine_times cfg srv db t n st1
              = (Return (replicate n e), st1).
Proof.
  intros q Hcfg Hmiss Hop.
  rewrite (get_engine_miss_stages _ _ _ _ _ Hmiss). cbv zeta. fold q.
  set (e := new_engine cfg q (next_object (world st))).
  destruct (retry_loop_only_operational srv e (PG_MAX_RETRY cfg) 0
              (after_create (world st)) Hop) as (w1 & H1).
  unfold _ensure_engine_connection. rewrite H1.
  assert (_db_engines (remember cfg q e (self st)) !! q = Some e) as Hin.
  { unfold remember. rewrite Hcfg. cbn. apply lookup_insert_eq. }
  intros H. exists e. split; [done|].
  destruct (create_default_psql_dependencies srv e w1) as [[[]|e2] w2];
    [destruct (run_postcreate _ _ _ _ _ _) as [[[]|e3] w3]; [done|] |];
    injection H as _ <-; (split; [exact Hin|]);
    intros n; by apply get_engine_times_cached.
Qed.

Lemma failed_setup_leaves_pool_cached_witness :
  ∃ err st1,
    _get_engine caching (strict_server "CREATE TABEL line (id int)")
      "billing" (Some "acme") (fresh_state billing_manager2)
      = (Raise err, st1)
    ∧ ∃ e, engine_id e = 0
      ∧ get_engine_times caching (strict_server "CREATE TABEL line (id int)")
          "billing" (Some "acme") 3 st1 = (Return [e; e; e], st1).
Proof.
  eexists _, _. apply eq_and_then; [vm_compute; reflexivity|]. intros Hrun.
  destruct (failed_setup_leaves_pool_cached caching
              (strict_server "CREATE TABEL line (id int)") "billing"
              (Some "acme") (fresh_state billing_manager2) _ _
              eq_refl eq_refl ltac:(intros i ex [=]) Hrun)
    as (e & Hid & _ & Htimes).
  exists e. split; [exact Hid | exact (Htimes 3)].
Defined.

(** *** Identities and cache keys *)

Lemma truthy_nonempty t : t ≠ "" -> PyStr.truthy (Some t) = true.
Proof. by destruct t. Qed.

(** X5.  The qualified name does not tell a tenant from a database whose
    own name holds the delimiter: the tenant [t] of database [d] and the
    tenant-less database [t ++ "__" ++ d] share one cache entry.  With
    caching on, once the pool of the first has been returned, a lookup
    of the second returns that pool and runs none of the hooks
    registered for it. *)
Theorem delimiter_in_database_name_shares_pool (cfg : PostgresConfig)
    (srv : Server) (d t : string) (st st1 : State) (e : Engine) :
  t ≠ "" ->
  PG_ANTI_PERSISTENT cfg = false ->
  _get_engine cfg srv d (Some t) st = (Return e, st1) ->
  _get_fully_qualified_db d (Some t)
    = _get_fully_qualified_db (t ++ "__" ++ d)%string None
  ∧ _get_engine cfg srv (t ++ "__" ++ d)%string None st1 = (Return e, st1).
Proof.
  intros Ht Hcfg H.
  assert (_get_fully_qualified_db d (Some t)
          = _get_fully_qualified_db (t ++ "__" ++ d)%string None) as Hkey.
  { unfold _get_fully_qualified_db. by rewrite truthy_nonempty. }
  split; [exact Hkey|]. apply get_engine_hit. rewrite <- Hkey.
  destruct (_db_engines (self st) !! _get_fully_qualified_db d (Some t))
    as [e0|] eqn:E.
  - rewrite (get_engine_hit _ _ _ _ _ _ E) in H. by injection H as <- <-.
  - apply (get_engine_miss _ _ _ _ _ _ _ E) in H
      as (_ & _ & _ & _ & Hc & _).
    rewrite Hcfg in Hc. rewrite Hc. apply lookup_insert_eq.
Qed.

Lemma delimiter_in_database_name_shares_pool_witness :
  ∃ e st1,
    _get_engine caching healthy_server "billing" (Some "acme")
      (fresh_state billing_manager) = (Return e, st1)
    ∧ _get_engine caching healthy_server "acme__billing" None st1
      = (Return e, st1).
Proof.
  eexists _, _. apply eq_and_then; [vm_compute; reflexivity|]. intros Hrun.
  exact (proj2 (delimiter_in_database_name_shares_pool caching healthy_server
                  "billing" "acme" _ _ _ ltac:(done) eq_refl Hrun)).
Defined.

(** X6.  An empty tenant id is no tenant: [""] and [None] give the bare
    database name, so with caching on the two spellings share one pool,
    and the hooks, run for the one that came first, have been handed its
    spelling of the tenant. *)
Theorem empty_tenant_is_no_tenant (cfg : PostgresConfig) (srv : Server)
    (d : string) (st st1 : State) (e : Engine) :
  PG_ANTI_PERSISTENT cfg = false ->
  _get_engine cfg srv d None st = (Return e, st1) ->
  _get_fully_qualified_db d (Some "") = d
  ∧ _get_engine cfg srv d (Some "") st1 = (Return e, st1).
Proof.
  intros Hcfg H. split; [done|]. apply get_engine_hit.
  change (_get_fully_qualified_db d (Some ""))
    with (_get_fully_qualified_db d None).
  destruct (_db_engines (self st) !! _get_fully_qualified_db d None)
    as [e0|] eqn:E.
  - rewrite (get_engine_hit _ _ _ _ _ _ E) in H. by injection H as <- <-.
  - apply (get_engine_miss _ _ _ _ _ _ _ E) in H
      as (_ & _ & _ & _ & Hc & _).
    rewrite Hcfg in Hc. rewrite Hc. apply lookup_insert_eq.
Qed.

Lemma empty_tenant_is_no_tenant_witness :
  ∃ e st1,
    _get_engine caching healthy_server "billing" None
      (fresh_state billing_manager) = (Return e, st1)
    ∧ _get_engine caching healthy_server "billing" (Some "") st1
      = (Return e, st1).
Proof.
  eexists _, _. apply eq_and_then; [vm_compute; reflexivity|]. intros Hrun.
  exact (proj2 (empty_tenant_is_no_tenant caching healthy_server
                  "billing" _ _ _ eq_refl Hrun)).
Defined.

(** Splitting at the first occurrence of a character. *)
Lemma split_at_first c x1 : ∀ x2 r1 r2,
  free_of c x1 = true -> free_of c x2 = true ->
  (x1 ++ String c r1)%string = (x2 ++ String c r2)%string ->
  x1 = x2 ∧ r1 = r2.
Proof.
  induction x1 as [|a x1 IH]; intros [|b x2] r1 r2 H1 H2 H; cbn in *.
  - by injection H.
  - injection H as <- _. by rewrite Ascii.eqb_refl in H2.
  - injection H as -> _. by rewrite Ascii.eqb_refl in H1.
  - injection H as <- H. apply andb_true_iff in H1 as [_ H1].
    apply andb_true_iff in H2 as [_ H2].
    destruct (IH _ _ _ H1 H2 H) as [-> ->]. done.
Qed.

(** X7.  Among tenants whose names hold no underscore the qualified name
    is one-to-one: two identities with tenants get the same cache key
    only if tenant and database agree. *)
Theorem qualified_name_injective (d1 d2 t1 t2 : string) :
  t1 ≠ "" -> t2 ≠ "" ->
  free_of "_" t1 = true -> free_of "_" t2 = true ->
  _get_fully_qualified_db d1 (Some t1) = _get_fully_qualified_db d2 (Some t2) ->
  t1 = t2 ∧ d1 = d2.
Proof.
  intros Hn1 Hn2 Hf1 Hf2. unfold _get_fully_qualified_db.
  rewrite !truthy_nonempty by done. cbn. intros H.
  apply split_at_first in H as [-> H]; [|done..].
  by injection H as ->.
Qed.

Lemma qualified_name_injective_witness :
  "acme" = "acme" ∧ "billing" = "billing".
Proof.
  apply (qualified_name_injective "billing" "billing" "acme" "acme");
    done.
Defined.

(** *** Hooks are a creation-time matter *)

(** X8.  An action registered after the pool of an identity was cached is
    never run for that identity: the next [get_engine] returns the cached
    pool and changes nothing. *)
Theorem late_registration_is_not_run (cfg : PostgresConfig) (srv : Server)
    (db : string) (t : option string) (st : State) (e : Engine)
    (raw_db : raw_db_arg) (f : AutoAction) (g : ManualAction) :
  _db_engines (self st) !! _get_fully_qualified_db db t = Some e ->
  let st' := {| self := (register_postcreate_manual raw_db g
                           (register_postcreate raw_db f (self st)).2).2;
                world := world st |} in
  _get_engine cfg srv db t st' = (Return e, st').
Proof.
  intros Hhit st'. apply get_engine_hit. subst st'. cbn [self].
  destruct raw_db; exact Hhit.
Qed.

Lemma late_registration_is_not_run_witness :
  ∃ e st1,
    _get_engine caching healthy_server "billing" (Some "acme")
      (fresh_state billing_manager) = (Return e, st1)
    ∧ let st' := {| self := (register_postcreate_manual (Name "billing") seed
                               (register_postcreate (Name "billing")
                                  create_tables (self st1)).2).2;
                    world := world st1 |} in
      _get_engine caching healthy_server "billing" (Some "acme") st'
      = (Return e, st').
Proof.
  eexists _, _. apply eq_and_then; [vm_compute; reflexivity|]. intros _.
  apply (late_registration_is_not_run caching healthy_server "billing"
           (Some "acme")).
  vm_compute. reflexivity.
Defined.

(** *** Teardown *)

Lemma elem_of_del mgr e :
  e ∈ __del__ mgr ↔ ∃ k, _db_engines mgr !! k = Some e.
Proof.
  unfold __del__. rewrite list_elem_of_fmap. split.
  - intros ([k e'] & -> & H). apply elem_of_map_to_list in H. eauto.
  - intros [k H]. exists (k, e). split; [done|].
    by apply elem_of_map_to_list.
Qed.

(** A call never takes an engine out of the cache nor replaces one. *)
Lemma get_engine_keeps_cached cfg srv db t st k e :
  _db_engines (self st) !! k = Some e ->
  _db_engines (self (_get_engine cfg srv db t st).2) !! k = Some e.
Proof.
  intros Hk.
  destruct (_db_engines (self st) !! _get_fully_qualified_db db t)
    as [e0|] eqn:E.
  - by rewrite (get_engine_hit _ _ _ _ _ _ E).
  - rewrite (get_engine_miss_stages _ _ _ _ _ E). cbv zeta.
    assert (∀ e', _db_engines
              (remember cfg (_get_fully_qualified_db db t) e' (self st))
              !! k = Some e) as Hrem.
    { intros e'. unfold remember. destruct (PG_ANTI_PERSISTENT cfg); [done|].
      cbn. rewrite lookup_insert_ne; [done|]. intros <-. congruence. }
    destruct (_ensure_engine_connection _ _ _ _) as [[[]|?] ?]; [|done].
    destruct (create_default_psql_dependencies _ _ _) as [[[]|?] ?];
      [|apply Hrem].
    destruct (run_postcreate _ _ _ _ _ _) as [[[]|?] ?]; apply Hrem.
Qed.

Lemma get_engines_keep_cached cfg srv calls : ∀ st k e,
  _db_engines (self st) !! k = Some e ->
  _db_engines (self (get_engines cfg srv calls st)) !! k = Some e.
Proof.
  induction calls as [|[db t] calls IH]; intros st k e Hk; cbn [get_engines];
    [done|].
  by apply IH, get_engine_keeps_cached.
Qed.

(** X9.  With caching on, a pool that [get_engine] has returned stays in
    the cache through all later calls, whatever they return or raise,
    and is among the engines [__del__] disposes of. *)
Theorem returned_pool_is_disposed_at_teardown (cfg : PostgresConfig)
    (srv : Server) (db : string) (t : option string) (st st1 : State)
    (e : Engine) (calls : list (string * option string)) :
  PG_ANTI_PERSISTENT cfg = false ->
  _get_engine cfg srv db t st = (Return e, st1) ->
  e ∈ __del__ (self (get_engines cfg srv calls st1)).
Proof.
  intros Hcfg H. apply elem_of_del. exists (_get_fully_qualified_db db t).
  apply get_engines_keep_cached.
  destruct (_db_engines (self st) !! _get_fully_qualified_db db t)
    as [e0|] eqn:E.
  - rewrite (get_engine_hit _ _ _ _ _ _ E) in H. by injection H as <- <-.
  - apply (get_engine_miss _ _ _ _ _ _ _ E) in H
      as (_ & _ & _ & _ & Hc & _).
    rewrite Hcfg in Hc. rewrite Hc. apply lookup_insert_eq.
Qed.

Lemma returned_pool_is_disposed_at_teardown_witness :
  ∃ e st1,
    _get_engine caching healthy_server "billing" (Some "acme")
      (fresh_state billing_manager) = (Return e, st1)
    ∧ e ∈ __del__ (self (get_engines caching healthy_server
                           [("audit", None); ("billing", Some "zen")] st1)).
Proof.
  eexists _, _. apply eq_and_then; [vm_compute; reflexivity|]. intros Hrun.
  exact (returned_pool_is_disposed_at_teardown caching healthy_server
           "billing" (Some "acme") _ _ _ _ eq_refl Hrun).
Defined.

Lemma get_engine_anti_persistent cfg srv db t st :
  PG_ANTI_PERSISTENT cfg = true ->
  _db_engines (self st) = ∅ ->
  self (_get_engine cfg srv db t st).2 = self st.
Proof.
  intros Hcfg Hempty.
  assert (_db_engines (self st) !! _get_fully_qualified_db db t = None)
    as E by by rewrite Hempty.
  rewrite (get_engine_miss_stages _ _ _ _ _ E). cbv zeta.
  unfold remember. rewrite Hcfg.
  destruct (_ensure_engine_connection _ _ _ _) as [[[]|?] ?]; [|done].
  destruct (create_default_psql_dependencies _ _ _) as [[[]|?] ?]; [|done].
  by destruct (run_postcreate _ _ _ _ _ _) as [[[]|?] ?].
Qed.

(** X10.  In anti-persistent mode a manager that starts with an empty
    cache never holds an engine: after any series of [get_engine] calls
    [__del__] finds nothing to dispose of, however many pools were handed
    out. *)
Theorem anti_persistent_manager_disposes_nothing (cfg : PostgresConfig)
    (srv : Server) (calls : list (string * option string)) (st : State) :
  PG_ANTI_PERSISTENT cfg = true ->
  _db_engines (self st) = ∅ ->
  __del__ (self (get_engines cfg srv calls st)) = []
  ∧ self (get_engines cfg srv calls st) = self st.
Proof.
  intros Hcfg. revert st.
  assert (∀ st, _db_engines (self st) = ∅ ->
            self (get_engines cfg srv calls st) = self st) as Hself.
  { induction calls as [|[db t] calls IH]; intros st Hempty;
      cbn [get_engines]; [done|].
    pose proof (get_engine_anti_persistent cfg srv db t st Hcfg Hempty) as H1.
    rewrite IH; [done|]. by rewrite H1. }
  intros st Hempty. split; [|by apply Hself].
  unfold __del__. rewrite Hself, Hempty by done. by rewrite map_to_list_empty.
Qed.

Lemma anti_persistent_manager_disposes_nothing_witness :
  __del__ (self (get_engines anti_persistent healthy_server
                   [("billing", Some "acme"); ("billing", Some "acme")]
                   (fresh_state billing_manager))) = []
  ∧ next_object (world (get_engines anti_persistent healthy_server
                   [("billing", Some "acme"); ("billing", Some "acme")]
                   (fresh_state billing_manager))) = 2.
Proof.
  split; [|by vm_compute].
  apply (anti_persistent_manager_disposes_nothing anti_persistent
           healthy_server _ (fresh_state billing_manager)); reflexivity.
Defined.

(** *** Sessions *)

(** X11.  [get_session] binds its session to the pool of [get_engine]:
    with caching on, every later session for the identity, retrying or
    not, and the session [get_db] yields for the tenant are bound to the
    pool of the first one, and the manager and the server see nothing of
    them.  A retrying session keeps [expire_on_commit] at its default,
    the others switch it off. *)
Theorem sessions_share_the_pool (cfg : PostgresConfig) (srv : Server)
    (db tenant : string) (rq r rq' r' : bool) (st st1 : State)
    (s : OrmSession) :
  PG_ANTI_PERSISTENT cfg = false ->
  get_session cfg rq srv db (Some tenant) r st = (Return s, st1) ->
  (query_cls s = if rq || r then RetryingQuery else Query)
  ∧ expire_on_commit s = (rq || r)
  ∧ ∃ s', get_db_factory cfg rq' srv db r' tenant st1 = (Return s', st1)
          ∧ session_bind s' = session_bind s.
Proof.
  intros Hcfg H.
  assert (_get_engine cfg srv db (Some tenant) st = (Return (session_bind s), st1)
          ∧ (query_cls s = if rq || r then RetryingQuery else Query)
          ∧ expire_on_commit s = (rq || r)) as (He & Hq & Hx).
  { unfold get_session in H. destruct (rq || r);
      apply bind_inv_Return in H as (e & st' & He & [= <- <-]); by cbn. }
  split; [done|]. split; [done|].
  assert (_get_engine cfg srv db (Some tenant) st1
          = (Return (session_bind s), st1)) as Hhit.
  { apply get_engine_hit.
    destruct (_db_engines (self st)
                !! _get_fully_qualified_db db (Some tenant)) as [e0|] eqn:E.
    - rewrite (get_engine_hit _ _ _ _ _ _ E) in He. by injection He as <- <-.
    - apply (get_engine_miss _ _ _ _ _ _ _ E) in He
        as (_ & _ & _ & _ & Hc & _).
      rewrite Hcfg in Hc. rewrite Hc. apply lookup_insert_eq. }
  unfold get_db_factory, get_session.
  destruct (rq' || r'); eexists;
    (split; [erewrite bind_Return by exact Hhit; reflexivity | done]).
Qed.

Lemma sessions_share_the_pool_witness :
  ∃ s st1,
    get_session caching false healthy_server "billing" (Some "acme") false
      (fresh_state billing_manager) = (Return s, st1)
    ∧ expire_on_commit s = false
    ∧ ∃ s', get_db_factory caching false healthy_server "billing" true "acme"
              st1 = (Return s', st1)
            ∧ session_bind s' = session_bind s.
Proof.
  eexists _, _. apply eq_and_then; [vm_compute; reflexivity|]. intros Hrun.
  destruct (sessions_share_the_pool caching healthy_server "billing" "acme"
              false false false true _ _ _ eq_refl Hrun) as (_ & Hx & Hs).
  split; [exact Hx | exact Hs].
Defined.

(** *** Order and effect of the hooks *)

Lemma run_autos_app srv t fs1 fs2 : ∀ sess w,
  run_autos srv t sess (fs1 ++ fs2) w =
  (sess' ← run_autos srv t sess fs1; run_autos srv t sess' fs2) w.
Proof.
  induction fs1 as [|f fs1 IH]; intros sess w; cbn [run_autos app]; [done|].
  unfold mbind, M_bind.
  destruct (run_auto srv t sess f w) as [[s1|e] w1]; [|done].
  rewrite IH. reflexivity.
Qed.



Lemma effective_execute srv sess s w sess' w' :
  tidy sess ->
  execute srv sess s w = (Return sess', w') ->
  bind sess' = bind sess ∧ tidy sess'
  ∧ effective w' sess' = effective w sess ++ [(engine_database (bind sess), s)].
Proof.
  unfold tidy, execute, effective, mbind, M_bind, emit, persist, modify,
    raise, mret, M_ret. cbn. intros Htidy.
  destruct (rejects _ _ _); [done|].
  destruct (engine_isolation _) eqn:Eiso; intros [= <- <-]; cbn.
  - rewrite Eiso. split; [done|]. split; [done|].
    rewrite Htidy by done. cbn. by rewrite !app_nil_r.
  - rewrite Eiso. split; [done|]. split; [done|].
    by rewrite fmap_app, app_assoc.
Qed.

Lemma effective_execute_all srv l : ∀ sess w sess' w',
  tidy sess ->
  execute_all srv sess l w = (Return sess', w') ->
  bind sess' = bind sess ∧ tidy sess'
  ∧ effective w' sess' =
      effective w sess ++ ((λ s, (engine_database (bind sess), s)) <$> l).
Proof.
  induction l as [|s l IH]; intros sess w sess' w' Ht; cbn [execute_all].
  - intros [= <- <-]. by rewrite app_nil_r.
  - intros H. apply bind_inv_Return in H as (s1 & w1 & H1 & H2).
    apply (effective_execute _ _ _ _ _ _ Ht) in H1 as (Hb1 & Ht1 & He1).
    apply (IH _ _ _ _ Ht1) in H2 as (Hb2 & Ht2 & He2).
    split; [congruence|]. split; [done|].
    rewrite He2, He1, Hb1, <- app_assoc. done.
Qed.

Lemma effective_run_autos srv t fs : ∀ sess w sess' w',
  tidy sess ->
  run_autos srv t sess fs w = (Return sess', w') ->
  bind sess' = bind sess ∧ tidy sess'
  ∧ effective w' sess' =
      effective w sess
        ++ ((λ s, (engine_database (bind sess), s)) <$> auto_statements t fs).
Proof.
  induction fs as [|f fs IH]; intros sess w sess' w' Ht; cbn [run_autos].
  - intros [= <- <-]. by rewrite app_nil_r.
  - intros H. apply bind_inv_Return in H as (s1 & w1 & H1 & H2).
    assert (bind s1 = bind sess ∧ tidy s1
            ∧ effective w1 s1 =
                effective w sess
                  ++ ((λ s, (engine_database (bind sess), s))
                        <$> match auto_call f t with
                            | Return r => statements_of r
                            | Raise _ => []
                            end)) as (Hb1 & Ht1 & He1).
    { unfold run_auto in H1.
      apply bind_inv_Return in H1 as ([] & w0 & [= <-] & H1).
      destruct (auto_call f t) as [[s|l]|err]; [| |done].
      - by apply (effective_execute _ _ _ _ _ _ Ht) in H1.
      - by apply (effective_execute_all _ _ _ _ _ _ Ht) in H1. }
    apply (IH _ _ _ _ Ht1) in H2 as (Hb2 & Ht2 & He2).
    split; [congruence|]. split; [done|].
    rewrite He2, He1, Hb1, <- app_assoc, <- fmap_app. reflexivity.
Qed.

Lemma effective_run_manuals srv t fs : ∀ sess w sess' w',
  tidy sess ->
  run_manuals srv t sess fs w = (Return sess', w') ->
  bind sess' = bind sess ∧ tidy sess'
  ∧ effective w' sess' =
      effective w sess
        ++ ((λ s, (engine_database (bind sess), s))
              <$> manual_statements t fs).
Proof.
  induction fs as [|f fs IH]; intros sess w sess' w' Ht; cbn [run_manuals].
  - intros [= <- <-]. by rewrite app_nil_r.
  - intros H. apply bind_inv_Return in H as (s1 & w1 & H1 & H2).
    assert (bind s1 = bind sess ∧ tidy s1
            ∧ effective w1 s1 =
                effective w sess
                  ++ ((λ s, (engine_database (bind sess), s))
                        <$> (manual_call f t).1)) as (Hb1 & Ht1 & He1).
    { unfold run_manual in H1.
      apply bind_inv_Return in H1 as ([] & w0 & [= <-] & H1).
      apply bind_inv_Return in H1 as (s0 & w0' & H0 & H1).
      destruct (manual_call f t).2; [done|]. injection H1 as <- <-.
      by apply (effective_execute_all _ _ _ _ _ _ Ht) in H0. }
    apply (IH _ _ _ _ Ht1) in H2 as (Hb2 & Ht2 & He2).
    split; [congruence|]. split; [done|].
    rewrite He2, He1, Hb1, <- app_assoc, <- fmap_app. reflexivity.
Qed.

Lemma effective_commit sess w sess' w' :
  commit sess w = (Return sess', w') ->
  bind sess' = bind sess ∧ pending sess' = []
  ∧ persisted w' = effective w sess.
Proof.
  unfold commit, effective, mbind, M_bind, emit, persist, modify, mret, M_ret.
  cbn. by intros [= <- <-].
Qed.

(** X13.  A run of [run_postcreate] that returns has made durable, on the
    engine's database and in this order, the statements of the auto
    actions in registration order and then those the manual actions
    executed; nothing else was written. *)
Theorem completed_hooks_persist_their_statements (srv : Server)
    (mgr : SQLSessionManager) (e : Engine) (db : string)
    (t : option string) (w w' : World) :
  run_postcreate srv mgr e db t w = (Return tt, w') ->
  persisted w' =
    persisted w
      ++ ((λ s, (engine_database e, s))
            <$> (auto_statements t (registered (_postcreate_auto mgr) db)
                 ++ manual_statements t
                      (registered (_postcreate_manual mgr) db))).
Proof.
  unfold run_postcreate, registered. intros H.
  apply bind_inv_Return in H as (s2 & w2 & H1 & H).
  apply bind_inv_Return in H1 as (s1 & w1 & H0 & H1).
  apply effective_run_autos in H0 as (Hb1 & _ & He1); [|done].
  apply effective_commit in H1 as (Hb2 & Hp2 & He2).
  apply bind_inv_Return in H as (s3 & w3 & H3 & H).
  apply effective_run_manuals in H3 as (Hb3 & _ & He3);
    [|by intros _].
  apply bind_inv_Return in H as (s4 & w4 & H4 & H).
  apply effective_commit in H4 as (_ & _ & He4).
  injection H as <-. cbn [persisted]. rewrite He4, He3.
  unfold effective at 1. rewrite Hp2, He2, He1. cbn.
  rewrite app_nil_r, Hb2, Hb1. cbn. unfold effective. cbn.
  by rewrite app_nil_r, fmap_app, app_assoc.
Qed.

Lemma completed_hooks_persist_their_statements_witness :
  ∃ w', run_postcreate healthy_server billing_manager
          (new_engine caching "acme__billing" 0) "billing" (Some "acme")
          empty_world = (Return tt, w')
        ∧ persisted w' =
            [] ++ [("acme__billing", "CREATE EXTENSION IF NOT EXISTS pgcrypto");
                   ("acme__billing", "INSERT INTO invoice VALUES (1)")].
Proof.
  eexists. apply eq_and_then; [vm_compute; reflexivity|]. intros Hrun.
  exact (completed_hooks_persist_their_statements _ _ _ _ _ _ _ Hrun).
Defined.

End SessionExtras.


Module DeclarativeExtras.
Import DeclarativeUtils Situations SessionExtensions DeclarativeExtensions
  DeclarativeFacts.
#[local] Open Scope list_scope.

(** *** Generation that goes through *)

Lemma same_process_refl w : same_process w w.
Proof. done. Qed.

Lemma same_process_trans w1 w2 w3 :
  same_process w1 w2 -> same_process w2 w3 -> same_process w1 w3.
Proof. intros (?&?&?&?) (?&?&?&?). split_and!; congruence. Qed.

Lemma ensure_tenant_package_run u w :
  ∃ w1, ensure_tenant_package u w = (Return tt, w1)
        ∧ same_process w w1
        ∧ files w1 !! declarative_file u = files w !! declarative_file u.
Proof.
  destruct (ensure_tenant_package_returns u w) as (w1 & E).
  exists w1. split; [exact E|].
  pose proof (untouched_ensure_tenant_package _ _ _ _ E) as (Hf & _).
  split; [|exact Hf].
  revert E. unfold ensure_tenant_package, mkdir, write_file, mbind, M_bind,
    get, emit, modify, mret, M_ret. cbn.
  destruct (bool_decide _); cbn; destruct (bool_decide _); cbn;
    by intros [= <-].
Qed.

Lemma generate_declarative_file_run host u meta text w :
  generates host u meta text ->
  ∃ w', generate_declarative_file host u w = (Return tt, w')
        ∧ same_process w w'
        ∧ files w' !! declarative_file u = Some text.
Proof.
  intros (Hc & Hs & Hr & Hg).
  unfold generates, session_tenant, generator_database in *.
  unfold generate_declarative_file, write_file, of_fault, of_outcome,
    mbind, M_bind, emit, modify, raise, mret, M_ret.
  rewrite Hc. cbn. rewrite Hs. cbn. rewrite Hr. cbn. rewrite Hg. cbn.
  eexists. split; [reflexivity|]. split; [done|]. cbn.
  apply lookup_insert_eq.
Qed.

Lemma prepare_regenerates cfg host u refresh w meta text :
  generates host u meta text ->
  deferred cfg u refresh w = false ->
  ∃ w', _prepare_declarative_file cfg host u refresh w
          = (Return (Path (logical_path u)), w')
        ∧ same_process w w'
        ∧ files w' !! declarative_file u = Some text.
Proof.
  intros Hgen Hdef.
  destruct (ensure_tenant_package_run u w) as (w1 & E1 & Hp1 & Hf1).
  destruct (generate_declarative_file_run host u meta text w1 Hgen)
    as (w2 & E2 & Hp2 & Hf2).
  exists w2. split; [|split; [by eapply same_process_trans | done]].
  unfold _prepare_declarative_file, mbind at 1, M_bind at 1. rewrite E1.
  unfold mbind at 1, M_bind at 1. cbn [get].
  unfold deferred in Hdef. rewrite Hf1, Hdef. by rewrite E2.
Qed.

Lemma prepare_refresh_regenerates cfg host u w meta text :
  generates host u meta text ->
  ∃ w', _prepare_declarative_file cfg host u true w
          = (Return (Path (logical_path u)), w')
        ∧ same_process w w'
        ∧ files w' !! declarative_file u = Some text.
Proof.
  intros Hgen. apply (prepare_regenerates cfg host u true w meta text Hgen).
  unfold deferred. by rewrite andb_false_r.
Qed.

(** X15.  A requested refresh overrides the deferral: with [refresh=True]
    [_prepare_declarative_file] regenerates even though the artifact is
    there and [DEFER_GEN_REFRESH] is on.  When the generation goes
    through, the artifact holds the generator's text afterwards, the
    logical path is returned, and modules, base registry and cache are
    untouched. *)
Theorem refresh_overrides_deferral (cfg : ModuleConfig) (host : Host)
    (u : DeclarativeUtils) (w : World) (meta : Metadata) (text : string) :
  generates host u meta text ->
  ∃ w', _prepare_declarative_file cfg host u true w
          = (Return (Path (logical_path u)), w')
        ∧ same_process w w'
        ∧ files w' !! declarative_file u = Some text.
Proof.
  intros Hgen. by apply prepare_refresh_regenerates with meta.
Qed.

Lemma refresh_overrides_deferral_witness :
  ∃ w', _prepare_declarative_file deferring plain_host pending_billing true
          with_artifact
          = (Return (Path "acme.async_billing_public"), w')
        ∧ same_process with_artifact w'
        ∧ files w' !! "acme/async_billing_public.py"
          = Some "# bindings of acme__billing.public".
Proof.
  apply (refresh_overrides_deferral deferring plain_host pending_billing
           with_artifact ["user_profile"; "audit_log"]).
  by split_and!.
Defined.

(** *** Lookups that load *)

Lemma get_declarative_module_assigns cfg host u w w1 m w2 :
  _prepare_declarative_file cfg host u false w
    = (Return (Path (logical_path u)), w1) ->
  import_module host (logical_path u) w1 = (Return m, w2) ->
  _get_declarative_module cfg host {| self := u; world := w |}
    = (Return (Some m), {| self := assigned u (Loaded m); world := w2 |}).
Proof.
  intros Hprep Himp. unfold _get_declarative_module.
  unfold mbind at 1, M_bind at 1. cbn [get_self self].
  unfold mbind at 1, M_bind at 1. unfold lift at 1. cbn [self world].
  rewrite Hprep.
  unfold try_except, load_declarative_module.
  unfold mbind at 1, M_bind at 1. cbn [set_declarative_module modify].
  unfold mbind at 1, M_bind at 1. unfold lift at 1. cbn [self world].
  rewrite Himp. reflexivity.
Qed.

(** X16.  A first lookup of a triple whose [_prepare_declarative_file]
    yields the logical path and whose import returns the module [m]
    returns a new object, built from the arguments, that holds [m]; the
    object is entered in the cache under the triple's key, and nothing
    else happens after the import. *)
Theorem first_lookup_caches_the_imported_module (cfg : ModuleConfig)
    (host : Host) (db t sch : string) (rd : bool) (w w1 w2 : World)
    (m : PyModule) :
  let u0 := __init__ db t sch rd in
  declarative_utils w !! cache_key db t sch = None ->
  _prepare_declarative_file cfg host u0 false w
    = (Return (Path (logical_path u0)), w1) ->
  import_module host (logical_path u0) w1 = (Return m, w2) ->
  ∃ w',
    get_declarative_utils cfg host db t sch rd w
      = (Return (assigned u0 (Loaded m)), w')
    ∧ declarative_utils w'
      = <[cache_key db t sch := assigned u0 (Loaded m)]> (declarative_utils w2)
    ∧ trace w' = trace w2 ∧ files w' = files w2
    ∧ sys_modules w' = sys_modules w2.
Proof.
  intros u0 Hmiss Hprep Himp.
  unfold get_declarative_utils. unfold mbind at 1, M_bind at 1. cbn [get].
  rewrite Hmiss. unfold mbind at 1, M_bind at 1.
  unfold __new__. fold u0.
  rewrite (get_declarative_module_assigns _ _ _ _ _ _ _ Hprep Himp).
  cbn [self world].
  eexists. split; [reflexivity|]. by cbn.
Qed.

Lemma first_lookup_caches_the_imported_module_witness :
  ∃ w',
    get_declarative_utils regenerating plain_host "billing" "acme" "public"
      false boot
      = (Return (assigned pending_billing
                   (Loaded {| module_id := 0;
                              module_name := "acme.async_billing_public";
                              module_text :=
                                "# bindings of acme__billing.public";
                              namespace := billing_namespace |})), w')
    ∧ declarative_utils w' !! "billing_acme_public"
      = Some (assigned pending_billing
                (Loaded {| module_id := 0;
                           module_name := "acme.async_billing_public";
                           module_text :=
                             "# bindings of acme__billing.public";
                           namespace := billing_namespace |})).
Proof.
  eassert (_prepare_declarative_file regenerating plain_host pending_billing
             false boot = (Return (Path "acme.async_billing_public"), _))
    as Hprep by (vm_compute; reflexivity).
  match type of Hprep with _ = (_, ?w1) =>
    eassert (import_module plain_host "acme.async_billing_public" w1
             = (Return {| module_id := 0;
                          module_name := "acme.async_billing_public";
                          module_text := "# bindings of acme__billing.public";
                          namespace := billing_namespace |}, _))
      as Himp by (vm_compute; reflexivity)
  end.
  destruct (first_lookup_caches_the_imported_module regenerating plain_host
              "billing" "acme" "public" false boot _ _ _ eq_refl Hprep Himp)
    as (w' & Hrun & Hc & _).
  exists w'. split; [exact Hrun|]. rewrite Hc. apply lookup_insert_eq.
Defined.

(** *** [refresh_module] *)


(** X18.  [refresh_module] fails when it is asked for the operation that
    does not fit the object: a re-import ([non_refresh=True]) of a
    loaded module, a reload of an object that holds only the path, or
    either on an object without module.  The call never returns
    normally and leaves the object as it was, but the base of the pair
    has been removed from the registry all the same. *)
Theorem refresh_of_the_wrong_kind_raises (cfg : ModuleConfig) (host : Host)
    (non_refresh : bool) (st st' : State) (r : outcome unit) :
  mismatched (declarative_module (self st)) non_refresh ->
  refresh_module cfg host non_refresh st = (r, st') ->
  (∃ e, r = Raise e)
  ∧ self st' = self st
  ∧ RemoveBaseClass (raw_database (self st)) (schema (self st))
      ∈ trace (world st').
Proof.
  intros Hmis. unfold refresh_module.
  unfold mbind at 1, M_bind at 1. cbn [get_self].
  unfold mbind at 1, M_bind at 1. unfold lift at 1.
  rewrite remove_base_class_run. cbn [self world].
  set (wa := {| dirs := _; files := _; sys_modules := _; base_classes := _;
                declarative_utils := _; next_object := _; trace := _ |}).
  unfold mbind at 1, M_bind at 1. unfold lift at 1. cbn [self world].
  destruct (_prepare_declarative_file cfg host (self st) true wa)
    as [rb wb] eqn:Eb.
  pose proof (grows_prepare _ _ _ _ _ _ _ Eb) as (_ & evs & Ht & _).
  assert (RemoveBaseClass (raw_database (self st)) (schema (self st))
            ∈ trace wb) as Hin.
  { rewrite Ht. unfold wa. cbn [trace]. set_solver. }
  destruct rb as [pb|eb]; [|intros [= <- <-]; eauto].
  unfold mbind at 1, M_bind at 1. cbn [get_self self].
  unfold mbind at 1, M_bind at 1. unfold lift at 1. cbn [self world].
  assert (∀ v nr, mismatched v nr ->
            ∃ e, ∀ w, (if nr then import_module_of host v
                       else reload_of host v) w = (Raise e, w)) as Hraise.
  { intros [| p | m] [|]; cbn; intros Hv; try done; by eexists. }
  destruct (Hraise _ _ Hmis) as [e He]. rewrite He.
  intros [= <- <-]. eauto.
Qed.

Lemma refresh_of_the_wrong_kind_raises_witness :
  ∃ e st',
    refresh_module deferring plain_host true
      {| self := loaded_billing; world := after_first_lookup |}
      = (Raise e, st')
    ∧ self st' = loaded_billing.
Proof.
  eexists _, _. apply eq_and_then; [vm_compute; reflexivity|]. intros Hrun.
  pose proof (λ H, refresh_of_the_wrong_kind_raises deferring plain_host
                     true _ _ _ H Hrun) as K.
  exact (proj1 (proj2 (K eq_refl))).
Defined.

(** *** The cache of objects *)

(** X19.  Among databases and tenants whose names hold no underscore
    the cache key is one-to-one: two triples get the same key only if
    database, tenant and schema agree. *)
Theorem cache_key_injective (db t sch db' t' sch' : string) :
  free_of "_" db = true -> free_of "_" db' = true ->
  free_of "_" t = true -> free_of "_" t' = true ->
  cache_key db t sch = cache_key db' t' sch' ->
  db = db' ∧ t = t' ∧ sch = sch'.
Proof.
  intros Hd Hd' Ht Ht'. unfold cache_key. cbn. intros H.
  apply SessionExtras.split_at_first in H as [-> H]; [|done..].
  apply SessionExtras.split_at_first in H as [-> H]; [|done..].
  done.
Qed.

Lemma cache_key_injective_witness :
  "billing" = "billing" ∧ "acme" = "acme" ∧ "public" = "public".
Proof.
  apply (cache_key_injective "billing" "acme" "public"
           "billing" "acme" "public"); reflexivity.
Defined.

(** X20.  The flag [raw_db] is no part of the cache key.  After
    [get_declarative_utils(..., raw_db=rd)] has made the object of a
    triple, the closure of
    [get_schema_mandated_declarative_utils_factory], which builds its
    objects without [raw_db], returns for that triple an object whose
    [raw_db] is [rd]. *)
Theorem first_caller_decides_raw_db (cfg : ModuleConfig) (host : Host)
    (db t sch : string) (rd : bool) (w w1 w2 : World)
    (u1 u2 : DeclarativeUtils) :
  declarative_utils w !! cache_key db t sch = None ->
  get_declarative_utils cfg host db t sch rd w = (Return u1, w1) ->
  get_schema_mandated_declarative_utils_factory cfg host db sch t w1
    = (Return u2, w2) ->
  raw_db u2 = rd ∧ same_object u1 u2.
Proof.
  intros Hmiss H1 H2.
  destruct (get_declarative_utils_miss _ _ _ _ _ _ _ _ _ Hmiss H1)
    as ((_ & _ & _ & Hrd) & Hhit).
  pose proof (get_declarative_utils_hit _ _ _ _ _ _ _ _ _ _ Hhit H2) as Hobj.
  split; [|done]. destruct Hobj as (_ & _ & _ & Hrd2).
  rewrite Hrd2. exact Hrd.
Qed.

Lemma first_caller_decides_raw_db_witness :
  ∃ u1 w1 u2 w2,
    get_declarative_utils deferring plain_host "billing" "acme" "public"
      true with_artifact = (Return u1, w1)
    ∧ get_schema_mandated_declarative_utils_factory deferring plain_host
        "billing" "public" "acme" w1 = (Return u2, w2)
    ∧ raw_db u2 = true.
Proof.
  eexists _, _, _, _.
  apply eq_and_then; [vm_compute; reflexivity|]. intros H1.
  apply eq_and_then; [vm_compute; reflexivity|]. intros H2.
  exact (proj1 (first_caller_decides_raw_db deferring plain_host "billing"
                  "acme" "public" true with_artifact _ _ _ _ eq_refl H1 H2)).
Defined.

(** *** Generation that fails *)

Lemma generate_declarative_file_reflection_fails host u e w :
  reflection_fails host u e ->
  ∃ w', generate_declarative_file host u w = (Raise e, w')
        ∧ same_process w w'
        ∧ files w' = files w
        ∧ trace w' = trace w ++ [GetSession (raw_database u) (session_tenant u);
                                 Reflect (schema u)].
Proof.
  intros (Hc & Hs & Hr & _).
  unfold session_tenant in *.
  unfold generate_declarative_file, write_file, of_fault, of_outcome,
    mbind, M_bind, emit, modify, raise, mret, M_ret.
  rewrite Hc. cbn. rewrite Hs. cbn. rewrite Hr. cbn.
  eexists. split; [reflexivity|]. cbn. split_and!; try done.
  by rewrite <- app_assoc.
Qed.

Lemma prepare_reflection_fails cfg host u refresh w e :
  reflection_fails host u e ->
  deferred cfg u refresh w = false ->
  ∃ w', _prepare_declarative_file cfg host u refresh w = (Return PyFalse, w')
        ∧ same_process w w'
        ∧ files w' !! declarative_file u = files w !! declarative_file u
        ∧ imports (trace w') = imports (trace w)
        ∧ LogError "Error creating declarative file" ∈ trace w'.
Proof.
  intros Hfail Hdef.
  destruct (ensure_tenant_package_run u w) as (w1 & E1 & Hp1 & Hf1).
  destruct (generate_declarative_file_reflection_fails host u e w1 Hfail)
    as (w2 & E2 & Hp2 & Hf2 & Ht2).
  pose proof (same_imports_ensure_tenant_package _ _ _ _ E1) as Hi1.
  destruct Hfail as (_ & _ & _ & Hexc & Hni).
  set (w3 := {| dirs := dirs w2; files := files w2;
                sys_modules := sys_modules w2;
                base_classes := base_classes w2;
                declarative_utils := declarative_utils w2;
                next_object := next_object w2;
                trace := trace w2 ++ [LogError "Error creating declarative file"]
             |}).
  exists w3. split.
  { unfold _prepare_declarative_file, mbind at 1, M_bind at 1. rewrite E1.
    unfold mbind at 1, M_bind at 1. cbn [get].
    unfold deferred in Hdef. rewrite Hf1, Hdef, E2.
    destruct e; try done. by destruct (Hni msg). }
  split.
  { eapply same_process_trans; [exact Hp1|].
    eapply same_process_trans; [exact Hp2|]. done. }
  split; [cbn; by rewrite Hf2|].
  split.
  - unfold same_imports in Hi1. cbn [trace w3]. rewrite Ht2.
    unfold imports in *. rewrite !omap_app. cbn. rewrite !app_nil_r.
    exact Hi1.
  - cbn. set_solver.
Qed.

(** X21.  A first lookup while the reflection fails (with an [Exception]
    that is no [ImportError]) still returns an object and caches it: the
    object has no module, so [get_declarative_base] and
    [get_declarative_class] answer [None] for it.  The artifact is as it
    was, no import has been tried, and the failure has been logged. *)
Theorem failed_reflection_caches_object_without_module (cfg : ModuleConfig)
    (host : Host) (db t sch : string) (rd : bool) (w : World) (e : exn) :
  let u0 := __init__ db t sch rd in
  reflection_fails host u0 e ->
  deferred cfg u0 false w = false ->
  declarative_utils w !! cache_key db t sch = None ->
  ∃ u w',
    get_declarative_utils cfg host db t sch rd w = (Return u, w')
    ∧ declarative_module u = NoModule
    ∧ declarative_utils w' !! cache_key db t sch = Some u
    ∧ files w' !! declarative_file u0 = files w !! declarative_file u0
    ∧ imports (trace w') = imports (trace w)
    ∧ LogError "Error creating declarative file" ∈ trace w'
    ∧ get_declarative_base host u = Return None
    ∧ ∀ table_name, get_declarative_class host u table_name = None.
Proof.
  intros u0 Hfail Hdef Hmiss.
  destruct (prepare_reflection_fails cfg host u0 false w e Hfail Hdef)
    as (w1 & Hprep & _ & Hf & Hi & Hlog).
  unfold get_declarative_utils. unfold mbind at 1, M_bind at 1. cbn [get].
  rewrite Hmiss. unfold mbind at 1, M_bind at 1.
  unfold __new__, _get_declarative_module.
  unfold mbind at 1, M_bind at 1. cbn [get_self self].
  unfold mbind at 1, M_bind at 1. unfold lift at 1. cbn [self world].
  fold u0. rewrite Hprep. cbn.
  eexists _, _. split; [reflexivity|]. cbn.
  split_and!; try done. apply lookup_insert_eq.
Qed.

Lemma failed_reflection_caches_object_without_module_witness :
  ∃ u w',
    get_declarative_utils regenerating host_database_down "billing" "acme"
      "public" false boot = (Return u, w')
    ∧ declarative_module u = NoModule
    ∧ declarative_utils w' !! "billing_acme_public" = Some u
    ∧ get_declarative_class host_database_down u "user_profile" = None.
Proof.
  destruct (failed_reflection_caches_object_without_module regenerating
              host_database_down "billing" "acme" "public" false boot
              (OperationalError "connection to server failed"))
    as (u & w' & Hrun & Hm & Hc & _ & _ & _ & _ & Hcls);
    [ by split_and! | reflexivity | reflexivity | ].
  exists u, w'. by split_and!.
Defined.

(** X22.  An object cached without a loaded module (it holds [None] or
    only the logical path) is tried again at the next lookup of its key:
    when [_prepare_declarative_file] now yields the path and the import
    returns the module [m], the lookup returns the cached object with
    [m] assigned, and the cache holds it in that state. *)
Theorem object_without_module_is_tried_again (cfg : ModuleConfig)
    (host : Host) (db t sch : string) (rd : bool) (w w1 w2 : World)
    (u : DeclarativeUtils) (m : PyModule) :
  declarative_utils w !! cache_key db t sch = Some u ->
  (∀ m0, declarative_module u ≠ Loaded m0) ->
  _prepare_declarative_file cfg host u false w
    = (Return (Path (logical_path u)), w1) ->
  import_module host (logical_path u) w1 = (Return m, w2) ->
  ∃ w',
    get_declarative_utils cfg host db t sch rd w
      = (Return (assigned u (Loaded m)), w')
    ∧ declarative_utils w'
      = <[cache_key db t sch := assigned u (Loaded m)]> (declarative_utils w2)
    ∧ trace w' = trace w2 ∧ files w' = files w2
    ∧ sys_modules w' = sys_modules w2.
Proof.
  intros Hhit Hpending Hprep Himp.
  pose proof (get_declarative_module_assigns _ _ _ _ _ _ _ Hprep Himp) as Hrun.
  unfold get_declarative_utils. unfold mbind at 1, M_bind at 1. cbn [get].
  rewrite Hhit. unfold on_cached, _pre_check.
  unfold mbind at 1, M_bind at 1. cbn [get_self self].
  destruct (declarative_module u) as [| p | m0] eqn:Em;
    [| | by destruct (Hpending m0)];
    (unfold mbind at 1, M_bind at 1; rewrite Hrun; cbn;
     eexists; split; [reflexivity|]; by cbn).
Qed.

Lemma object_without_module_is_tried_again_witness :
  ∃ w',
    declarative_utils after_failed_lookup !! "billing_acme_public"
      = Some pending_billing
    ∧ get_declarative_utils regenerating plain_host "billing" "acme" "public"
        false after_failed_lookup
      = (Return (assigned pending_billing
                   (Loaded {| module_id := 0;
                              module_name := "acme.async_billing_public";
                              module_text :=
                                "# bindings of acme__billing.public";
                              namespace := billing_namespace |})), w').
Proof.
  assert (declarative_utils after_failed_lookup
            !! cache_key "billing" "acme" "public" = Some pending_billing)
    as Hhit by reflexivity.
  eassert (_prepare_declarative_file regenerating plain_host pending_billing
             false after_failed_lookup
           = (Return (Path "acme.async_billing_public"), _))
    as Hprep by (vm_compute; reflexivity).
  match type of Hprep with _ = (_, ?w1) =>
    eassert (import_module plain_host "acme.async_billing_public" w1
             = (Return {| module_id := 0;
                          module_name := "acme.async_billing_public";
                          module_text := "# bindings of acme__billing.public";
                          namespace := billing_namespace |}, _))
      as Himp by (vm_compute; reflexivity)
  end.
  assert (∀ m0, declarative_module pending_billing ≠ Loaded m0) as Hpending
    by done.
  destruct (object_without_module_is_tried_again regenerating plain_host
              "billing" "acme" "public" false after_failed_lookup _ _
              pending_billing _ Hhit Hpending Hprep Himp)
    as (w' & Hrun & _).
  exists w'. split; [exact Hhit | exact Hrun].
Defined.


Lemma generate_declarative_file_generator_fails host u meta e w :
  generator_fails host u meta e ->
  ∃ w', generate_declarative_file host u w = (Raise e, w')
        ∧ same_process w w'
        ∧ files w' !! declarative_file u = Some "".
Proof.
  intros (Hc & Hs & Hr & Hg & _).
  unfold session_tenant, generator_database in *.
  unfold generate_declarative_file, write_file, of_fault, of_outcome,
    mbind, M_bind, emit, modify, raise, mret, M_ret.
  rewrite Hc. cbn. rewrite Hs. cbn. rewrite Hr. cbn. rewrite Hg. cbn.
  eexists. split; [reflexivity|]. split; [done|]. cbn.
  apply lookup_insert_eq.
Qed.

(** X23.  The artifact is opened for writing before the generator runs.
    When the generator then fails, [_prepare_declarative_file] returns
    [False] and leaves an empty artifact behind; with
    [DEFER_GEN_REFRESH] on, the next call without refresh takes that
    empty file for a generated one: it returns the logical path and
    reflects and writes nothing. *)
Theorem failed_generator_leaves_empty_artifact (cfg : ModuleConfig)
    (host : Host) (u : DeclarativeUtils) (refresh : bool) (w : World)
    (meta : Metadata) (e : exn) :
  generator_fails host u meta e ->
  deferred cfg u refresh w = false ->
  DEFER_GEN_REFRESH cfg = true ->
  ∃ w1 w2,
    _prepare_declarative_file cfg host u refresh w = (Return PyFalse, w1)
    ∧ files w1 !! declarative_file u = Some ""
    ∧ _prepare_declarative_file cfg host u false w1
        = (Return (Path (logical_path u)), w2)
    ∧ untouched (declarative_file u) w1 w2.
Proof.
  intros Hfail Hdef Hcfg.
  destruct (ensure_tenant_package_run u w) as (w0 & E0 & _ & Hf0).
  destruct (generate_declarative_file_generator_fails host u meta e w0 Hfail)
    as (w1 & E1 & _ & Hf1).
  destruct Hfail as (_ & _ & _ & _ & Hexc & Hni).
  set (w1' := {| dirs := dirs w1; files := files w1;
                 sys_modules := sys_modules w1;
                 base_classes := base_classes w1;
                 declarative_utils := declarative_utils w1;
                 next_object := next_object w1;
                 trace := trace w1 ++ [LogError "Error creating declarative file"]
              |}).
  destruct (prepare_deferred cfg host u w1' "" Hcfg Hf1)
    as (w2 & Hprep & Hun & _).
  exists w1', w2. split_and!; try done.
  unfold _prepare_declarative_file, mbind at 1, M_bind at 1. rewrite E0.
  unfold mbind at 1, M_bind at 1. cbn [get].
  unfold deferred in Hdef. rewrite Hf0, Hdef, E1.
  destruct e; try done. by destruct (Hni msg).
Qed.

Lemma failed_generator_leaves_empty_artifact_witness :
  ∃ w1 w2,
    _prepare_declarative_file deferring host_generator_fails pending_billing
      false boot = (Return PyFalse, w1)
    ∧ files w1 !! "acme/async_billing_public.py" = Some ""
    ∧ _prepare_declarative_file deferring host_generator_fails
        pending_billing false w1
        = (Return (Path "acme.async_billing_public"), w2).
Proof.
  destruct (failed_generator_leaves_empty_artifact deferring
              host_generator_fails pending_billing false boot
              ["user_profile"; "audit_log"]
              (Exception "unsupported column type"))
    as (w1 & w2 & H1 & Hf & H2 & _);
    [ by split_and! | reflexivity | reflexivity | ].
  exists w1, w2. by split_and!.
Defined.

End DeclarativeExtras.
